(** * Tip allocation and transfer orchestration of the OT-2 protocol scripts

    A shallow embedding of [wet_scripting/uninduced_day_5/complete_protocol.py]
    (the day-6 script carries the same code and differs only in its appended
    experiment data): the class [CustomPipette] with its methods
    [pick_up_tip], [next_tip], [get_available_volume], [get_current_volume]
    and [transfer], and the pipetting of [run].  The functions
    [assign_wells] and [apply_values] of [generate_protocol.py], which write
    the data that [run] reads, are embedded in module [Generate].

    Conventions of the embedding.
    - Python lists are [list]; indexing and slicing follow Python's rules for
      negative and out-of-range indices (module [Py]).
    - Python strings are [string]s whose characters stand for code points
      below 256; the well names of the script are ASCII.
    - Volumes are Python floats in the script; they are embedded as exact
      rationals [Q].  The script only multiplies by [1.1], subtracts, takes a
      minimum and compares, and the statements below are about that control
      structure.
    - [CustomPipette] inherits from the Opentrons [InstrumentContext], which
      is not part of the repository.  The inherited methods the script calls
      through [super()] or [self] are the fields of a record [Base]; the
      wrapper logs every such call in a trace of [Event]s.  What a statement
      needs to know about the inherited behaviour is stated as a named law
      of the base. *)

From Stdlib Require Import String Ascii List ZArith QArith Bool Lia Lqa Permutation.
Import ListNotations.

Local Open Scope Z_scope.

(** ** Python list primitives *)

Module Py.

(** A negative index counts from the end of the list. *)
Definition norm_index (len i : Z) : Z := if i <? 0 then i + len else i.

(** Slice bounds are clamped into [0, len]. *)
Definition clamp (len i : Z) : Z := Z.max 0 (Z.min len (norm_index len i)).

(** [l[a:b]] *)
Definition slice {A : Type} (l : list A) (a b : Z) : list A :=
  let len := Z.of_nat (length l) in
  let lo := clamp len a in
  let hi := clamp len b in
  firstn (Z.to_nat (hi - lo)) (skipn (Z.to_nat lo) l).

(** [l[i]]: the position read and the element, [None] for [IndexError]. *)
Definition index {A : Type} (l : list A) (i : Z) : option (nat * A) :=
  let len := Z.of_nat (length l) in
  let j := norm_index len i in
  if (0 <=? j) && (j <? len)
  then option_map (pair (Z.to_nat j)) (nth_error l (Z.to_nat j))
  else None.

(** [all(l)] on a list of booleans. *)
Definition all (l : list bool) : bool := forallb (fun b => b) l.

(** [min([a, b])]: the first of the smallest elements. *)
Definition min2 (a b : Q) : Q := if Qlt_le_dec b a then b else a.

(** Truth value of a number: everything but zero. *)
Definition truthy (q : Q) : bool := negb (Qeq_bool q 0).

End Py.

(** ** Data model *)

(** A well of a tip rack: [well.has_tip] and [well.max_volume]. *)
Module Well.
Record t : Type := mk { has_tip : bool; max_volume : Q }.
End Well.

(** [tip_rack.columns()]: the columns of a rack, each a list of wells from
    row A downwards. *)
Abbreviation Column := (list Well.t).
Abbreviation Labware := (list (list Well.t)).

(** A [Well] object is identified by the rack it belongs to (its position in
    [self.tip_racks]), its column and its row. *)
Record WellRef : Type := mkRef { rack_ix : nat; col_ix : nat; row_ix : nat }.

(** Values a caller may pass for [number]. *)
Inductive PyVal : Type :=
| PyInt (z : Z)
| PyBool (b : bool)
| PyFloat (q : Q)
| PyStr (s : string)
| PyNone.

(** Exceptions.  The two [ValueError]s the script raises are told apart by
    their message; [ValueError_parse] is the one of [int] and [str.index];
    [BaseError] stands for whatever an inherited method raises. *)
Inductive exn : Type :=
| ValueError_channels (number : PyVal)
| ValueError_volume (aspiration_volume available : Q)
| ValueError_parse
| OutOfTipsError
| IndexError
| KeyError
| BaseError (code : nat).

Inductive Res (A : Type) : Type :=
| Ok (a : A)
| Raise (e : exn).
Arguments Ok {A} a.
Arguments Raise {A} e.

Definition res_map {A B : Type} (f : A -> B) (r : Res A) : Res B :=
  match r with Ok a => Ok (f a) | Raise e => Raise e end.

(** ** [CustomPipette.next_tip] *)

(** The innermost loop, [for i2, _ in enumerate(column[::-1])].  [i2s] are
    the values of [i2] still to visit; the result is [None] when the loop
    ends without [break]. *)
Fixpoint scan_rows (column : Column) (truth : list bool) (number_of_tips : Z)
    (i2s : list nat) : Res (option (nat * Well.t)) :=
  match i2s with
  | [] => Ok None
  | i2 :: rest =>
      let well_index := 7 - Z.of_nat i2 in
      if well_index + number_of_tips >? 8
      then scan_rows column truth number_of_tips rest
      else if Py.all (Py.slice truth well_index (well_index + number_of_tips))
      then match Py.index column well_index with
           | Some target_well => Ok (Some target_well)
           | None => Raise IndexError
           end
      else scan_rows column truth number_of_tips rest
  end.

(** [for i1, column in enumerate(tip_rack.columns())], from column [i1] on. *)
Fixpoint scan_columns (truth_table : list (list bool)) (number_of_tips : Z)
    (i1 : nat) (columns : list Column) : Res (option (nat * (nat * Well.t))) :=
  match columns with
  | [] => Ok None
  | column :: rest =>
      match scan_rows column (nth i1 truth_table []) number_of_tips
              (seq 0 (length column)) with
      | Raise e => Raise e
      | Ok (Some target_well) => Ok (Some (i1, target_well))
      | Ok None => scan_columns truth_table number_of_tips (S i1) rest
      end
  end.

(** [for tip_rack in self.tip_racks: ... else: raise OutOfTipsError], from
    rack [r] on. *)
Fixpoint scan_racks (number_of_tips : Z) (r : nat) (tip_racks : list Labware)
    : Res (WellRef * Well.t) :=
  match tip_racks with
  | [] => Raise OutOfTipsError
  | tip_rack :: rest =>
      let truth_table := map (map Well.has_tip) tip_rack in
      match scan_columns truth_table number_of_tips 0 tip_rack with
      | Raise e => Raise e
      | Ok (Some (c, (w, well))) => Ok (mkRef r c w, well)
      | Ok None => scan_racks number_of_tips (S r) rest
      end
  end.

Definition next_tip_in (tip_racks : list Labware) (number_of_tips : Z)
    : Res (WellRef * Well.t) :=
  scan_racks number_of_tips 0 tip_racks.

(** *** The search policy in the words of the specification *)

Definition lookup_well (racks : list Labware) (ref : WellRef) : option Well.t :=
  match nth_error racks (rack_ix ref) with
  | Some rack =>
      match nth_error rack (col_ix ref) with
      | Some column => nth_error column (row_ix ref)
      | None => None
      end
  | None => None
  end.

(** A slot is available when it exists and reports a tip. *)
Definition available (racks : list Labware) (ref : WellRef) : bool :=
  match lookup_well racks ref with
  | Some well => Well.has_tip well
  | None => false
  end.

(** The slots of a run of [n] rows starting at [ref]. *)
Definition run_slots (ref : WellRef) (n : nat) : list WellRef :=
  map (fun j => mkRef (rack_ix ref) (col_ix ref) (row_ix ref + j)) (seq 0 n).

(** [ref] starts a run of [n] consecutive available slots that fits within
    the 8 rows of its column. *)
Definition starts_run (racks : list Labware) (n : nat) (ref : WellRef) : bool :=
  (row_ix ref + n <=? 8)%nat && forallb (available racks) (run_slots ref n).

(** Row start indices from the bottom of a column upward. *)
Definition rows_bottom_up : list nat := [7; 6; 5; 4; 3; 2; 1; 0]%nat.

Fixpoint column_refs (r c : nat) (columns : list Column) : list WellRef :=
  match columns with
  | [] => []
  | _ :: rest => map (mkRef r c) rows_bottom_up ++ column_refs r (S c) rest
  end.

Fixpoint rack_refs (r : nat) (racks : list Labware) : list WellRef :=
  match racks with
  | [] => []
  | rack :: rest => column_refs r 0 rack ++ rack_refs (S r) rest
  end.

(** Racks in configured order, columns in natural order, rows 7 down to 0. *)
Definition search_order (racks : list Labware) : list WellRef := rack_refs 0 racks.

(** The well a reference points to. *)
Definition default_well : Well.t := Well.mk false 0.

Definition well_at (racks : list Labware) (ref : WellRef) : Well.t :=
  nth (row_ix ref) (nth (col_ix ref) (nth (rack_ix ref) racks []) []) default_well.

(** The run test of [starts_run], read off one column. *)
Definition column_starts_run (column : Column) (n w : nat) : bool :=
  (w + n <=? 8)%nat &&
  forallb (fun j => match nth_error column (w + j) with
                    | Some well => Well.has_tip well
                    | None => false
                    end) (seq 0 n).

(** Racks of the 96 format the script loads: every column has 8 rows. *)
Definition eight_rows (racks : list Labware) : Prop :=
  Forall (Forall (fun column : Column => length column = 8%nat)) racks.

(** ** The pipette, its inherited methods and the call trace *)

(** Places the script hands to the driver.  They are passed through
    unchanged. *)
Inductive Location : Type :=
| TipWell (ref : WellRef)                             (* a well of a tip rack *)
| PlateWell (plate : string) (letter : ascii) (column : Z)  (* plate[letter + str(column)] *)
| Reservoir (well : string) (height : Q).             (* reservoir[well].bottom(height) *)

(** [**kwargs] of [pick_up_tip]: the [location] entry ([None] when the key is
    absent or its value is [None]) and the entries the wrapper never reads. *)
Record Kwargs : Type := mkKwargs {
  location : option Location;
  others : list (string * PyVal)
}.

Definition no_kwargs : Kwargs := mkKwargs None [].

Definition set_location (kwargs : Kwargs) (l : Location) : Kwargs :=
  mkKwargs (Some l) (others kwargs).

(** The attributes of [self] the wrapper reads. *)
Record Pipette : Type := mkPipette {
  channels : Z;
  tip_racks : list Labware;
  has_tip : bool;
  max_volume : Q;
  current_volume : Q
}.

(** Calls that leave the wrapper: inherited methods and the operator prompt. *)
Inductive Event : Type :=
| Input                                   (* input("Please replace ...") *)
| Super_reset_tipracks                    (* super().reset_tipracks() *)
| Super_pick_up_tip (kwargs : Kwargs)     (* super().pick_up_tip with these kwargs *)
| Drop_tip                                (* self.drop_tip() *)
| Aspirate (volume : Q) (l : Location)    (* self.aspirate(volume, l) *)
| Dispense (volume : Q) (l : Location)    (* self.dispense(volume, l) *)
| Blow_out (l : Location)                 (* self.blow_out(l) *)
| Touch_tip (l : Location).               (* self.touch_tip(l) *)

(** The inherited [InstrumentContext] methods.  Each returns the pipette
    after the call, or the code of the exception it raises. *)
Record Base : Type := mkBase {
  base_pick_up_tip : Kwargs -> Pipette -> Pipette + nat;
  base_reset_tipracks : Pipette -> Pipette + nat;
  base_drop_tip : Pipette -> Pipette + nat;
  base_aspirate : Q -> Location -> Pipette -> Pipette + nat;
  base_dispense : Q -> Location -> Pipette -> Pipette + nat;
  base_blow_out : Location -> Pipette -> Pipette + nat;
  base_touch_tip : Location -> Pipette -> Pipette + nat
}.

Record World : Type := mkWorld {
  self : Pipette;
  trace : list Event   (* oldest call first *)
}.

(** *** State and exceptions *)

(** A method body: it reads and changes the world and returns or raises.
    What was done before an exception stays done. *)
Definition M (A : Type) : Type := World -> Res A * World.

Definition ret {A : Type} (a : A) : M A := fun w => (Ok a, w).

Definition bind {A B : Type} (m : M A) (k : A -> M B) : M B :=
  fun w => match m w with
           | (Ok a, w') => k a w'
           | (Raise e, w') => (Raise e, w')
           end.

Definition raise {A : Type} (e : exn) : M A := fun w => (Raise e, w).

(** [try: m except <those e with handler e = Some h>: h] *)
Definition try_except {A : Type} (m : M A) (handler : exn -> option (M A)) : M A :=
  fun w => match m w with
           | (Ok a, w') => (Ok a, w')
           | (Raise e, w') =>
               match handler e with
               | Some h => h w'
               | None => (Raise e, w')
               end
           end.

Definition read {A : Type} (f : Pipette -> A) : M A := fun w => (Ok (f (self w)), w).

Definition log (e : Event) (w : World) : World := mkWorld (self w) (trace w ++ [e]).

(** A call of an inherited method (or of [input]): logged, then run. *)
Definition call (e : Event) (f : Pipette -> Pipette + nat) : M unit :=
  fun w => match f (self w) with
           | inl p => (Ok tt, mkWorld p (trace w ++ [e]))
           | inr code => (Raise (BaseError code), log e w)
           end.

Definition input : M unit := fun w => (Ok tt, log Input w).

Declare Scope monad_scope.
Delimit Scope monad_scope with monad.
Notation "x <- m ;; k" := (bind m (fun x => k))
  (at level 61, m at next level, right associativity) : monad_scope.
Notation "m ;; k" := (bind m (fun _ => k))
  (at level 61, right associativity) : monad_scope.
Local Open Scope monad_scope.

(** ** [CustomPipette] *)

(** [isinstance(number, int)], with the integer [number] then stands for
    ([bool] is a subclass of [int]). *)
Definition isinstance_int (number : PyVal) : option Z :=
  match number with
  | PyInt z => Some z
  | PyBool b => Some (if b then 1 else 0)
  | _ => None
  end.

Definition next_tip (number_of_tips : Z) : M (WellRef * Well.t) :=
  fun w => (next_tip_in (tip_racks (self w)) number_of_tips, w).

(** [pick_up_tip(self, number=1, **kwargs)].  Lines 66 to 79 of the script
    compute a pick-up current and a mount point that nothing reads (the call
    that took them is commented out there); they are left out. *)
Definition pick_up_tip (B : Base) (number : PyVal) (kwargs : Kwargs) : M unit :=
  match location kwargs with
  | Some _ => call (Super_pick_up_tip kwargs) (base_pick_up_tip B kwargs)
  | None =>
      chans <- read channels ;;
      match isinstance_int number with
      | None => raise (ValueError_channels number)
      | Some n =>
          if negb ((0 <? n) && (n <=? chans))
          then raise (ValueError_channels number)
          else
            first_try <-
              try_except (t <- next_tip n ;; ret (Some t))
                (fun e => match e with
                          | OutOfTipsError =>
                              Some (input ;;
                                    call Super_reset_tipracks (base_reset_tipracks B) ;;
                                    ret None)
                          | _ => None
                          end) ;;
            target <- match first_try with
                      | Some t => ret t
                      | None => next_tip n
                      end ;;
            let kwargs' := set_location kwargs (TipWell (fst target)) in
            call (Super_pick_up_tip kwargs') (base_pick_up_tip B kwargs')
      end
  end.

Definition get_available_volume : M Q :=
  tip <- read has_tip ;;
  if tip
  then m <- read max_volume ;; c <- read current_volume ;; ret (m - c)%Q
  else next <- next_tip 1 ;;
       m <- read max_volume ;;
       ret (Py.min2 (Well.max_volume (snd next)) m).

Definition get_current_volume : M Q := read current_volume.

Definition times_1_1 (volume : Q) : Q := (volume * (11 # 10))%Q.

(** Lines 125-126: the residual volume goes back to the source. *)
Definition clear_residual (B : Base) (source : Location) : M unit :=
  held <- get_current_volume ;;
  if Py.truthy held
  then v <- get_current_volume ;; call (Dispense v source) (base_dispense B v source)
  else ret tt.

(** Lines 128-131: the aspiration volume and the capacity check. *)
Definition checked_aspiration_volume (volume : Q) (reverse : bool) : M Q :=
  aspiration_volume <-
    (if reverse
     then avail <- get_available_volume ;;
          if Qle_bool (times_1_1 volume) avail
          then ret (times_1_1 volume)
          else ret volume
     else ret volume) ;;
  avail <- get_available_volume ;;
  if negb (Qle_bool aspiration_volume avail)
  then shown <- get_available_volume ;;
       raise (ValueError_volume aspiration_volume shown)
  else ret aspiration_volume.

(** Lines 133-140: aspirate, dispense, the optional blow-out and touch-tip,
    and the volume held at the end. *)
Definition deliver (B : Base) (aspiration_volume despense_volume : Q)
    (source destination : Location) (touch_tip blow_out : bool) : M Q :=
  call (Aspirate aspiration_volume source) (base_aspirate B aspiration_volume source) ;;
  call (Dispense despense_volume destination)
       (base_dispense B despense_volume destination) ;;
  (if blow_out
   then call (Blow_out destination) (base_blow_out B destination)
   else ret tt) ;;
  (if touch_tip
   then call (Touch_tip destination) (base_touch_tip B destination)
   else ret tt) ;;
  get_current_volume.

Definition transfer (B : Base) (volume : Q) (source destination : Location)
    (touch_tip blow_out reverse : bool) : M Q :=
  let despense_volume := volume in
  clear_residual B source ;;
  aspiration_volume <- checked_aspiration_volume volume reverse ;;
  deliver B aspiration_volume despense_volume source destination touch_tip blow_out.

(** ** The induction loop of [run] *)

Definition letters : list ascii := list_ascii_of_string "ABCDEFGH".

(** [next(i for i, x in enumerate(l) if x)], counting from [i];
    [None] for [StopIteration]. *)
Fixpoint first_true (i : nat) (l : list bool) : option nat :=
  match l with
  | [] => None
  | x :: rest => if x then Some i else first_true (S i) rest
  end.

(** [sum(l)] on a list of booleans. *)
Definition py_sum (l : list bool) : Z :=
  fold_left (fun acc (x : bool) => acc + (if x then 1 else 0)) l 0.

(** Lines 231-238: [(start_row, num_tips)] of one column, with the
    [try ... except] around it. *)
Definition plan_column (occupancy : list bool) : nat * Z :=
  match first_true 0 occupancy with
  | Some start_row => (start_row, py_sum occupancy)
  | None => (0%nat, 0)
  end.

(** Lines 240-246: the body of the loop over the planned columns, run on
    the multichannel pipette. *)
Definition induce_column (B : Base) (iptg_volume : Q) (column : Z)
    (plan : nat * Z) (iptg_source : Location) : M unit :=
  let (row, num_tips) := plan in
  if num_tips =? 0
  then ret tt
  else
    pick_up_tip B (PyInt num_tips) no_kwargs ;;
    match nth_error letters row with
    | None => raise IndexError
    | Some letter =>
        let start_point := PlateWell "plate_2" letter column in
        _ <- transfer B iptg_volume iptg_source start_point true false true ;;
        call Drop_tip (base_drop_tip B)
    end.

Fixpoint induce_columns (B : Base) (iptg_volume : Q)
    (plans : list (Z * (nat * Z))) (iptg_source : Location) : M unit :=
  match plans with
  | [] => ret tt
  | (column, plan) :: rest =>
      induce_column B iptg_volume column plan iptg_source ;;
      induce_columns B iptg_volume rest iptg_source
  end.

(** Lines 226-229: the occupancy table, one vector per plate column.  The
    dictionary keeps its keys in insertion order, 1 to 12. *)
Definition empty_occupancy : list (Z * list bool) :=
  map (fun n => (Z.of_nat n, repeat false 12)) (seq 1 12).

Definition digit_of (c : ascii) : option Z :=
  let n := Z.of_nat (nat_of_ascii c) in
  if (48 <=? n) && (n <=? 57) then Some (n - 48) else None.

(** The characters that [int] skips at both ends of a string, among the
    code points below 256: tab to carriage return, the space, U+0085 and
    U+00A0. *)
Definition is_space (c : ascii) : bool :=
  let n := Z.of_nat (nat_of_ascii c) in
  ((9 <=? n) && (n <=? 13)) || (n =? 32) || (n =? 133) || (n =? 160).

Fixpoint skip_spaces (s : string) : string :=
  match s with
  | EmptyString => EmptyString
  | String c rest => if is_space c then skip_spaces rest else s
  end.

Fixpoint all_spaces (s : string) : bool :=
  match s with
  | EmptyString => true
  | String c rest => is_space c && all_spaces rest
  end.

(** What follows the first digit: more digits, where a single underscore
    may stand between two digits, and then whitespace to the end of the
    string.  The result is the value and the number of digits read. *)
Fixpoint digits_value (acc : Z) (count : nat) (s : string) : option (Z * nat) :=
  match s with
  | EmptyString => Some (acc, count)
  | String c rest =>
      match digit_of c with
      | Some d => digits_value (10 * acc + d) (S count) rest
      | None =>
          if Ascii.eqb c "_"
          then match rest with
               | String c' rest' =>
                   match digit_of c' with
                   | Some d => digits_value (10 * acc + d) (S count) rest'
                   | None => None
                   end
               | EmptyString => None
               end
          else if all_spaces s then Some (acc, count) else None
      end
  end.

(** The interpreter's default limit on the digits of a decimal string,
    [sys.int_info.default_max_str_digits]. *)
Definition max_str_digits : nat := 4300.

(** The digits of [int(s)] after the whitespace and the sign. *)
Definition unsigned_int (sign : Z) (s : string) : option Z :=
  match s with
  | EmptyString => None
  | String c rest =>
      match digit_of c with
      | None => None
      | Some d =>
          match digits_value d 1 rest with
          | Some (v, count) =>
              if (count <=? max_str_digits)%nat then Some (sign * v) else None
          | None => None
          end
      end
  end.

(** [int(s)] on a string, whose characters are code points below 256:
    whitespace at both ends is skipped, one sign may come first, and the
    digits may be grouped by single underscores.  [None] stands for
    [ValueError]. *)
Definition py_int (s : string) : option Z :=
  match skip_spaces s with
  | EmptyString => None
  | String c rest =>
      if Ascii.eqb c "+" then unsigned_int 1 rest
      else if Ascii.eqb c "-" then unsigned_int (-1) rest
      else unsigned_int 1 (String c rest)
  end.

(** [letters.index(c)] *)
Fixpoint index_of (c : ascii) (l : list ascii) : option nat :=
  match l with
  | [] => None
  | x :: rest => if Ascii.eqb x c then Some 0%nat else option_map S (index_of c rest)
  end.

(** [l[i] = True] *)
Fixpoint set_true (i : nat) (l : list bool) : option (list bool) :=
  match l, i with
  | [], _ => None
  | _ :: rest, O => Some (true :: rest)
  | x :: rest, S i' => option_map (cons x) (set_true i' rest)
  end.

(** [d[key][i] = True] *)
Fixpoint mark_occupied (key : Z) (i : nat) (d : list (Z * list bool))
    : Res (list (Z * list bool)) :=
  match d with
  | [] => Raise KeyError
  | (k, v) :: rest =>
      if k =? key
      then match set_true i v with
           | Some v' => Ok ((k, v') :: rest)
           | None => Raise IndexError
           end
      else res_map (cons (k, v)) (mark_occupied key i rest)
  end.

(** ** Requests in the words of the specification *)

(** [number] is a positive integer not exceeding the channel count. *)
Definition positive_integer_upto (chans : Z) (number : PyVal) : Prop :=
  match number with
  | PyInt z => 0 < z /\ z <= chans
  | PyBool b => b = true /\ 1 <= chans
  | _ => False
  end.

(** [guarded_aspirate_volume(requested, reverse)] against a headroom. *)
Definition guarded_aspirate_volume (requested : Q) (reverse : bool) (headroom : Q) : Q :=
  if reverse && Qle_bool (requested * (11 # 10)) headroom
  then (requested * (11 # 10))%Q
  else requested.

(** The calls of a transfer, in the order of the specification: the
    residual volume back to the source first, then aspirate, dispense,
    blow-out and touch-tip. *)
Definition clearing_events (held : Q) (source : Location) : list Event :=
  if Py.truthy held then [Dispense held source] else [].

Definition delivery_events (aspiration_volume requested : Q)
    (source destination : Location) (touch_tip blow_out : bool) : list Event :=
  [Aspirate aspiration_volume source; Dispense requested destination]
  ++ (if blow_out then [Blow_out destination] else [])
  ++ (if touch_tip then [Touch_tip destination] else []).

Definition is_aspirate (e : Event) : bool :=
  match e with Aspirate _ _ => true | _ => false end.

(** ** Tip sets and sequences of pick-ups and drops *)

(** The [n] tips taken in one pick-up: a run of rows of one column. *)
Record TipSet : Type := mkTipSet { first_slot : WellRef; tip_count : nat }.

Definition slots (t : TipSet) : list WellRef := run_slots (first_slot t) (tip_count t).

Definition overlap (a b : TipSet) : Prop :=
  exists s, In s (slots a) /\ In s (slots b).

(** The well the last logged call picked up from. *)
Definition picked (events : list Event) : option WellRef :=
  match last events Input with
  | Super_pick_up_tip kwargs =>
      match location kwargs with
      | Some (TipWell ref) => Some ref
      | _ => None
      end
  | _ => None
  end.

Definition is_input (e : Event) : bool :=
  match e with Input => true | _ => false end.

(** The calls logged between world [w] and a later world [w']. *)
Definition new_events (w w' : World) : list Event :=
  skipn (length (trace w)) (trace w').

Definition prompts (w w' : World) : nat :=
  length (filter is_input (new_events w w')).

(** What one pipette does over a protocol: pick up [number] tips with a
    plain [pick_up_tip(number)], or drop them. *)
Inductive Op : Type :=
| Acquire (number : Z)
| Release.

(** The world together with the bookkeeping the statements are about: the
    tip sets the pipette holds now, and all tip sets handed out since the
    racks were last replaced. *)
Record Ledger : Type := mkLedger {
  world : World;
  live : list TipSet;
  issued : list TipSet
}.

(** One operation of a valid sequence.  A pipette picks up tips only while
    it holds none (one tip set per pick-up/drop cycle); an operation that
    raises ends the sequence ([None]). *)
Definition step (B : Base) (op : Op) (L : Ledger) : option Ledger :=
  match op with
  | Acquire number =>
      match live L with
      | _ :: _ => None
      | [] =>
          match pick_up_tip B (PyInt number) no_kwargs (world L) with
          | (Ok _, w') =>
              match picked (trace w') with
              | Some ref =>
                  let t := mkTipSet ref (Z.to_nat number) in
                  Some (mkLedger w' [t]
                          (t :: match prompts (world L) w' with
                                | O => issued L
                                | S _ => []
                                end))
              | None => None
              end
          | (Raise _, _) => None
          end
      end
  | Release =>
      match call Drop_tip (base_drop_tip B) (world L) with
      | (Ok _, w') => Some (mkLedger w' [] (issued L))
      | (Raise _, _) => None
      end
  end.

Inductive reachable (B : Base) (L0 : Ledger) : Ledger -> Prop :=
| reach_start : reachable B L0 L0
| reach_step (L L' : Ledger) (op : Op) :
    reachable B L0 L -> step B op L = Some L' -> reachable B L0 L'.

(** A whole sequence, from the left. *)
Fixpoint run_ops (B : Base) (ops : list Op) (L : Ledger) : option Ledger :=
  match ops with
  | [] => Some L
  | op :: rest =>
      match step B op L with
      | Some L' => run_ops B rest L'
      | None => None
      end
  end.

Definition racks_of (L : Ledger) : list Labware := tip_racks (self (world L)).

(** No two tip sets of the list share a slot. *)
Definition disjoint_all (ts : list TipSet) : Prop :=
  ForallOrdPairs (fun a b => ~ overlap a b) ts.

(** The bookkeeping agrees with the racks: every slot handed out since the
    last replacement reports no tip, no slot was handed out twice, and what
    the pipette holds was handed out. *)
Definition ledger_ok (L : Ledger) : Prop :=
  eight_rows (racks_of L) /\
  (forall t s, In t (issued L) -> In s (slots t) -> available (racks_of L) s = false) /\
  disjoint_all (issued L) /\
  (forall t, In t (live L) -> In t (issued L)) /\
  (length (live L) <= 1)%nat.

(** ** What the statements assume of the inherited methods *)

(** A rack with every slot full again. *)
Definition fill (w : Well.t) : Well.t := Well.mk true (Well.max_volume w).
Definition refill (racks : list Labware) : list Labware := map (map (map fill)) racks.

Definition same_shape (racks racks' : list Labware) : Prop :=
  map (map (@length Well.t)) racks' = map (map (@length Well.t)) racks.

(** Picking up at a well of a tip rack takes the tips under the nozzles:
    the slots from that well down the column, one per channel, report no
    tip afterwards, and no slot gains a tip. *)
Definition pick_up_marks (B : Base) : Prop :=
  forall kwargs ref p p',
    location kwargs = Some (TipWell ref) ->
    base_pick_up_tip B kwargs p = inl p' ->
    same_shape (tip_racks p) (tip_racks p') /\
    (forall s, available (tip_racks p') s = true -> available (tip_racks p) s = true) /\
    (forall j, Z.of_nat j < channels p ->
       available (tip_racks p') (mkRef (rack_ix ref) (col_ix ref) (row_ix ref + j)) = false).

(** [reset_tipracks] marks every slot of every rack of the pipette full. *)
Definition reset_refills (B : Base) : Prop :=
  forall p p',
    base_reset_tipracks B p = inl p' ->
    channels p' = channels p /\ tip_racks p' = refill (tip_racks p).

(** Dropping tips does not touch the racks. *)
Definition drop_keeps_racks (B : Base) : Prop :=
  forall p p', base_drop_tip B p = inl p' -> tip_racks p' = tip_racks p.

(** The held volume follows the liquid moved. *)
Definition volume_tracked (B : Base) : Prop :=
  (forall v l p p', base_aspirate B v l p = inl p' ->
     (current_volume p' == current_volume p + v)%Q) /\
  (forall v l p p', base_dispense B v l p = inl p' ->
     (current_volume p' == current_volume p - v)%Q) /\
  (forall l p p', base_blow_out B l p = inl p' -> (current_volume p' == 0)%Q) /\
  (forall l p p', base_touch_tip B l p = inl p' ->
     (current_volume p' == current_volume p)%Q).

(** ** A reference driver

    A small instance of [Base] that meets the laws above; the concrete runs
    below use it. *)
Module Ot2.

Fixpoint imap {A B : Type} (f : nat -> A -> B) (i : nat) (l : list A) : list B :=
  match l with
  | [] => []
  | x :: rest => f i x :: imap f (S i) rest
  end.

Definition map_wells (f : WellRef -> Well.t -> Well.t) (racks : list Labware)
    : list Labware :=
  imap (fun r => imap (fun c => imap (fun w => f (mkRef r c w)) 0) 0) 0 racks.

Definition take (w : Well.t) : Well.t := Well.mk false (Well.max_volume w).

Definition under_nozzles (ref : WellRef) (chans : Z) (s : WellRef) : bool :=
  Nat.eqb (rack_ix s) (rack_ix ref) && Nat.eqb (col_ix s) (col_ix ref) &&
  Nat.leb (row_ix ref) (row_ix s) &&
  (Z.of_nat (row_ix s) <? Z.of_nat (row_ix ref) + chans).

Definition use_tips (ref : WellRef) (chans : Z) (racks : list Labware)
    : list Labware :=
  map_wells (fun s w => if under_nozzles ref chans s then take w else w) racks.

Definition with_racks (p : Pipette) (racks : list Labware) : Pipette :=
  mkPipette (channels p) racks (has_tip p) (max_volume p) (current_volume p).

Definition with_tip (p : Pipette) (b : bool) : Pipette :=
  mkPipette (channels p) (tip_racks p) b (max_volume p) (current_volume p).

Definition with_volume (p : Pipette) (v : Q) : Pipette :=
  mkPipette (channels p) (tip_racks p) (has_tip p) (max_volume p) v.

Definition pick_up (kwargs : Kwargs) (p : Pipette) : Pipette + nat :=
  match location kwargs with
  | Some (TipWell ref) =>
      if has_tip p then inr 1%nat
      else inl (with_tip (with_racks p (use_tips ref (channels p) (tip_racks p))) true)
  | _ => inr 2%nat
  end.

Definition reset (p : Pipette) : Pipette + nat :=
  inl (with_racks p (refill (tip_racks p))).

Definition drop (p : Pipette) : Pipette + nat :=
  if has_tip p then inl (with_volume (with_tip p false) 0) else inr 3%nat.

Definition aspirate (v : Q) (_ : Location) (p : Pipette) : Pipette + nat :=
  if has_tip p then inl (with_volume p (current_volume p + v)%Q) else inr 4%nat.

Definition dispense (v : Q) (_ : Location) (p : Pipette) : Pipette + nat :=
  if has_tip p then inl (with_volume p (current_volume p - v)%Q) else inr 5%nat.

Definition blow_out (_ : Location) (p : Pipette) : Pipette + nat :=
  inl (with_volume p 0).

Definition touch_tip (_ : Location) (p : Pipette) : Pipette + nat := inl p.

Definition base : Base :=
  mkBase pick_up reset drop aspirate dispense blow_out touch_tip.

(** A full 96-format rack of [cols] columns with tips of capacity [v]. *)
Definition full_rack (cols : nat) (v : Q) : Labware :=
  repeat (repeat (Well.mk true v) 8) cols.

Definition empty_rack (cols : nat) (v : Q) : Labware :=
  repeat (repeat (Well.mk false v) 8) cols.

Definition fresh (chans : Z) (racks : list Labware) (v : Q) : World :=
  mkWorld (mkPipette chans racks false v 0) [].

End Ot2.

(** ** Reading a trace *)

(** The calls that move liquid. *)
Definition is_liquid (e : Event) : bool :=
  match e with
  | Aspirate _ _ | Dispense _ _ | Blow_out _ | Touch_tip _ => true
  | _ => false
  end.

Definition is_pick_up (e : Event) : bool :=
  match e with Super_pick_up_tip _ => true | _ => false end.

(** Whether tips are on the pipette after [events], starting with
    ([holding = true]) or without tips; [None] when the calls do not fit:
    a pick-up while tips are on, a drop or a liquid call without tips, a
    prompt or a rack reset while tips are on. *)
Fixpoint tips_after (holding : bool) (events : list Event) : option bool :=
  match events with
  | [] => Some holding
  | e :: rest =>
      match e, holding with
      | Super_pick_up_tip _, false => tips_after true rest
      | Drop_tip, true => tips_after false rest
      | Aspirate _ _, true | Dispense _ _, true
      | Blow_out _, true | Touch_tip _, true => tips_after true rest
      | Input, false | Super_reset_tipracks, false => tips_after false rest
      | _, _ => None
      end
  end.

Definition is_drop (e : Event) : bool :=
  match e with Drop_tip => true | _ => false end.

(** ** The occupancy table, exception by exception *)

(** [s[1:]] *)
Definition string_tail (s : string) : string :=
  match s with
  | EmptyString => EmptyString
  | String _ t => t
  end.

(** [key in d] *)
Definition has_column (key : Z) (d : list (Z * list bool)) : bool :=
  existsb (fun kv => fst kv =? key) d.

(** Line 229,
    [column_occupancy[int(location[1:])][letters.index(location[0])] = True],
    in the order Python evaluates it: first [int(location[1:])], then the
    dictionary lookup, then [location[0]] and [letters.index], then the
    store into the list. *)
Definition mark_location (location : string) (d : list (Z * list bool))
    : Res (list (Z * list bool)) :=
  match py_int (string_tail location) with
  | None => Raise ValueError_parse
  | Some key =>
      if has_column key d
      then match location with
           | EmptyString => Raise IndexError
           | String c _ =>
               match index_of c letters with
               | None => Raise ValueError_parse
               | Some i => mark_occupied key i d
               end
           end
      else Raise KeyError
  end.

(** Lines 228-229, the loop over the target wells. *)
Fixpoint occupancy_table (locations : list string) (d : list (Z * list bool))
    : Res (list (Z * list bool)) :=
  match locations with
  | [] => Ok d
  | location :: rest =>
      match mark_location location d with
      | Ok d' => occupancy_table rest d'
      | Raise e => Raise e
      end
  end.

(** Lines 226-246 for one target well set and its liquid source. *)
Definition induction_pass (B : Base) (iptg_volume : Q) (locations : list string)
    (iptg_source : Location) : M unit :=
  match occupancy_table locations empty_occupancy with
  | Raise e => raise e
  | Ok d =>
      induce_columns B iptg_volume
        (map (fun kv => (fst kv, plan_column (snd kv))) d) iptg_source
  end.

(** [d[key][i]], [false] where there is no such entry. *)
Definition occupied (d : list (Z * list bool)) (key : Z) (i : nat) : bool :=
  match find (fun kv => fst kv =? key) d with
  | Some kv => nth i (snd kv) false
  | None => false
  end.

(** A well name read as a letter of [letters] followed by decimal digits:
    the column number and the row index. *)
Definition parse_location (location : string) : option (Z * nat) :=
  match location with
  | EmptyString => None
  | String c tail =>
      match py_int tail, index_of c letters with
      | Some key, Some i => Some (key, i)
      | _, _ => None
      end
  end.

(** A well of the 96-well plate: rows A to H, columns 1 to 12. *)
Definition plate_well (location : string) : Prop :=
  exists key i, parse_location location = Some (key, i) /\ 1 <= key <= 12.

(** ** The induction schedule in the words of the specification *)

(** Row [i] of plate column [column] is occupied by the target well set. *)
Definition row_occupied (locations : list string) (column : Z) (i : nat) : bool :=
  existsb (fun loc =>
             match parse_location loc with
             | Some (key, j) => (key =? column) && Nat.eqb j i
             | None => false
             end) locations.

(** The occupancy vector of a plate column, rows A to H. *)
Definition column_vector (locations : list string) (column : Z) : list bool :=
  map (row_occupied locations column) (seq 0 8).

(** No schedule for a column without an occupied row; otherwise the index
    of the first occupied row and the count of the occupied rows. *)
Definition schedule (vector : list bool) : option (nat * Z) :=
  match find (fun i => nth i vector false) (seq 0 (length vector)) with
  | None => None
  | Some start_row => Some (start_row, Z.of_nat (count_occ bool_dec vector true))
  end.

(** A column without a schedule is skipped; a scheduled column gets one
    acquire of [tip_count] tips, one transfer into the well of row
    [start_row], and the release of the tips. *)
Definition scheduled_column (B : Base) (iptg_volume : Q) (locations : list string)
    (iptg_source : Location) (column : Z) : M unit :=
  match schedule (column_vector locations column) with
  | None => ret tt
  | Some (start_row, tip_count) =>
      pick_up_tip B (PyInt tip_count) no_kwargs ;;
      _ <- transfer B iptg_volume iptg_source
             (PlateWell "plate_2" (nth start_row letters "A"%char) column)
             true false true ;;
      call Drop_tip (base_drop_tip B)
  end.

(** The columns of the plate, one after the other. *)
Fixpoint scheduled_columns (B : Base) (iptg_volume : Q) (locations : list string)
    (iptg_source : Location) (columns : list Z) : M unit :=
  match columns with
  | [] => ret tt
  | column :: rest =>
      scheduled_column B iptg_volume locations iptg_source column ;;
      scheduled_columns B iptg_volume locations iptg_source rest
  end.

Definition plate_columns : list Z := [1; 2; 3; 4; 5; 6; 7; 8; 9; 10; 11; 12].

(** ** The two pipettes of [run] *)

(** [p300] is loaded on the left mount, [p20] on the right one. *)
Inductive Mount : Type := Left | Right.

Definition mount_eqb (a b : Mount) : bool :=
  match a, b with
  | Left, Left | Right, Right => true
  | _, _ => false
  end.

(** Both pipettes and, in one journal, the calls of both in the order they
    were made. *)
Record Robot : Type := mkRobot {
  p300 : Pipette;
  p20 : Pipette;
  journal : list (Mount * Event)
}.

Definition R (A : Type) : Type := Robot -> Res A * Robot.

Definition rret {A : Type} (a : A) : R A := fun r => (Ok a, r).

Definition rbind {A C : Type} (m : R A) (k : A -> R C) : R C :=
  fun r => match m r with
           | (Ok a, r') => k a r'
           | (Raise e, r') => (Raise e, r')
           end.

Definition pipette_at (m : Mount) (r : Robot) : Pipette :=
  match m with Left => p300 r | Right => p20 r end.

(** A method of the pipette on mount [m]: it runs on that pipette, and its
    calls go to the journal under that mount. *)
Definition on {A : Type} (m : Mount) (act : M A) : R A :=
  fun r =>
    let (res, w') := act (mkWorld (pipette_at m r) []) in
    (res,
     match m with
     | Left => mkRobot (self w') (p20 r) (journal r ++ map (pair Left) (trace w'))
     | Right => mkRobot (p300 r) (self w') (journal r ++ map (pair Right) (trace w'))
     end).

(** The calls of the pipette on mount [m] among journal entries. *)
Definition events_of (m : Mount) (entries : list (Mount * Event)) : list Event :=
  map snd (filter (fun me => mount_eqb (fst me) m) entries).

(** The journal entries added between robot [r] and a later robot [r']. *)
Definition new_entries (r r' : Robot) : list (Mount * Event) :=
  skipn (length (journal r)) (journal r').

Declare Scope robot_scope.
Delimit Scope robot_scope with robot.
Notation "x <- m ;; k" := (rbind m (fun x => k))
  (at level 61, m at next level, right associativity) : robot_scope.
Notation "m ;; k" := (rbind m (fun _ => k))
  (at level 61, right associativity) : robot_scope.

(** ** The filling and the cell phase of [run] *)

(** One item of [final_positions]: the key, and of its value the source
    well or ["blank"] (index 0), the cell volume (index 3) and the LB
    volume (index 4).  The two names at indices 1 and 2 are not read by
    [run]. *)
Record Position : Type := mkPosition {
  destination : string;
  source_well : string;
  cell_volume : Q;
  lb_volume : Q
}.

Definition lb_location : Location := Reservoir "A1" 5.
Definition iptg_location : Location := Reservoir "A3" 5.

Definition column_names : list (string * Z) :=
  [("1", 1); ("2", 2); ("3", 3); ("4", 4); ("5", 5); ("6", 6);
   ("7", 7); ("8", 8); ("9", 9); ("10", 10); ("11", 11); ("12", 12)]%string.

(** [plate[name]] on a 96-well plate: the wells are named A1 to H12, any
    other name is a [KeyError]. *)
Definition plate_lookup (plate name : string) : Res Location :=
  match name with
  | EmptyString => Raise KeyError
  | String c tail =>
      match index_of c letters,
            find (fun p => String.eqb (fst p) tail) column_names with
      | Some _, Some p => Ok (PlateWell plate c (snd p))
      | _, _ => Raise KeyError
      end
  end.

Definition lift_res {A : Type} (res : Res A) : M A := fun w => (res, w).

(** Lines 193-194: the loop over [lb_instructions]. *)
Fixpoint lb_transfers (B : Base) (positions : list Position) : M unit :=
  match positions with
  | [] => ret tt
  | pos :: rest =>
      (dest <- lift_res (plate_lookup "plate_2" (destination pos)) ;;
       _ <- transfer B (lb_volume pos) lb_location dest true false true ;;
       lb_transfers B rest)%monad
  end.

(** Lines 192-195: one tip for all the LB. *)
Definition lb_phase (B : Base) (positions : list Position) : R unit :=
  on Left (pick_up_tip B (PyInt 1) no_kwargs ;;
           lb_transfers B positions ;;
           call Drop_tip (base_drop_tip B))%monad.

(** Lines 206-214: pick-up, transfer and drop for one culture. *)
Definition cell_transfer (B : Base) (pos : Position) : M unit :=
  (pick_up_tip B (PyInt 1) no_kwargs ;;
   source <- lift_res (plate_lookup "plate_1" (source_well pos)) ;;
   dest <- lift_res (plate_lookup "plate_2" (destination pos)) ;;
   _ <- transfer B (cell_volume pos) source dest true false true ;;
   call Drop_tip (base_drop_tip B))%monad.

(** [p300 if cell_volume > 10 else p20] *)
Definition cell_pipette (pos : Position) : Mount :=
  if negb (Qle_bool (cell_volume pos) 10) then Left else Right.

(** Lines 198-214: one round of the loop over [cell_instructions]. *)
Definition cell_step (B : Base) (pos : Position) : R unit :=
  if String.eqb (source_well pos) "blank"
  then rret tt
  else on (cell_pipette pos) (cell_transfer B pos).

Fixpoint cell_phase (B : Base) (positions : list Position) : R unit :=
  match positions with
  | [] => rret tt
  | pos :: rest => (cell_step B pos ;; cell_phase B rest)%robot
  end.

(** Lines 217-246: the two induction passes, the wells listed in
    [induced_wells] with IPTG and all the others with LB, both on [p20]. *)
Definition induction_phase (B : Base) (iptg_volume : Q) (positions : list Position)
    (induced_wells : list string) : R unit :=
  let keys := map destination positions in
  let induced_locations :=
    filter (fun x => existsb (String.eqb x) induced_wells) keys in
  let uninduced_locations :=
    filter (fun x => negb (existsb (String.eqb x) induced_wells)) keys in
  (on Right (induction_pass B iptg_volume induced_locations iptg_location) ;;
   on Right (induction_pass B iptg_volume uninduced_locations lb_location))%robot.

(** The pipetting of [run], lines 191-246.  Homing, the loading of labware
    and liquids and the comments do not touch the pipettes and are left
    out. *)
Definition run_pipetting (B : Base) (iptg_volume : Q) (positions : list Position)
    (induced_wells : list string) : R unit :=
  (lb_phase B positions ;;
   cell_phase B positions ;;
   induction_phase B iptg_volume positions induced_wells)%robot.

(** Between [r] and [r'] each pipette has dropped the tips it picked up. *)
Definition tips_returned (r r' : Robot) : Prop :=
  forall m, tips_after false (events_of m (new_entries r r')) = Some false.

Definition other_mount (m : Mount) : Mount :=
  match m with Left => Right | Right => Left end.

(** * The protocol generator, [generate_protocol.py] *)

(** [generate_protocol.py] writes the data that [run] reads:
    [final_positions], [induced_wells] and [uninduced_wells].  Its
    functions [assign_wells] and [apply_values] are embedded here.
    - A [dict] with string keys is a list of pairs in insertion order; a
      Python dict holds a key once, which statements assume of their inputs
      as [NoDup] of the keys.
    - [random.choice] belongs to Python's library: the generator state is a
      type [G] and the draw of an index below [n] a function [randbelow],
      both parameters of the embedding.
    - The exceptions of an interrupted call leave the dicts partly updated;
      the script ends there, and the embedding returns the exception
      only. *)

Module Generate.

Local Open Scope nat_scope.

(** [iptg_volume = 9.5] *)
Definition iptg_volume : Q := 19 # 2.

Abbreviation Dict V := (list (string * V)).

(** [d.get(key)] *)
Fixpoint dict_get {V : Type} (key : string) (d : Dict V) : option V :=
  match d with
  | [] => None
  | (k, v) :: rest => if String.eqb k key then Some v else dict_get key rest
  end.

(** [d[key] = value]: a key that is present keeps its place. *)
Fixpoint dict_set {V : Type} (key : string) (value : V) (d : Dict V) : Dict V :=
  match d with
  | [] => [(key, value)]
  | (k, v) :: rest =>
      if String.eqb k key then (k, value) :: rest else (k, v) :: dict_set key value rest
  end.

(** The items of the lists held in [final_positions] and [cell_volumes]:
    well and part names, and volumes. *)
Inductive Item : Type :=
| Str (s : string)
| Num (q : Q).

(** A value of [cell_locations]: [[CDS, RBS, isInduced]]. *)
Record Culture : Type := mkCulture {
  cds : string;
  rbs : string;
  is_induced : bool
}.

Definition valid_rows : list string := ["B"; "C"; "D"; "E"; "F"; "G"]%string.

Definition valid_columns : list string :=
  ["2"; "3"; "4"; "5"; "6"; "7"; "8"; "9"; "10"; "11"]%string.

(** [[f"{row}{column}" for column in valid_columns for row in valid_rows]] *)
Definition valid_wells : list string :=
  flat_map (fun column => map (fun row => (row ++ column)%string) valid_rows)
           valid_columns.

(** [sum([True if x[2] else False for x in cell_locations.values()])] *)
Definition num_induced_wells (cell_locations : Dict Culture) : nat :=
  length (filter is_induced (map snd cell_locations)).

(** [[well for well in cell_locations if cell_locations[well][0] != "blank"]] *)
Definition wells_with_cells (cell_locations : Dict Culture) : list string :=
  filter (fun well =>
            match dict_get well cell_locations with
            | Some c => negb (String.eqb (cds c) "blank")
            | None => false
            end)
         (map fst cell_locations).

(** [random.choice(seq)]: [IndexError] on an empty sequence, otherwise
    [seq[randbelow(len(seq))]]. *)
Definition choice {G : Type} (randbelow : nat -> G -> nat * G) (seq : list string)
    (g : G) : Res string * G :=
  match seq with
  | [] => (Raise IndexError, g)
  | _ :: _ =>
      let (i, g') := randbelow (length seq) g in
      match nth_error seq i with
      | Some x => (Ok x, g')
      | None => (Raise IndexError, g')
      end
  end.

(** [l.index(x)] *)
Fixpoint list_index (x : string) (l : list string) : option nat :=
  match l with
  | [] => None
  | y :: rest => if String.eqb y x then Some 0 else option_map S (list_index x rest)
  end.

(** [del l[i]] for an index within the list. *)
Fixpoint delete_at (i : nat) (l : list string) : list string :=
  match l, i with
  | [], _ => []
  | _ :: rest, 0 => rest
  | y :: rest, S i' => y :: delete_at i' rest
  end.

(** The three variables of [assign_wells] that its loop updates, and that
    it returns. *)
Record Assignment : Type := mkAssignment {
  induced_wells : list string;
  uninduced_wells : list string;
  final_positions : Dict (list Item)
}.

(** The value stored for a culture, [[well, CDS, RBS]]. *)
Definition entry_of (well : string) (c : Culture) : list Item :=
  [Str well; Str (cds c); Str (rbs c)].

(** Lines 113-126, one round of the loop over [wells_with_cells].
    [tgt_wells] is an alias of one of the two well lists, so that the [del]
    shortens that list. *)
Definition place_culture {G : Type} (randbelow : nat -> G -> nat * G)
    (cell_locations : Dict Culture) (well : string) (st : Assignment) (g : G)
    : Res Assignment * G :=
  match dict_get well cell_locations with
  | None => (Raise KeyError, g)
  | Some c =>
      let tgt_wells := if is_induced c then induced_wells st else uninduced_wells st in
      match choice randbelow tgt_wells g with
      | (Raise e, g') => (Raise e, g')
      | (Ok position_1, g') =>
          match list_index position_1 tgt_wells with
          | None => (Raise ValueError_parse, g')
          | Some position_1_index =>
              let tgt_wells' := delete_at position_1_index tgt_wells in
              let final_positions' :=
                dict_set position_1 (entry_of well c) (final_positions st) in
              (Ok (if is_induced c
                   then mkAssignment tgt_wells' (uninduced_wells st) final_positions'
                   else mkAssignment (induced_wells st) tgt_wells' final_positions'),
               g')
          end
      end
  end.

(** Lines 112-126 *)
Fixpoint place_cultures {G : Type} (randbelow : nat -> G -> nat * G)
    (cell_locations : Dict Culture) (wells : list string) (st : Assignment) (g : G)
    : Res Assignment * G :=
  match wells with
  | [] => (Ok st, g)
  | well :: rest =>
      match place_culture randbelow cell_locations well st g with
      | (Ok st', g') => place_cultures randbelow cell_locations rest st' g'
      | (Raise e, g') => (Raise e, g')
      end
  end.

Definition blank_entry : list Item := [Str "blank"; Str "blank"; Str "blank"].

(** Lines 130-131,
    [final_positions[well] = final_positions.get(well, ["blank", "blank", "blank"])] *)
Fixpoint fill_blanks (wells : list string) (d : Dict (list Item)) : Dict (list Item) :=
  match wells with
  | [] => d
  | well :: rest =>
      fill_blanks rest
        (dict_set well
           (match dict_get well d with Some v => v | None => blank_entry end) d)
  end.

(** Lines 97-136.  The two well lists that are returned are sliced from
    [valid_wells] once more at the end. *)
Definition assign_wells {G : Type} (randbelow : nat -> G -> nat * G)
    (cell_locations : Dict Culture) (g : G) : Res Assignment * G :=
  let n := num_induced_wells cell_locations in
  match place_cultures randbelow cell_locations (wells_with_cells cell_locations)
          (mkAssignment (firstn n valid_wells) (skipn n valid_wells) []) g with
  | (Raise e, g') => (Raise e, g')
  | (Ok st, g') =>
      (Ok (mkAssignment (firstn n valid_wells) (skipn n valid_wells)
             (fill_blanks valid_wells (final_positions st))), g')
  end.

(** Lines 258-264: the two items that are appended to a value of
    [final_positions].  A source that is not a string is no key of
    [cell_volumes], whose keys are well names. *)
Definition appended (cell_volumes : Dict (list Item)) (lb_volumes : Dict Item)
    (value : list Item) : Res (list Item) :=
  match nth_error value 0 with
  | None => Raise IndexError
  | Some (Num _) => Raise KeyError
  | Some (Str source_well) =>
      if String.eqb source_well "blank"
      then Ok [Num 0; Num (200 - iptg_volume)]
      else
        match dict_get source_well cell_volumes with
        | None => Raise KeyError
        | Some volumes =>
            match nth_error volumes 1 with
            | None => Raise IndexError
            | Some cell_volume =>
                match dict_get source_well lb_volumes with
                | None => Raise KeyError
                | Some lb_volume => Ok [cell_volume; lb_volume]
                end
            end
        end
  end.

(** One round of the loop of [apply_values]: the list stored under [well]
    grows by the two items. *)
Definition apply_value (cell_volumes : Dict (list Item)) (lb_volumes : Dict Item)
    (well : string) (d : Dict (list Item)) : Res (Dict (list Item)) :=
  match dict_get well d with
  | None => Raise KeyError
  | Some value =>
      match appended cell_volumes lb_volumes value with
      | Ok items => Ok (dict_set well (value ++ items) d)
      | Raise e => Raise e
      end
  end.

Fixpoint apply_values_loop (cell_volumes : Dict (list Item)) (lb_volumes : Dict Item)
    (wells : list string) (d : Dict (list Item)) : Res (Dict (list Item)) :=
  match wells with
  | [] => Ok d
  | well :: rest =>
      match apply_value cell_volumes lb_volumes well d with
      | Ok d' => apply_values_loop cell_volumes lb_volumes rest d'
      | Raise e => Raise e
      end
  end.

(** Lines 256-266 *)
Definition apply_values (final_positions : Dict (list Item))
    (cell_volumes : Dict (list Item)) (lb_volumes : Dict Item)
    : Res (Dict (list Item)) :=
  apply_values_loop cell_volumes lb_volumes (map fst final_positions) final_positions.

(** Lines 285-287 of the script, for the two dicts that [normalize_values]
    returns. *)
Definition generate {G : Type} (randbelow : nat -> G -> nat * G)
    (cell_locations : Dict Culture) (cell_volumes : Dict (list Item))
    (lb_volumes : Dict Item) (g : G) : Res Assignment * G :=
  match assign_wells randbelow cell_locations g with
  | (Raise e, g') => (Raise e, g')
  | (Ok a, g') =>
      (match apply_values (final_positions a) cell_volumes lb_volumes with
       | Ok d => Ok (mkAssignment (induced_wells a) (uninduced_wells a) d)
       | Raise e => Raise e
       end, g')
  end.

(** What is asked of the library's generator: a draw below a positive [n]
    is an index less than [n]. *)
Definition randbelow_in_range {G : Type} (randbelow : nat -> G -> nat * G) : Prop :=
  forall n g, 0 < n -> fst (randbelow n g) < n.

(** A generator to run the definitions with: the state is a counter. *)
Definition counter_randbelow (n : nat) (g : nat) : nat * nat :=
  ((7 * g + 3) mod n, S g).

(** Every value extended by its two items, entry by entry. *)
Fixpoint extend_all (cell_volumes : Dict (list Item)) (lb_volumes : Dict Item)
    (d : Dict (list Item)) : Res (Dict (list Item)) :=
  match d with
  | [] => Ok []
  | (well, value) :: rest =>
      match appended cell_volumes lb_volumes value with
      | Raise e => Raise e
      | Ok items =>
          match extend_all cell_volumes lb_volumes rest with
          | Ok rest' => Ok ((well, value ++ items) :: rest')
          | Raise e => Raise e
          end
      end
  end.

(** The entries of [cell_locations] that are not blanks. *)
Definition cultures (cell_locations : Dict Culture) : Dict Culture :=
  filter (fun kv => negb (String.eqb (cds (snd kv)) "blank")) cell_locations.

End Generate.

(** Lines 184-187 of [run]: of each item of [final_positions] the key,
    [value[0]], [value[3]] and [value[4]], for a value that holds a name at
    index 0 and numbers at indices 3 and 4. *)
Definition read_position (item : string * list Generate.Item) : option Position :=
  match nth_error (snd item) 4, nth_error (snd item) 3, nth_error (snd item) 0 with
  | Some (Generate.Num lb), Some (Generate.Num cell), Some (Generate.Str source) =>
      Some (mkPosition (fst item) source cell lb)
  | _, _, _ => None
  end.

Fixpoint read_positions (final_positions : list (string * list Generate.Item))
    : option (list Position) :=
  match final_positions with
  | [] => Some []
  | item :: rest =>
      match read_position item, read_positions rest with
      | Some pos, Some positions => Some (pos :: positions)
      | _, _ => None
      end
  end.

(** * Theorems *)

(** ** Auxiliary facts on lists *)

Lemma find_app_first {A : Type} (p : A -> bool) (l1 l2 : list A) :
  find p (l1 ++ l2) = match find p l1 with Some x => Some x | None => find p l2 end.
Proof.
  induction l1 as [|x l1 IH]; simpl; [reflexivity|].
  destruct (p x); [reflexivity | exact IH].
Qed.

Lemma find_map_comp {A B : Type} (p : B -> bool) (f : A -> B) (l : list A) :
  find p (map f l) = option_map f (find (fun a => p (f a)) l).
Proof.
  induction l as [|x l IH]; simpl; [reflexivity|].
  destruct (p (f x)); [reflexivity | exact IH].
Qed.

Lemma find_ext_in {A : Type} (p q : A -> bool) (l : list A) :
  (forall a, In a l -> p a = q a) -> find p l = find q l.
Proof.
  induction l as [|x l IH]; simpl; intros H; [reflexivity|].
  rewrite (H x (or_introl eq_refl)).
  destruct (q x); [reflexivity|]. apply IH. intros a Ha. apply H. now right.
Qed.

Lemma forallb_map_comp {A B : Type} (p : B -> bool) (f : A -> B) (l : list A) :
  forallb p (map f l) = forallb (fun a => p (f a)) l.
Proof. induction l as [|x l IH]; simpl; [reflexivity | now rewrite IH]. Qed.

Lemma forallb_ext_all {A : Type} (p q : A -> bool) (l : list A) :
  (forall a, p a = q a) -> forallb p l = forallb q l.
Proof. intros H. induction l as [|x l IH]; simpl; [reflexivity | now rewrite H, IH]. Qed.

(** ** The tip search *)

Lemma starts_run_column racks r c rack column n w :
  nth_error racks r = Some rack ->
  nth_error rack c = Some column ->
  starts_run racks n (mkRef r c w) = column_starts_run column n w.
Proof.
  intros Hr Hc. unfold starts_run, column_starts_run, run_slots.
  cbn [rack_ix col_ix row_ix].
  f_equal. rewrite forallb_map_comp. apply forallb_ext_all. intros j.
  unfold available, lookup_well. cbn [rack_ix col_ix row_ix].
  now rewrite Hr, Hc.
Qed.

Lemma count_cases (n : Z) :
  1 <= n <= 8 ->
  n = 1 \/ n = 2 \/ n = 3 \/ n = 4 \/ n = 5 \/ n = 6 \/ n = 7 \/ n = 8.
Proof. lia. Qed.

Lemma scan_rows_eight (column : Column) (n : Z) :
  length column = 8%nat -> 1 <= n <= 8 ->
  scan_rows column (map Well.has_tip column) n (seq 0 8) =
  Ok (option_map (fun w => (w, nth w column default_well))
        (find (column_starts_run column (Z.to_nat n)) rows_bottom_up)).
Proof.
  intros Hlen Hn.
  do 9 (destruct column as [|[] column]; try discriminate Hlen).
  clear Hlen.
  destruct (count_cases n Hn) as [->|[->|[->|[->|[->|[->|[->| ->]]]]]]];
    vm_compute;
    repeat match goal with
           | |- context [match ?b with true => _ | false => _ end] =>
               is_var b; destruct b
           end; reflexivity.
Qed.

Lemma nth_error_middle {A : Type} (pre : list A) (x : A) (post : list A) :
  nth_error (pre ++ x :: post) (length pre) = Some x.
Proof. induction pre as [|y pre IH]; simpl; [reflexivity | exact IH]. Qed.

Lemma nth_of_nth_error {A : Type} (l : list A) (i : nat) (x d : A) :
  nth_error l i = Some x -> nth i l d = x.
Proof.
  revert i. induction l as [|y l IH]; intros [|i]; simpl; try discriminate.
  - now intros [= ->].
  - apply IH.
Qed.

Lemma scan_columns_spec (racks : list Labware) (r : nat) (rack : Labware) (n : Z) :
  nth_error racks r = Some rack ->
  Forall (fun column : Column => length column = 8%nat) rack ->
  1 <= n <= 8 ->
  forall cpre columns, rack = cpre ++ columns ->
  scan_columns (map (map Well.has_tip) rack) n (length cpre) columns =
  Ok (option_map (fun ref => (col_ix ref, (row_ix ref, well_at racks ref)))
        (find (starts_run racks (Z.to_nat n)) (column_refs r (length cpre) columns))).
Proof.
  intros Hr Hshape Hn cpre columns. revert cpre.
  induction columns as [|column rest IH]; intros cpre Hrack; [reflexivity|].
  assert (Hc : nth_error rack (length cpre) = Some column)
    by (rewrite Hrack; apply nth_error_middle).
  assert (Hlen : length column = 8%nat).
  { rewrite Forall_forall in Hshape. apply Hshape.
    rewrite Hrack. apply in_or_app. right. now left. }
  cbn [scan_columns column_refs].
  rewrite (nth_of_nth_error (map (map Well.has_tip) rack) (length cpre)
             (map Well.has_tip column) [])
    by (rewrite nth_error_map, Hc; reflexivity).
  rewrite Hlen, (scan_rows_eight column n Hlen Hn).
  rewrite find_app_first, find_map_comp.
  rewrite (find_ext_in
             (fun w => starts_run racks (Z.to_nat n) (mkRef r (length cpre) w))
             (column_starts_run column (Z.to_nat n)))
    by (intros w _; apply (starts_run_column racks r (length cpre) rack column);
        assumption).
  destruct (find (column_starts_run column (Z.to_nat n)) rows_bottom_up) as [w|].
  - cbn. unfold well_at. cbn [rack_ix col_ix row_ix].
    rewrite (nth_of_nth_error racks r rack [] Hr).
    now rewrite (nth_of_nth_error rack (length cpre) column [] Hc).
  - cbn [option_map].
    specialize (IH (cpre ++ [column])).
    rewrite length_app, Nat.add_1_r in IH. apply IH.
    now rewrite <- app_assoc.
Qed.

Lemma scan_racks_spec (racks : list Labware) (n : Z) :
  eight_rows racks -> 1 <= n <= 8 ->
  forall pre rest, racks = pre ++ rest ->
  scan_racks n (length pre) rest =
  match find (starts_run racks (Z.to_nat n)) (rack_refs (length pre) rest) with
  | Some ref => Ok (ref, well_at racks ref)
  | None => Raise OutOfTipsError
  end.
Proof.
  intros Hshape Hn pre rest. revert pre.
  induction rest as [|rack rest IH]; intros pre Hracks; [reflexivity|].
  assert (Hr : nth_error racks (length pre) = Some rack)
    by (rewrite Hracks; apply nth_error_middle).
  assert (Hrack : Forall (fun column : Column => length column = 8%nat) rack).
  { unfold eight_rows in Hshape. rewrite Forall_forall in Hshape. apply Hshape.
    rewrite Hracks. apply in_or_app. right. now left. }
  cbn [scan_racks rack_refs].
  pose proof (scan_columns_spec racks (length pre) rack n Hr Hrack Hn [] rack eq_refl)
    as Hcols.
  cbn [length] in Hcols. rewrite Hcols, find_app_first.
  destruct (find (starts_run racks (Z.to_nat n)) (column_refs (length pre) 0 rack))
    as [[r c w]|] eqn:Hfind.
  - cbn. apply find_some in Hfind. destruct Hfind as [Hin _].
    assert (r = length pre) as ->; [|reflexivity].
    clear - Hin. revert Hin. generalize 0%nat. induction rack as [|column rack IH]; intros c0 Hin.
    + destruct Hin.
    + cbn [column_refs] in Hin. apply in_app_or in Hin. destruct Hin as [Hin|Hin].
      * apply in_map_iff in Hin. destruct Hin as [w0 [[= <- _ _] _]]. reflexivity.
      * now apply (IH (S c0)).
  - cbn [option_map].
    specialize (IH (pre ++ [rack])).
    rewrite length_app, Nat.add_1_r in IH. apply IH.
    now rewrite <- app_assoc.
Qed.

Lemma next_tip_in_spec (racks : list Labware) (n : Z) :
  eight_rows racks -> 1 <= n <= 8 ->
  next_tip_in racks n =
  match find (starts_run racks (Z.to_nat n)) (search_order racks) with
  | Some ref => Ok (ref, well_at racks ref)
  | None => Raise OutOfTipsError
  end.
Proof.
  intros Hshape Hn. exact (scan_racks_spec racks n Hshape Hn [] racks eq_refl).
Qed.

(** C1.  On racks whose columns have 8 rows and for a tip count [n] between
    1 and 8, [next_tip] returns the first well, in the order "racks as
    configured, columns in natural order, rows 7 down to 0", that starts a
    run of [n] consecutive available slots fitting within the column, and
    raises [OutOfTipsError] when there is none; the pipette is left as it
    was.  On a rack with one column of 8 free rows, a count of 3 gives
    row 5, the run of rows 5 to 7. *)
Theorem next_tip_first_fit_bottom_up (w : World) (n : Z) :
  eight_rows (tip_racks (self w)) -> 1 <= n <= 8 ->
  next_tip n w =
    (match find (starts_run (tip_racks (self w)) (Z.to_nat n))
             (search_order (tip_racks (self w))) with
     | Some ref => Ok (ref, well_at (tip_racks (self w)) ref)
     | None => Raise OutOfTipsError
     end, w)
  /\ (forall v, res_map fst (next_tip_in [Ot2.full_rack 1 v] 3) = Ok (mkRef 0 0 5)).
Proof.
  intros Hshape Hn. split.
  - unfold next_tip. now rewrite (next_tip_in_spec _ n Hshape Hn).
  - intros v. reflexivity.
Qed.

Lemma next_tip_first_fit_bottom_up_witness :
  eight_rows (tip_racks (self (Ot2.fresh 8 [Ot2.empty_rack 1 20; Ot2.full_rack 2 20] 20)))
  /\ 1 <= 3 <= 8
  /\ fst (next_tip 3 (Ot2.fresh 8 [Ot2.empty_rack 1 20; Ot2.full_rack 2 20] 20))
     = Ok (mkRef 1 0 5, Well.mk true 20).
Proof.
  assert (Hshape : eight_rows
            (tip_racks (self (Ot2.fresh 8 [Ot2.empty_rack 1 20; Ot2.full_rack 2 20] 20))))
    by (repeat constructor).
  assert (Hn : 1 <= 3 <= 8) by lia.
  split; [exact Hshape | split; [exact Hn |]].
  rewrite (proj1 (next_tip_first_fit_bottom_up _ 3 Hshape Hn)).
  reflexivity.
Defined.

(** A count above 8 fits nowhere: every row is skipped. *)
Lemma scan_rows_too_many (column : Column) (truth : list bool) (n : Z) (i2s : list nat) :
  8 < n -> Forall (fun i2 => (i2 <= 7)%nat) i2s ->
  scan_rows column truth n i2s = Ok None.
Proof.
  intros Hn. induction i2s as [|i2 rest IH]; intros Hall; [reflexivity|].
  inversion Hall as [|? ? Hi Hrest]; subst.
  cbn [scan_rows].
  replace (7 - Z.of_nat i2 + n >? 8) with true
    by (symmetry; apply Z.gtb_lt; lia).
  now apply IH.
Qed.

Lemma scan_columns_too_many (truth_table : list (list bool)) (n : Z) (i1 : nat)
    (columns : list Column) :
  8 < n -> Forall (fun column : Column => length column = 8%nat) columns ->
  scan_columns truth_table n i1 columns = Ok None.
Proof.
  intros Hn. revert i1. induction columns as [|column rest IH]; intros i1 Hall;
    [reflexivity|].
  inversion Hall as [|? ? Hlen Hrest]; subst.
  cbn [scan_columns]. rewrite Hlen.
  rewrite scan_rows_too_many; [now apply IH | exact Hn |].
  repeat constructor.
Qed.

Lemma next_tip_in_too_many (racks : list Labware) (n : Z) :
  eight_rows racks -> 8 < n -> next_tip_in racks n = Raise OutOfTipsError.
Proof.
  intros Hshape Hn. unfold next_tip_in. generalize 0%nat.
  induction Hshape as [|rack rest Hrack _ IH]; intros r; [reflexivity|].
  cbn [scan_racks]. rewrite scan_columns_too_many by assumption. apply IH.
Qed.

(** What [next_tip] finds is a run of available slots. *)
Lemma next_tip_in_sound (racks : list Labware) (n : Z) (ref : WellRef) (well : Well.t) :
  eight_rows racks -> 0 < n ->
  next_tip_in racks n = Ok (ref, well) ->
  n <= 8 /\ starts_run racks (Z.to_nat n) ref = true /\ well = well_at racks ref.
Proof.
  intros Hshape Hpos Hfound.
  destruct (Z_lt_le_dec 8 n) as [Hbig|Hle].
  - rewrite (next_tip_in_too_many racks n Hshape Hbig) in Hfound. discriminate.
  - split; [exact Hle|].
    rewrite (next_tip_in_spec racks n Hshape) in Hfound by lia.
    destruct (find (starts_run racks (Z.to_nat n)) (search_order racks)) as [ref'|] eqn:Hfind;
      [|discriminate].
    injection Hfound as <- <-. apply find_some in Hfind. now destruct Hfind.
Qed.

(** Without a run anywhere, [next_tip] raises [OutOfTipsError]. *)
Lemma next_tip_in_exhausted (racks : list Labware) (n : Z) :
  eight_rows racks -> 0 < n ->
  (forall ref, starts_run racks (Z.to_nat n) ref = false) ->
  next_tip_in racks n = Raise OutOfTipsError.
Proof.
  intros Hshape Hpos Hnone.
  destruct (Z_lt_le_dec 8 n) as [Hbig|Hle].
  - now apply next_tip_in_too_many.
  - rewrite (next_tip_in_spec racks n Hshape) by lia.
    destruct (find (starts_run racks (Z.to_nat n)) (search_order racks)) as [ref|] eqn:Hfind;
      [|reflexivity].
    apply find_some in Hfind. destruct Hfind as [_ Hrun].
    rewrite Hnone in Hrun. discriminate.
Qed.

Lemma starts_run_one (racks : list Labware) (ref : WellRef) :
  starts_run racks 1 ref = true -> available racks ref = true.
Proof.
  unfold starts_run, run_slots. cbn [seq map forallb].
  rewrite Nat.add_0_r. destruct ref as [r c w]. cbn [rack_ix col_ix row_ix].
  intros H. apply andb_prop in H. destruct H as [_ H].
  apply andb_prop in H. now destruct H.
Qed.

(** ** The trace *)

Lemma skipn_app_exact {A : Type} (l1 l2 : list A) : skipn (length l1) (l1 ++ l2) = l2.
Proof. induction l1 as [|x l1 IH]; [reflexivity | exact IH]. Qed.

Lemma new_events_app (w : World) (p : Pipette) (events : list Event) :
  new_events w (mkWorld p (trace w ++ events)) = events.
Proof. unfold new_events. cbn [trace]. apply skipn_app_exact. Qed.

Lemma new_events_same (w : World) : new_events w w = [].
Proof.
  unfold new_events. rewrite <- (app_nil_r (trace w)) at 2. apply skipn_app_exact.
Qed.

(** A call adds its event, whether the inherited method returns or raises. *)
Lemma call_trace (e : Event) (f : Pipette -> Pipette + nat) (w : World) :
  trace (snd (call e f w)) = trace w ++ [e].
Proof. unfold call, log. now destruct (f (self w)). Qed.

(** ** [pick_up_tip] without a location, unfolded *)

Lemma pick_up_tip_searched (B : Base) (number : PyVal) (n : Z) (kwargs : Kwargs)
    (w : World) :
  location kwargs = None ->
  isinstance_int number = Some n ->
  0 < n <= channels (self w) ->
  pick_up_tip B number kwargs w =
  match next_tip_in (tip_racks (self w)) n with
  | Ok t =>
      call (Super_pick_up_tip (set_location kwargs (TipWell (fst t))))
           (base_pick_up_tip B (set_location kwargs (TipWell (fst t)))) w
  | Raise OutOfTipsError =>
      match base_reset_tipracks B (self w) with
      | inr code =>
          (Raise (BaseError code),
           mkWorld (self w) (trace w ++ [Input; Super_reset_tipracks]))
      | inl p1 =>
          let w1 := mkWorld p1 (trace w ++ [Input; Super_reset_tipracks]) in
          match next_tip_in (tip_racks p1) n with
          | Ok t =>
              call (Super_pick_up_tip (set_location kwargs (TipWell (fst t))))
                   (base_pick_up_tip B (set_location kwargs (TipWell (fst t)))) w1
          | Raise e => (Raise e, w1)
          end
      end
  | Raise e => (Raise e, w)
  end.
Proof.
  intros Hloc Hint [Hpos Hle].
  unfold pick_up_tip. rewrite Hloc, Hint.
  unfold bind at 1. unfold read at 1.
  replace (negb ((0 <? n) && (n <=? channels (self w)))) with false
    by (symmetry; apply negb_false_iff, andb_true_intro; split;
        [apply Z.ltb_lt | apply Z.leb_le]; assumption).
  unfold bind, try_except, next_tip, ret, input, call, log. cbn [self trace].
  destruct (next_tip_in (tip_racks (self w)) n) as [t|e].
  - reflexivity.
  - destruct e; try reflexivity.
    rewrite <- !app_assoc. cbn [app].
    destruct (base_reset_tipracks B (self w)) as [p1|code]; [|reflexivity].
    cbn [self trace].
    destruct (next_tip_in (tip_racks p1) n) as [t|e]; reflexivity.
Qed.

Lemma new_events_of_trace (w w' : World) (events : list Event) :
  trace w' = trace w ++ events -> new_events w w' = events.
Proof. unfold new_events. intros ->. apply skipn_app_exact. Qed.

Lemma call_new_events (e : Event) (f : Pipette -> Pipette + nat) (w0 w : World)
    (events : list Event) :
  trace w = trace w0 ++ events ->
  new_events w0 (snd (call e f w)) = events ++ [e].
Proof.
  intros Hw. apply new_events_of_trace.
  now rewrite call_trace, Hw, <- app_assoc.
Qed.

(** [next_tip] raises nothing but [OutOfTipsError] and [IndexError]. *)
Lemma scan_rows_raises column truth n i2s e :
  scan_rows column truth n i2s = Raise e -> e = IndexError.
Proof.
  induction i2s as [|i2 rest IH]; cbn [scan_rows]; [discriminate|].
  destruct (7 - Z.of_nat i2 + n >? 8); [exact IH|].
  destruct (Py.all _); [|exact IH].
  destruct (Py.index column (7 - Z.of_nat i2)); [discriminate|].
  now intros [= <-].
Qed.

Lemma scan_columns_raises truth_table n i1 columns e :
  scan_columns truth_table n i1 columns = Raise e -> e = IndexError.
Proof.
  revert i1. induction columns as [|column rest IH]; intros i1; cbn [scan_columns];
    [discriminate|].
  destruct (scan_rows column (nth i1 truth_table []) n (seq 0 (length column)))
    as [[t|]|e'] eqn:Hrows.
  - discriminate.
  - apply IH.
  - intros [= <-]. now apply scan_rows_raises in Hrows.
Qed.

Lemma next_tip_in_raises (racks : list Labware) (n : Z) (e : exn) :
  next_tip_in racks n = Raise e -> e = OutOfTipsError \/ e = IndexError.
Proof.
  unfold next_tip_in. generalize 0%nat.
  induction racks as [|rack rest IH]; intros r; cbn [scan_racks].
  - intros [= <-]. now left.
  - destruct (scan_columns (map (map Well.has_tip) rack) n 0 rack)
      as [[[c [w well]]|]|e'] eqn:Hcols.
    + discriminate.
    + apply IH.
    + intros [= <-]. right. now apply scan_columns_raises in Hcols.
Qed.

Lemma positive_integer_upto_iff (chans : Z) (number : PyVal) :
  positive_integer_upto chans number <->
  exists n, isinstance_int number = Some n /\ 0 < n <= chans.
Proof.
  destruct number as [z|[|]|q|s|]; cbn.
  - split; [intros H; exists z; split; [reflexivity | lia]
           | intros [n [[= <-] H]]; lia].
  - split; [intros [_ H]; exists 1; split; [reflexivity | lia]
           | intros [n [[= <-] H]]; split; [reflexivity | lia]].
  - split; [intros [H _]; discriminate | intros [n [[= <-] H]]; lia].
  - split; [intros [] | intros [n [H _]]; discriminate].
  - split; [intros [] | intros [n [H _]]; discriminate].
  - split; [intros [] | intros [n [H _]]; discriminate].
Qed.

Lemma pick_up_tip_invalid (B : Base) (number : PyVal) (kwargs : Kwargs) (w : World) :
  location kwargs = None ->
  ~ positive_integer_upto (channels (self w)) number ->
  pick_up_tip B number kwargs w = (Raise (ValueError_channels number), w).
Proof.
  intros Hloc Hbad. unfold pick_up_tip. rewrite Hloc.
  unfold bind at 1. unfold read at 1.
  destruct (isinstance_int number) as [n|] eqn:Hint; [|reflexivity].
  destruct (negb ((0 <? n) && (n <=? channels (self w)))) eqn:Hcheck; [reflexivity|].
  exfalso. apply Hbad. apply positive_integer_upto_iff. exists n. split; [exact Hint|].
  apply negb_false_iff, andb_prop in Hcheck. destruct Hcheck as [H1 H2].
  apply Z.ltb_lt in H1. apply Z.leb_le in H2. lia.
Qed.

Lemma call_outcome (e : Event) (f : Pipette -> Pipette + nat) (w : World) :
  fst (call e f w) = Ok tt \/ exists code, fst (call e f w) = Raise (BaseError code).
Proof.
  unfold call. destruct (f (self w)) as [p|code]; [now left | right; now exists code].
Qed.

(** C4.  A [pick_up_tip] without a location fails with the [ValueError] on
    the tip count exactly when the count is not a positive integer not
    exceeding the channel count of the pipette, and then at once: nothing
    has been called and nothing has changed.  Counts 0 and 9 on an 8-channel
    pipette both fail. *)
Theorem pick_up_tip_count_checked (B : Base) (number : PyVal) (kwargs : Kwargs)
    (w : World) :
  location kwargs = None ->
  (fst (pick_up_tip B number kwargs w) = Raise (ValueError_channels number) <->
   ~ positive_integer_upto (channels (self w)) number)
  /\ (~ positive_integer_upto (channels (self w)) number ->
      pick_up_tip B number kwargs w = (Raise (ValueError_channels number), w))
  /\ (channels (self w) = 8 ->
      fst (pick_up_tip B (PyInt 0) kwargs w) = Raise (ValueError_channels (PyInt 0)) /\
      fst (pick_up_tip B (PyInt 9) kwargs w) = Raise (ValueError_channels (PyInt 9))).
Proof.
  intros Hloc. split; [split|split].
  - intros Hraise Hvalid. apply positive_integer_upto_iff in Hvalid.
    destruct Hvalid as [n [Hint Hn]].
    rewrite (pick_up_tip_searched B number n kwargs w Hloc Hint Hn) in Hraise.
    destruct (next_tip_in (tip_racks (self w)) n) as [t|e] eqn:Hfirst.
    + destruct (call_outcome (Super_pick_up_tip (set_location kwargs (TipWell (fst t))))
                  (base_pick_up_tip B (set_location kwargs (TipWell (fst t)))) w)
        as [Hc|[code Hc]]; rewrite Hc in Hraise; discriminate.
    + destruct (next_tip_in_raises _ _ _ Hfirst) as [-> | ->]; [|discriminate].
      destruct (base_reset_tipracks B (self w)) as [p1|code]; [|discriminate].
      cbv zeta in Hraise.
      destruct (next_tip_in (tip_racks p1) n) as [t|e] eqn:Hretry.
      * match type of Hraise with fst (call ?ev ?f ?w1) = _ =>
          destruct (call_outcome ev f w1) as [Hc|[code Hc]] end;
          rewrite Hc in Hraise; discriminate.
      * destruct (next_tip_in_raises _ _ _ Hretry) as [-> | ->]; discriminate.
  - intros Hbad. now rewrite (pick_up_tip_invalid B number kwargs w Hloc Hbad).
  - apply pick_up_tip_invalid. exact Hloc.
  - intros Hch. split.
    + rewrite pick_up_tip_invalid; [reflexivity | exact Hloc | cbn; lia].
    + rewrite pick_up_tip_invalid; [reflexivity | exact Hloc | cbn; lia].
Qed.

Lemma pick_up_tip_count_checked_witness :
  location no_kwargs = None
  /\ fst (pick_up_tip Ot2.base (PyInt 9) no_kwargs (Ot2.fresh 8 [Ot2.full_rack 12 20] 20))
     = Raise (ValueError_channels (PyInt 9))
  /\ fst (pick_up_tip Ot2.base (PyFloat 2) no_kwargs (Ot2.fresh 8 [Ot2.full_rack 12 20] 20))
     = Raise (ValueError_channels (PyFloat 2))
  /\ fst (pick_up_tip Ot2.base (PyInt 8) no_kwargs (Ot2.fresh 8 [Ot2.full_rack 12 20] 20))
     = Ok tt.
Proof.
  split; [reflexivity|]. split; [|split].
  - exact (proj2 (proj2 (proj2 (pick_up_tip_count_checked Ot2.base (PyInt 0) no_kwargs
             (Ot2.fresh 8 [Ot2.full_rack 12 20] 20) eq_refl)) eq_refl)).
  - apply (proj1 (pick_up_tip_count_checked Ot2.base (PyFloat 2) no_kwargs
             (Ot2.fresh 8 [Ot2.full_rack 12 20] 20) eq_refl)).
    intros H. exact H.
  - reflexivity.
Defined.

Lemma pick_up_tip_with_location (B : Base) (number : PyVal) (kwargs : Kwargs)
    (l : Location) (w : World) :
  location kwargs = Some l ->
  pick_up_tip B number kwargs w =
    call (Super_pick_up_tip kwargs) (base_pick_up_tip B kwargs) w.
Proof. intros Hloc. unfold pick_up_tip. now rewrite Hloc. Qed.

(** C9.  A [pick_up_tip] that is given a location skips the count check,
    the search and the refill prompt: whatever [number] and the racks are,
    it is the one inherited pick-up with the same arguments. *)
Theorem pick_up_tip_location_bypass (B : Base) (number : PyVal) (kwargs : Kwargs)
    (l : Location) (w : World) :
  location kwargs = Some l ->
  pick_up_tip B number kwargs w =
    call (Super_pick_up_tip kwargs) (base_pick_up_tip B kwargs) w
  /\ new_events w (snd (pick_up_tip B number kwargs w)) = [Super_pick_up_tip kwargs]
  /\ prompts w (snd (pick_up_tip B number kwargs w)) = 0%nat.
Proof.
  intros Hloc.
  pose proof (pick_up_tip_with_location B number kwargs l w Hloc) as Heq.
  assert (Hnew : new_events w (snd (pick_up_tip B number kwargs w))
                 = [Super_pick_up_tip kwargs]).
  { rewrite Heq. apply (call_new_events _ _ w w []). now rewrite app_nil_r. }
  split; [exact Heq | split; [exact Hnew |]].
  unfold prompts. now rewrite Hnew.
Qed.

Lemma pick_up_tip_location_bypass_witness :
  location (mkKwargs (Some (TipWell (mkRef 0 3 0))) []) = Some (TipWell (mkRef 0 3 0))
  /\ new_events (Ot2.fresh 8 [Ot2.empty_rack 12 20] 20)
       (snd (pick_up_tip Ot2.base (PyInt 99) (mkKwargs (Some (TipWell (mkRef 0 3 0))) [])
               (Ot2.fresh 8 [Ot2.empty_rack 12 20] 20)))
     = [Super_pick_up_tip (mkKwargs (Some (TipWell (mkRef 0 3 0))) [])].
Proof.
  split; [reflexivity|].
  exact (proj1 (proj2 (pick_up_tip_location_bypass Ot2.base (PyInt 99)
                         (mkKwargs (Some (TipWell (mkRef 0 3 0))) [])
                         (TipWell (mkRef 0 3 0))
                         (Ot2.fresh 8 [Ot2.empty_rack 12 20] 20) eq_refl))).
Defined.

Lemma prompts_none (w : World) : prompts w w = 0%nat.
Proof. unfold prompts. now rewrite new_events_same. Qed.

Lemma not_valid_of_isinstance (chans : Z) (number : PyVal) :
  (forall n, isinstance_int number = Some n -> ~ 0 < n <= chans) ->
  ~ positive_integer_upto chans number.
Proof.
  intros H Hv. apply positive_integer_upto_iff in Hv.
  destruct Hv as [n [Hint Hn]]. exact (H n Hint Hn).
Qed.

(** Any [pick_up_tip] prompts at most once. *)
Lemma pick_up_tip_prompts_le_1 (B : Base) (number : PyVal) (kwargs : Kwargs) (w : World) :
  (prompts w (snd (pick_up_tip B number kwargs w)) <= 1)%nat.
Proof.
  destruct (location kwargs) as [l|] eqn:Hloc.
  - rewrite (pick_up_tip_with_location B number kwargs l w Hloc). unfold prompts.
    rewrite (call_new_events _ _ w w []) by now rewrite app_nil_r. cbn. lia.
  - destruct (isinstance_int number) as [n|] eqn:Hint.
    + destruct (Z_lt_le_dec 0 n) as [Hpos|Hneg];
        [destruct (Z_le_gt_dec n (channels (self w))) as [Hle|Hgt]|].
      * rewrite (pick_up_tip_searched B number n kwargs w Hloc Hint (conj Hpos Hle)).
        unfold prompts.
        destruct (next_tip_in (tip_racks (self w)) n) as [t|e].
        { rewrite (call_new_events _ _ w w []) by now rewrite app_nil_r. cbn. lia. }
        destruct e; try (cbn [snd]; rewrite new_events_same; cbn; lia).
        destruct (base_reset_tipracks B (self w)) as [p1|code].
        { cbv zeta.
          destruct (next_tip_in (tip_racks p1) n) as [t|e].
          - rewrite (call_new_events _ _ w _ [Input; Super_reset_tipracks]) by reflexivity.
            cbn. lia.
          - cbn [snd]. rewrite new_events_app. cbn. lia. }
        cbn [snd]. rewrite new_events_app. cbn. lia.
      * rewrite pick_up_tip_invalid; [cbn [snd]; rewrite prompts_none; lia | exact Hloc |].
        apply not_valid_of_isinstance. intros n' Hn'.
        rewrite Hint in Hn'. injection Hn' as <-. lia.
      * rewrite pick_up_tip_invalid; [cbn [snd]; rewrite prompts_none; lia | exact Hloc |].
        apply not_valid_of_isinstance. intros n' Hn'.
        rewrite Hint in Hn'. injection Hn' as <-. lia.
    + rewrite pick_up_tip_invalid; [cbn [snd]; rewrite prompts_none; lia | exact Hloc |].
      apply not_valid_of_isinstance. intros n' Hn'. rewrite Hint in Hn'. discriminate.
Qed.

(** C3.  When no rack holds a run of [n] available slots, a valid
    [pick_up_tip(n)] prompts the operator exactly once, then calls
    [reset_tipracks] (which, by the law of the base, leaves every rack of the
    pipette full), and searches once more for the same count: a well found
    then is picked up, and an [OutOfTipsError] (or any other error) of that
    second search leaves the method uncaught, without a second prompt.  No
    call of [pick_up_tip] prompts more than once. *)
Theorem pick_up_tip_refill_once (B : Base) (number : PyVal) (n : Z) (kwargs : Kwargs)
    (w : World) :
  location kwargs = None ->
  isinstance_int number = Some n ->
  0 < n <= channels (self w) ->
  eight_rows (tip_racks (self w)) ->
  (forall ref, starts_run (tip_racks (self w)) (Z.to_nat n) ref = false) ->
  prompts w (snd (pick_up_tip B number kwargs w)) = 1%nat
  /\ firstn 2 (new_events w (snd (pick_up_tip B number kwargs w)))
     = [Input; Super_reset_tipracks]
  /\ (forall p1, base_reset_tipracks B (self w) = inl p1 ->
      (reset_refills B -> tip_racks p1 = refill (tip_racks (self w))) /\
      (forall t, next_tip_in (tip_racks p1) n = Ok t ->
         pick_up_tip B number kwargs w =
           call (Super_pick_up_tip (set_location kwargs (TipWell (fst t))))
                (base_pick_up_tip B (set_location kwargs (TipWell (fst t))))
                (mkWorld p1 (trace w ++ [Input; Super_reset_tipracks])) /\
         new_events w (snd (pick_up_tip B number kwargs w)) =
           [Input; Super_reset_tipracks;
            Super_pick_up_tip (set_location kwargs (TipWell (fst t)))]) /\
      (forall e, next_tip_in (tip_racks p1) n = Raise e ->
         pick_up_tip B number kwargs w =
           (Raise e, mkWorld p1 (trace w ++ [Input; Super_reset_tipracks]))))
  /\ (forall number' kwargs' w',
        (prompts w' (snd (pick_up_tip B number' kwargs' w')) <= 1)%nat).
Proof.
  intros Hloc Hint Hn Hshape Hnone.
  pose proof (next_tip_in_exhausted _ n Hshape (proj1 Hn) Hnone) as Hfirst.
  pose proof (pick_up_tip_searched B number n kwargs w Hloc Hint Hn) as Heq.
  rewrite Hfirst in Heq.
  split; [|split; [|split]].
  - rewrite Heq. unfold prompts.
    destruct (base_reset_tipracks B (self w)) as [p1|code].
    + cbv zeta. destruct (next_tip_in (tip_racks p1) n) as [t|e].
      * now rewrite (call_new_events _ _ w _ [Input; Super_reset_tipracks]).
      * cbn [snd]. now rewrite new_events_app.
    + cbn [snd]. now rewrite new_events_app.
  - rewrite Heq.
    destruct (base_reset_tipracks B (self w)) as [p1|code].
    + cbv zeta. destruct (next_tip_in (tip_racks p1) n) as [t|e].
      * now rewrite (call_new_events _ _ w _ [Input; Super_reset_tipracks]).
      * cbn [snd]. now rewrite new_events_app.
    + cbn [snd]. now rewrite new_events_app.
  - intros p1 Hreset. rewrite Hreset in Heq. cbv zeta in Heq.
    split; [|split].
    + intros Hlaw. now apply (Hlaw (self w) p1).
    + intros t Ht. rewrite Ht in Heq. split; [exact Heq|].
      rewrite Heq.
      now rewrite (call_new_events _ _ w _ [Input; Super_reset_tipracks]).
    + intros e He. now rewrite He in Heq.
  - intros number' kwargs' w'. apply pick_up_tip_prompts_le_1.
Qed.

(** ** Racks without tips *)

Lemma available_none (racks : list Labware) :
  Forall (Forall (Forall (fun well => Well.has_tip well = false))) racks ->
  forall s, available racks s = false.
Proof.
  intros Hall s. unfold available, lookup_well.
  destruct (nth_error racks (rack_ix s)) as [rack|] eqn:Hr; [|reflexivity].
  destruct (nth_error rack (col_ix s)) as [column|] eqn:Hc; [|reflexivity].
  destruct (nth_error column (row_ix s)) as [well|] eqn:Hw; [|reflexivity].
  apply nth_error_In in Hr, Hc, Hw.
  rewrite Forall_forall in Hall. specialize (Hall rack Hr).
  rewrite Forall_forall in Hall. specialize (Hall column Hc).
  rewrite Forall_forall in Hall. exact (Hall well Hw).
Qed.

Lemma starts_run_first (racks : list Labware) (n : nat) (ref : WellRef) :
  (0 < n)%nat -> starts_run racks n ref = true -> available racks ref = true.
Proof.
  intros Hn Hrun. destruct n as [|n]; [lia|].
  unfold starts_run, run_slots in Hrun. cbn [seq map forallb] in Hrun.
  rewrite Nat.add_0_r in Hrun. destruct ref as [r c row].
  cbn [rack_ix col_ix row_ix] in Hrun.
  apply andb_prop in Hrun. destruct Hrun as [_ Hrun].
  apply andb_prop in Hrun. now destruct Hrun.
Qed.

Lemma no_run_without_tips (racks : list Labware) (n : Z) :
  0 < n -> (forall s, available racks s = false) ->
  forall ref, starts_run racks (Z.to_nat n) ref = false.
Proof.
  intros Hn Hnone ref.
  destruct (starts_run racks (Z.to_nat n) ref) eqn:Hrun; [|reflexivity].
  apply starts_run_first in Hrun; [|lia].
  rewrite Hnone in Hrun. discriminate.
Qed.

Lemma pick_up_tip_refill_once_witness :
  location no_kwargs = None
  /\ isinstance_int (PyInt 2) = Some 2
  /\ 0 < 2 <= channels (self (Ot2.fresh 8 [Ot2.empty_rack 1 20] 20))
  /\ eight_rows (tip_racks (self (Ot2.fresh 8 [Ot2.empty_rack 1 20] 20)))
  /\ (forall ref, starts_run (tip_racks (self (Ot2.fresh 8 [Ot2.empty_rack 1 20] 20)))
                    (Z.to_nat 2) ref = false)
  /\ prompts (Ot2.fresh 8 [Ot2.empty_rack 1 20] 20)
       (snd (pick_up_tip Ot2.base (PyInt 2) no_kwargs
               (Ot2.fresh 8 [Ot2.empty_rack 1 20] 20))) = 1%nat
  /\ fst (pick_up_tip Ot2.base (PyInt 2) no_kwargs
            (Ot2.fresh 8 [Ot2.empty_rack 1 20] 20)) = Ok tt.
Proof.
  assert (Hn : 0 < 2 <= channels (self (Ot2.fresh 8 [Ot2.empty_rack 1 20] 20)))
    by (cbn; lia).
  assert (Hshape : eight_rows (tip_racks (self (Ot2.fresh 8 [Ot2.empty_rack 1 20] 20))))
    by (repeat constructor).
  assert (Hnone : forall ref,
            starts_run (tip_racks (self (Ot2.fresh 8 [Ot2.empty_rack 1 20] 20)))
              (Z.to_nat 2) ref = false).
  { apply no_run_without_tips; [lia|]. apply available_none. repeat constructor. }
  split; [reflexivity|]. split; [reflexivity|]. split; [exact Hn|].
  split; [exact Hshape|]. split; [exact Hnone|]. split.
  - exact (proj1 (pick_up_tip_refill_once Ot2.base (PyInt 2) 2 no_kwargs
                    (Ot2.fresh 8 [Ot2.empty_rack 1 20] 20)
                    eq_refl eq_refl Hn Hshape Hnone)).
  - reflexivity.
Defined.

(** A pipette without racks: the search after the prompt fails again and
    the [OutOfTipsError] leaves [pick_up_tip]. *)
Example pick_up_tip_out_of_tips_fatal :
  pick_up_tip Ot2.base (PyInt 1) no_kwargs (Ot2.fresh 1 [] 20)
  = (Raise OutOfTipsError,
     mkWorld (mkPipette 1 [] false 20 0) [Input; Super_reset_tipracks]).
Proof. reflexivity. Qed.

(** ** The headroom *)

Lemma min2_is_min (a b : Q) :
  (Py.min2 a b <= a)%Q /\ (Py.min2 a b <= b)%Q /\ (Py.min2 a b = a \/ Py.min2 a b = b).
Proof.
  unfold Py.min2. destruct (Qlt_le_dec b a) as [Hlt|Hle].
  - split; [now apply Qlt_le_weak | split; [apply Qle_refl | now right]].
  - split; [apply Qle_refl | split; [exact Hle | now left]].
Qed.

(** With a tip held, [get_available_volume] returns the maximum volume of
    the pipette less the volume currently held.  Without one it returns the
    smaller of the capacity of the tip [next_tip(1)] would take and the
    maximum volume of the pipette.  Either way nothing is claimed: no slot
    changes and nothing is called. *)
Lemma get_available_volume_headroom (w : World) :
  (has_tip (self w) = true ->
   get_available_volume w =
     (Ok (max_volume (self w) - current_volume (self w))%Q, w))
  /\ (has_tip (self w) = false ->
      forall ref well, next_tip_in (tip_racks (self w)) 1 = Ok (ref, well) ->
      exists m,
        get_available_volume w = (Ok m, w) /\
        (m <= Well.max_volume well)%Q /\ (m <= max_volume (self w))%Q /\
        (m = Well.max_volume well \/ m = max_volume (self w)))
  /\ snd (get_available_volume w) = w.
Proof.
  unfold get_available_volume, bind, read, next_tip, ret.
  destruct (has_tip (self w)) eqn:Htip.
  - split; [reflexivity | split; [discriminate | reflexivity]].
  - split; [discriminate | split].
    + intros _ ref well Hnext. rewrite Hnext. cbn [snd].
      exists (Py.min2 (Well.max_volume well) (max_volume (self w))).
      split; [reflexivity | apply min2_is_min].
    + now destruct (next_tip_in (tip_racks (self w)) 1).
Qed.

Lemma get_available_volume_headroom_witness :
  has_tip (self (Ot2.fresh 1 [Ot2.full_rack 12 300] 200)) = false
  /\ next_tip_in (tip_racks (self (Ot2.fresh 1 [Ot2.full_rack 12 300] 200))) 1
     = Ok (mkRef 0 0 7, Well.mk true 300)
  /\ exists m,
       get_available_volume (Ot2.fresh 1 [Ot2.full_rack 12 300] 200)
         = (Ok m, Ot2.fresh 1 [Ot2.full_rack 12 300] 200) /\
       (m <= 300)%Q /\ (m <= 200)%Q /\ (m = 300%Q \/ m = 200%Q).
Proof.
  split; [reflexivity|]. split; [reflexivity|].
  exact (proj1 (proj2 (get_available_volume_headroom
                         (Ot2.fresh 1 [Ot2.full_rack 12 300] 200)))
           eq_refl (mkRef 0 0 7) (Well.mk true 300) eq_refl).
Defined.

(** C6.  With a tip held, [get_available_volume] does not look at the tip:
    it returns the maximum volume of the pipette less the volume held (line
    113).  A pipette of maximum volume 300 with a rack of tips of capacity
    200 picks up the tip that [next_tip(1)] names, of capacity 200, and
    holds nothing: the headroom it reports is 300, not 200, and a transfer
    of 250 passes the volume guard and aspirates 250. *)
Theorem get_available_volume_ignores_held_tip :
  exists w1 w2,
    next_tip 1 (Ot2.fresh 1 [Ot2.full_rack 12 200] 300)
    = (Ok (mkRef 0 0 7, Well.mk true 200), Ot2.fresh 1 [Ot2.full_rack 12 200] 300)
    /\ pick_up_tip Ot2.base (PyInt 1) no_kwargs (Ot2.fresh 1 [Ot2.full_rack 12 200] 300)
       = (Ok tt, w1)
    /\ trace w1 = [Super_pick_up_tip (mkKwargs (Some (TipWell (mkRef 0 0 7))) [])]
    /\ has_tip (self w1) = true
    /\ max_volume (self w1) = 300%Q
    /\ current_volume (self w1) = 0%Q
    /\ get_available_volume w1 = (Ok 300%Q, w1)
    /\ transfer Ot2.base 250 (Reservoir "A1" 5) (PlateWell "plate_2" "B" 2)
         false false false w1 = (Ok 0%Q, w2)
    /\ new_events w1 w2
       = [Aspirate 250 (Reservoir "A1" 5); Dispense 250 (PlateWell "plate_2" "B" 2)].
Proof.
  eexists. eexists.
  split; [vm_compute; reflexivity|].
  split; [vm_compute; reflexivity|].
  split; [reflexivity|]. split; [reflexivity|]. split; [reflexivity|].
  split; [reflexivity|].
  split; [vm_compute; reflexivity|].
  split; [vm_compute; reflexivity|].
  vm_compute. reflexivity.
Qed.

(** ** [transfer], step by step *)

Lemma get_available_volume_reads (w : World) :
  get_available_volume w = (fst (get_available_volume w), w).
Proof.
  unfold get_available_volume, bind, read, next_tip, ret.
  destruct (has_tip (self w)); [reflexivity|].
  now destruct (next_tip_in (tip_racks (self w)) 1).
Qed.

Lemma get_available_volume_exhausted (w : World) :
  has_tip (self w) = false ->
  eight_rows (tip_racks (self w)) ->
  (forall s, available (tip_racks (self w)) s = false) ->
  get_available_volume w = (Raise OutOfTipsError, w).
Proof.
  intros Htip Hshape Hnone.
  unfold get_available_volume, bind, read, next_tip, ret. rewrite Htip.
  rewrite (next_tip_in_exhausted _ 1 Hshape); [reflexivity | lia |].
  apply no_run_without_tips; [lia | exact Hnone].
Qed.

Lemma checked_aspiration_volume_eq (volume : Q) (reverse : bool) (w : World) :
  checked_aspiration_volume volume reverse w =
  match fst (get_available_volume w) with
  | Ok h =>
      let a := guarded_aspirate_volume volume reverse h in
      if negb (Qle_bool a h) then (Raise (ValueError_volume a h), w) else (Ok a, w)
  | Raise e => (Raise e, w)
  end.
Proof.
  unfold checked_aspiration_volume, guarded_aspirate_volume, times_1_1, bind, ret, raise.
  cbv beta.
  pose proof (get_available_volume_reads w) as Hreads.
  destruct (get_available_volume w) as [r w1] eqn:Hg. cbn [fst] in *.
  injection Hreads as ->.
  destruct r as [h|e]; destruct reverse; cbn [andb];
    repeat first [rewrite Hg | progress cbv beta iota zeta]; try reflexivity.
  - destruct (Qle_bool (volume * (11 # 10)) h);
      repeat first [rewrite Hg | progress cbv beta iota zeta];
      match goal with |- context [negb ?b] => destruct (negb b) end;
      repeat first [rewrite Hg | progress cbv beta iota zeta]; reflexivity.
  - destruct (negb (Qle_bool volume h));
      repeat first [rewrite Hg | progress cbv beta iota zeta]; reflexivity.
Qed.

Lemma call_bind {A : Type} (e : Event) (f : Pipette -> Pipette + nat)
    (k : unit -> M A) (w : World) :
  bind (call e f) k w =
  match f (self w) with
  | inl p => k tt (mkWorld p (trace w ++ [e]))
  | inr code => (Raise (BaseError code), log e w)
  end.
Proof. unfold bind, call. now destruct (f (self w)). Qed.

Lemma ret_bind {A C : Type} (a : A) (k : A -> M C) (w : World) :
  bind (ret a) k w = k a w.
Proof. reflexivity. Qed.

Lemma clear_residual_eq (B : Base) (source : Location) (w : World) :
  clear_residual B source w =
  if Py.truthy (current_volume (self w))
  then call (Dispense (current_volume (self w)) source)
            (base_dispense B (current_volume (self w)) source) w
  else (Ok tt, w).
Proof.
  unfold clear_residual, get_current_volume, bind, read, ret. cbv beta iota.
  now destruct (Py.truthy (current_volume (self w))).
Qed.

Lemma clear_residual_ok (B : Base) (source : Location) (w w1 : World) (u : unit) :
  clear_residual B source w = (Ok u, w1) ->
  trace w1 = trace w ++ clearing_events (current_volume (self w)) source /\
  (if Py.truthy (current_volume (self w))
   then base_dispense B (current_volume (self w)) source (self w) = inl (self w1)
   else w1 = w).
Proof.
  rewrite clear_residual_eq. unfold clearing_events, call.
  destruct (Py.truthy (current_volume (self w))).
  - destruct (base_dispense B (current_volume (self w)) source (self w)) as [p|code];
      [|discriminate].
    intros [= _ <-]. now split.
  - intros [= _ <-]. now rewrite app_nil_r.
Qed.

Lemma transfer_eq (B : Base) (volume : Q) (source destination : Location)
    (touch_tip blow_out reverse : bool) (w : World) :
  transfer B volume source destination touch_tip blow_out reverse w =
  match clear_residual B source w with
  | (Ok _, w1) =>
      match fst (get_available_volume w1) with
      | Ok h =>
          let a := guarded_aspirate_volume volume reverse h in
          if negb (Qle_bool a h)
          then (Raise (ValueError_volume a h), w1)
          else deliver B a volume source destination touch_tip blow_out w1
      | Raise e => (Raise e, w1)
      end
  | (Raise e, w1) => (Raise e, w1)
  end.
Proof.
  unfold transfer. cbv zeta. unfold bind at 1.
  destruct (clear_residual B source w) as [[u|e] w1]; [|reflexivity].
  unfold bind. rewrite checked_aspiration_volume_eq.
  destruct (fst (get_available_volume w1)) as [h|e]; [|reflexivity].
  cbv zeta. now destruct (negb (Qle_bool (guarded_aspirate_volume volume reverse h) h)).
Qed.

(** The delivery raises nothing but what the inherited methods raise, and
    its first call is the aspiration. *)
Lemma deliver_outcome (B : Base) (a v : Q) (source destination : Location)
    (touch_tip blow_out : bool) (w1 : World) :
  (exists rest,
     trace (snd (deliver B a v source destination touch_tip blow_out w1)) =
     trace w1 ++ Aspirate a source :: rest) /\
  ((exists r, fst (deliver B a v source destination touch_tip blow_out w1) = Ok r) \/
   (exists code,
      fst (deliver B a v source destination touch_tip blow_out w1) = Raise (BaseError code))).
Proof.
  unfold deliver. rewrite call_bind.
  destruct (base_aspirate B a source (self w1)) as [p2|code];
    [|split; [exists []; reflexivity | right; now exists code]].
  rewrite call_bind. cbn [self trace].
  destruct (base_dispense B v destination p2) as [p3|code];
    [|split; [eexists; cbn [snd log trace self]; rewrite <- app_assoc; reflexivity
             | right; now exists code]].
  destruct blow_out.
  - rewrite call_bind. cbn [self trace].
    destruct (base_blow_out B destination p3) as [p4|code];
      [|split; [eexists; cbn [snd log trace self]; rewrite <- !app_assoc; reflexivity
               | right; now exists code]].
    destruct touch_tip.
    + rewrite call_bind. cbn [self trace].
      destruct (base_touch_tip B destination p4) as [p5|code];
        (split; [eexists; cbn [snd log trace self get_current_volume read];
                 rewrite <- !app_assoc; reflexivity |]);
        [left; eexists; reflexivity | right; now exists code].
    + rewrite ret_bind.
      split; [eexists; cbn; rewrite <- !app_assoc; reflexivity
             | left; eexists; reflexivity].
  - rewrite ret_bind.
    destruct touch_tip.
    + rewrite call_bind. cbn [self trace].
      destruct (base_touch_tip B destination p3) as [p5|code];
        (split; [eexists; cbn [snd log trace self get_current_volume read];
                 rewrite <- !app_assoc; reflexivity |]);
        [left; eexists; reflexivity | right; now exists code].
    + rewrite ret_bind.
      split; [eexists; cbn; rewrite <- !app_assoc; reflexivity
             | left; eexists; reflexivity].
Qed.

(** A delivery that returns has made its calls in order, each one on the
    pipette the previous one left. *)
Lemma deliver_ok (B : Base) (a v : Q) (source destination : Location)
    (touch_tip blow_out : bool) (w1 w' : World) (r : Q) :
  deliver B a v source destination touch_tip blow_out w1 = (Ok r, w') ->
  exists p2 p3 p4,
    base_aspirate B a source (self w1) = inl p2 /\
    base_dispense B v destination p2 = inl p3 /\
    (if blow_out then base_blow_out B destination p3 = inl p4 else p4 = p3) /\
    (if touch_tip then base_touch_tip B destination p4 = inl (self w')
     else self w' = p4) /\
    trace w' = trace w1 ++ delivery_events a v source destination touch_tip blow_out /\
    r = current_volume (self w').
Proof.
  unfold deliver, delivery_events. rewrite call_bind.
  destruct (base_aspirate B a source (self w1)) as [p2|code] eqn:H2; [|discriminate].
  rewrite call_bind. cbn [self trace].
  destruct (base_dispense B v destination p2) as [p3|code] eqn:H3; [|discriminate].
  destruct blow_out.
  - rewrite call_bind. cbn [self trace].
    destruct (base_blow_out B destination p3) as [p4|code] eqn:H4; [|discriminate].
    destruct touch_tip.
    + rewrite call_bind. cbn [self trace].
      destruct (base_touch_tip B destination p4) as [p5|code] eqn:H5; [|discriminate].
      unfold get_current_volume, read. cbn [self]. intros [= <- <-].
      exists p2, p3, p4. cbn [self trace]. rewrite <- !app_assoc. now repeat split.
    + rewrite ret_bind. unfold get_current_volume, read. cbn [self]. intros [= <- <-].
      exists p2, p3, p4. cbn [self trace]. rewrite <- !app_assoc. now repeat split.
  - rewrite ret_bind.
    destruct touch_tip.
    + rewrite call_bind. cbn [self trace].
      destruct (base_touch_tip B destination p3) as [p5|code] eqn:H5; [|discriminate].
      unfold get_current_volume, read. cbn [self]. intros [= <- <-].
      exists p2, p3, p3. cbn [self trace]. rewrite <- !app_assoc. now repeat split.
    + rewrite ret_bind. unfold get_current_volume, read. cbn [self]. intros [= <- <-].
      exists p2, p3, p3. cbn [self trace]. rewrite <- !app_assoc. now repeat split.
Qed.

(** C10.  With no tip held and no available tip in any rack (columns of 8
    rows), the headroom lookahead raises [OutOfTipsError]: it neither
    prompts nor resets, and a transfer that reaches it in that state fails
    with [OutOfTipsError], not with the [ValueError] on the volume. *)
Theorem headroom_lookahead_out_of_tips (B : Base) (volume : Q)
    (source destination : Location) (touch_tip blow_out reverse : bool) (w : World) :
  has_tip (self w) = false ->
  eight_rows (tip_racks (self w)) ->
  (forall s, available (tip_racks (self w)) s = false) ->
  get_available_volume w = (Raise OutOfTipsError, w)
  /\ (forall w0, clear_residual B source w0 = (Ok tt, w) ->
      transfer B volume source destination touch_tip blow_out reverse w0
      = (Raise OutOfTipsError, w))
  /\ (Py.truthy (current_volume (self w)) = false ->
      transfer B volume source destination touch_tip blow_out reverse w
      = (Raise OutOfTipsError, w)).
Proof.
  intros Htip Hshape Hnone.
  pose proof (get_available_volume_exhausted w Htip Hshape Hnone) as Hhead.
  split; [exact Hhead | split].
  - intros w0 Hclear. rewrite transfer_eq, Hclear, Hhead. reflexivity.
  - intros Hzero. rewrite transfer_eq, clear_residual_eq, Hzero, Hhead. reflexivity.
Qed.

Lemma headroom_lookahead_out_of_tips_witness :
  has_tip (self (Ot2.fresh 8 [Ot2.empty_rack 12 20] 20)) = false
  /\ eight_rows (tip_racks (self (Ot2.fresh 8 [Ot2.empty_rack 12 20] 20)))
  /\ (forall s, available (tip_racks (self (Ot2.fresh 8 [Ot2.empty_rack 12 20] 20))) s
                = false)
  /\ transfer Ot2.base (19 # 2) (Reservoir "A3" 5) (PlateWell "plate_2" "B" 2)
       true false true (Ot2.fresh 8 [Ot2.empty_rack 12 20] 20)
     = (Raise OutOfTipsError, Ot2.fresh 8 [Ot2.empty_rack 12 20] 20).
Proof.
  assert (Hshape : eight_rows (tip_racks (self (Ot2.fresh 8 [Ot2.empty_rack 12 20] 20))))
    by (repeat constructor).
  assert (Hnone : forall s,
            available (tip_racks (self (Ot2.fresh 8 [Ot2.empty_rack 12 20] 20))) s = false)
    by (apply available_none; repeat constructor).
  split; [reflexivity | split; [exact Hshape | split; [exact Hnone |]]].
  exact (proj2 (proj2 (headroom_lookahead_out_of_tips Ot2.base (19 # 2)
                         (Reservoir "A3" 5) (PlateWell "plate_2" "B" 2) true false true
                         (Ot2.fresh 8 [Ot2.empty_rack 12 20] 20)
                         eq_refl Hshape Hnone)) eq_refl).
Defined.

Lemma guard_rejects_iff (a h : Q) : negb (Qle_bool a h) = true <-> (h < a)%Q.
Proof.
  rewrite negb_true_iff. split.
  - intros Hb. apply Qnot_le_lt. intros Hle. apply Qle_bool_iff in Hle.
    rewrite Hle in Hb. discriminate.
  - intros Hlt. destruct (Qle_bool a h) eqn:Hb; [|reflexivity].
    apply Qle_bool_iff in Hb. exfalso. exact (Qlt_not_le _ _ Hlt Hb).
Qed.

Lemma clearing_has_no_aspirate (held : Q) (source : Location) :
  forallb (fun e => negb (is_aspirate e)) (clearing_events held source) = true.
Proof. unfold clearing_events. now destruct (Py.truthy held). Qed.

(** C2.  Once the residual volume is cleared and the headroom [h] is read,
    the aspiration volume is [volume * 1.1] if [reverse] is set and
    [volume * 1.1 <= h], and [volume] otherwise; the transfer raises the
    [ValueError] on the volume exactly when that volume exceeds [h]; it
    does so before any aspirate call, and when it does not the next call is
    the aspiration of that volume from the source. *)
Theorem transfer_volume_guard (B : Base) (volume : Q) (source destination : Location)
    (touch_tip blow_out reverse : bool) (w w1 : World) (h : Q) :
  clear_residual B source w = (Ok tt, w1) ->
  get_available_volume w1 = (Ok h, w1) ->
  (reverse = true /\ (volume * (11 # 10) <= h)%Q ->
   guarded_aspirate_volume volume reverse h = (volume * (11 # 10))%Q)
  /\ (reverse = false \/ ~ (volume * (11 # 10) <= h)%Q ->
      guarded_aspirate_volume volume reverse h = volume)
  /\ ((exists a' h',
         fst (transfer B volume source destination touch_tip blow_out reverse w)
         = Raise (ValueError_volume a' h'))
      <-> (h < guarded_aspirate_volume volume reverse h)%Q)
  /\ ((h < guarded_aspirate_volume volume reverse h)%Q ->
      transfer B volume source destination touch_tip blow_out reverse w
      = (Raise (ValueError_volume (guarded_aspirate_volume volume reverse h) h), w1)
      /\ forallb (fun e => negb (is_aspirate e)) (new_events w w1) = true)
  /\ (~ (h < guarded_aspirate_volume volume reverse h)%Q ->
      exists rest,
        new_events w1
          (snd (transfer B volume source destination touch_tip blow_out reverse w))
        = Aspirate (guarded_aspirate_volume volume reverse h) source :: rest).
Proof.
  intros Hclear Hhead.
  pose proof (transfer_eq B volume source destination touch_tip blow_out reverse w) as Heq.
  rewrite Hclear, Hhead in Heq. cbn [fst] in Heq. cbv zeta in Heq.
  set (a := guarded_aspirate_volume volume reverse h) in *.
  split; [|split; [|split; [|split]]].
  - intros [-> Hle]. subst a. unfold guarded_aspirate_volume.
    apply Qle_bool_iff in Hle. now rewrite Hle.
  - intros Hcase. subst a. unfold guarded_aspirate_volume.
    destruct Hcase as [-> | Hnot]; [reflexivity|].
    destruct (Qle_bool (volume * (11 # 10)) h) eqn:Hb.
    + apply Qle_bool_iff in Hb. contradiction.
    + now rewrite andb_false_r.
  - rewrite Heq. split.
    + intros [a' [h' Hraise]].
      destruct (negb (Qle_bool a h)) eqn:Hcheck; [now apply guard_rejects_iff|].
      destruct (deliver_outcome B a volume source destination touch_tip blow_out w1)
        as [_ [[r Hr] | [code Hr]]]; rewrite Hr in Hraise; discriminate.
    + intros Hlt. apply guard_rejects_iff in Hlt. rewrite Hlt. now exists a, h.
  - intros Hlt. apply guard_rejects_iff in Hlt. rewrite Hlt in Heq.
    split; [exact Heq|].
    destruct (clear_residual_ok B source w w1 tt Hclear) as [Htrace _].
    rewrite (new_events_of_trace w w1 _ Htrace). apply clearing_has_no_aspirate.
  - intros Hnot.
    destruct (negb (Qle_bool a h)) eqn:Hcheck;
      [apply guard_rejects_iff in Hcheck; contradiction|].
    rewrite Heq.
    destruct (deliver_outcome B a volume source destination touch_tip blow_out w1)
      as [[rest Hrest] _].
    exists rest. now apply new_events_of_trace.
Qed.

Lemma transfer_volume_guard_witness :
  clear_residual Ot2.base (Reservoir "A1" 5)
    (mkWorld (mkPipette 1 [Ot2.full_rack 12 10] true 10 0) [])
  = (Ok tt, mkWorld (mkPipette 1 [Ot2.full_rack 12 10] true 10 0) [])
  /\ get_available_volume (mkWorld (mkPipette 1 [Ot2.full_rack 12 10] true 10 0) [])
     = (Ok (10 - 0)%Q, mkWorld (mkPipette 1 [Ot2.full_rack 12 10] true 10 0) [])
  /\ (exists a' h',
        fst (transfer Ot2.base 15 (Reservoir "A1" 5) (PlateWell "plate_2" "B" 2)
               true false false
               (mkWorld (mkPipette 1 [Ot2.full_rack 12 10] true 10 0) []))
        = Raise (ValueError_volume a' h')).
Proof.
  split; [reflexivity | split; [reflexivity |]].
  apply (proj1 (proj2 (proj2 (transfer_volume_guard Ot2.base 15 (Reservoir "A1" 5)
                                (PlateWell "plate_2" "B" 2) true false false
                                (mkWorld (mkPipette 1 [Ot2.full_rack 12 10] true 10 0) [])
                                (mkWorld (mkPipette 1 [Ot2.full_rack 12 10] true 10 0) [])
                                (10 - 0)%Q eq_refl eq_refl)))).
  reflexivity.
Defined.

Lemma cleared_volume_zero (B : Base) (source : Location) (w w1 : World) :
  volume_tracked B ->
  clear_residual B source w = (Ok tt, w1) ->
  (current_volume (self w1) == 0)%Q.
Proof.
  intros [_ [Hdispense _]] Hclear.
  destruct (clear_residual_ok B source w w1 tt Hclear) as [_ Hstep].
  destruct (Py.truthy (current_volume (self w))) eqn:Htruthy.
  - rewrite (Hdispense _ _ _ _ Hstep). lra.
  - subst w1. unfold Py.truthy in Htruthy. apply negb_false_iff in Htruthy.
    now apply Qeq_bool_eq.
Qed.

(** C5.  A transfer that returns has made these calls, in this order: the
    residual volume, if any, dispensed into the source; the aspiration of
    the guarded volume from the source; the dispense of the requested
    volume into the destination; the blow-out and the touch-tip at the
    destination if asked for.  It returns the volume the pipette then
    holds; with a base that tracks the liquid moved this is the 10% margin
    if the margin was aspirated and not blown out, and 0 otherwise. *)
Theorem transfer_steps_in_order (B : Base) (volume : Q) (source destination : Location)
    (touch_tip blow_out reverse : bool) (w w' : World) (r : Q) :
  transfer B volume source destination touch_tip blow_out reverse w = (Ok r, w') ->
  exists w1 h,
    clear_residual B source w = (Ok tt, w1) /\
    get_available_volume w1 = (Ok h, w1) /\
    new_events w w' =
      clearing_events (current_volume (self w)) source ++
      delivery_events (guarded_aspirate_volume volume reverse h) volume
        source destination touch_tip blow_out /\
    r = current_volume (self w') /\
    (volume_tracked B ->
     (r == if (reverse && Qle_bool (volume * (11 # 10)) h) && negb blow_out
           then volume * (1 # 10) else 0)%Q).
Proof.
  rewrite transfer_eq.
  destruct (clear_residual B source w) as [[[]|e] w1] eqn:Hclear; [|discriminate].
  pose proof (get_available_volume_reads w1) as Hreads.
  destruct (fst (get_available_volume w1)) as [h|e]; [|discriminate].
  cbv zeta. set (a := guarded_aspirate_volume volume reverse h).
  destruct (negb (Qle_bool a h)); [discriminate|].
  intros Hdeliver. exists w1, h.
  destruct (deliver_ok B a volume source destination touch_tip blow_out w1 w' r Hdeliver)
    as [p2 [p3 [p4 [H2 [H3 [H4 [H5 [Htrace Hr]]]]]]]].
  destruct (clear_residual_ok B source w w1 tt Hclear) as [Htrace1 _].
  split; [reflexivity | split; [exact Hreads | split; [|split; [exact Hr|]]]].
  - apply new_events_of_trace. now rewrite Htrace, Htrace1, <- app_assoc.
  - intros Hlaws.
    pose proof (cleared_volume_zero B source w w1 Hlaws Hclear) as Hzero.
    destruct Hlaws as [Lasp [Ldis [Lblow Ltouch]]].
    pose proof (Lasp _ _ _ _ H2) as E2. pose proof (Ldis _ _ _ _ H3) as E3.
    assert (E5 : (current_volume (self w') == current_volume p4)%Q).
    { destruct touch_tip; [exact (Ltouch _ _ _ H5) | rewrite H5; reflexivity]. }
    rewrite Hr, E5. subst a. unfold guarded_aspirate_volume in E2.
    destruct blow_out.
    + rewrite (Lblow _ _ _ H4), andb_false_r. reflexivity.
    + subst p4. rewrite andb_true_r.
      destruct (reverse && Qle_bool (volume * (11 # 10)) h); lra.
Qed.

(** The reference driver tracks the liquid moved. *)
Lemma ot2_volume_tracked : volume_tracked Ot2.base.
Proof.
  repeat split.
  - intros v l p p' H. cbn [Ot2.base base_aspirate] in H. unfold Ot2.aspirate in H.
    destruct (has_tip p); [|discriminate]. injection H as <-. reflexivity.
  - intros v l p p' H. cbn [Ot2.base base_dispense] in H. unfold Ot2.dispense in H.
    destruct (has_tip p); [|discriminate]. injection H as <-. reflexivity.
  - intros l p p' [= <-]. reflexivity.
  - intros l p p' [= <-]. reflexivity.
Qed.

Lemma transfer_steps_in_order_witness :
  transfer Ot2.base 10 (Reservoir "A1" 5) (PlateWell "plate_2" "B" 2) true false true
    (mkWorld (mkPipette 1 [Ot2.full_rack 12 300] true 300 3) [])
  = (Ok (3 - 3 + 10 * (11 # 10) - 10)%Q,
     mkWorld (mkPipette 1 [Ot2.full_rack 12 300] true 300 (3 - 3 + 10 * (11 # 10) - 10)%Q)
       [Dispense 3 (Reservoir "A1" 5);
        Aspirate (10 * (11 # 10))%Q (Reservoir "A1" 5);
        Dispense 10 (PlateWell "plate_2" "B" 2);
        Touch_tip (PlateWell "plate_2" "B" 2)])
  /\ volume_tracked Ot2.base
  /\ exists h,
       get_available_volume
         (mkWorld (mkPipette 1 [Ot2.full_rack 12 300] true 300 (3 - 3)%Q)
            [Dispense 3 (Reservoir "A1" 5)])
       = (Ok h, mkWorld (mkPipette 1 [Ot2.full_rack 12 300] true 300 (3 - 3)%Q)
                  [Dispense 3 (Reservoir "A1" 5)]) /\
       ((3 - 3 + 10 * (11 # 10) - 10) ==
        if (true && Qle_bool (10 * (11 # 10)) h) && negb false
        then 10 * (1 # 10) else 0)%Q.
Proof.
  split; [reflexivity | split; [exact ot2_volume_tracked |]].
  destruct (transfer_steps_in_order Ot2.base 10 (Reservoir "A1" 5)
              (PlateWell "plate_2" "B" 2) true false true
              (mkWorld (mkPipette 1 [Ot2.full_rack 12 300] true 300 3) [])
              _ _ eq_refl) as [w1 [h [Hc [Hh [_ [_ Hlaw]]]]]].
  injection Hc as <-. exists h. split; [exact Hh | exact (Hlaw ot2_volume_tracked)].
Defined.

(** ** The plan of a plate column *)

Lemma first_true_none (l : list bool) (i0 : nat) :
  (forall i, nth i l false = false) -> first_true i0 l = None.
Proof.
  revert i0. induction l as [|x l IH]; intros i0 Hnone; [reflexivity|].
  cbn [first_true]. rewrite (Hnone 0%nat : x = false).
  apply IH. intros i. exact (Hnone (S i)).
Qed.

Lemma first_true_some (l : list bool) (i0 start : nat) :
  nth start l false = true ->
  (forall j, (j < start)%nat -> nth j l false = false) ->
  first_true i0 l = Some (i0 + start)%nat.
Proof.
  revert i0 start. induction l as [|x l IH]; intros i0 start Hat Hbefore.
  - destruct start; discriminate.
  - destruct start as [|start]; cbn [first_true nth] in *.
    + rewrite Hat. now rewrite Nat.add_0_r.
    + rewrite (Hbefore 0%nat (Nat.lt_0_succ _) : x = false).
      rewrite (IH (S i0) start Hat); [f_equal; lia|].
      intros j Hj. apply (Hbefore (S j)). lia.
Qed.

Lemma py_sum_from (l : list bool) (acc : Z) :
  fold_left (fun a (x : bool) => a + (if x then 1 else 0)) l acc =
  acc + Z.of_nat (count_occ bool_dec l true).
Proof.
  revert acc. induction l as [|x l IH]; intros acc; cbn [fold_left count_occ]; [lia|].
  rewrite IH. destruct x; destruct (bool_dec _ true); try discriminate; try congruence;
    cbn [count_occ]; lia.
Qed.

Lemma py_sum_count (l : list bool) : py_sum l = Z.of_nat (count_occ bool_dec l true).
Proof. unfold py_sum. now rewrite py_sum_from. Qed.

Lemma nth_true_in (l : list bool) (i : nat) : nth i l false = true -> In true l.
Proof.
  revert i. induction l as [|x l IH]; intros [|i]; cbn [nth]; try discriminate.
  - intros ->. now left.
  - intros H. right. exact (IH i H).
Qed.


(** ** Rack shapes *)

Lemma eight_rows_iff_shape (racks : list Labware) :
  eight_rows racks <->
  Forall (Forall (fun n => n = 8%nat)) (map (map (@length Well.t)) racks).
Proof.
  unfold eight_rows. rewrite Forall_map. split; intros H;
    (eapply Forall_impl; [|exact H]); intros rack Hrack;
    cbv beta in *; rewrite Forall_map in *; exact Hrack.
Qed.

Lemma eight_rows_same_shape (racks racks' : list Labware) :
  same_shape racks racks' -> eight_rows racks -> eight_rows racks'.
Proof.
  unfold same_shape. intros Hshape H.
  apply eight_rows_iff_shape. rewrite Hshape. now apply eight_rows_iff_shape.
Qed.

Lemma refill_same_shape (racks : list Labware) : same_shape racks (refill racks).
Proof.
  unfold same_shape, refill. rewrite map_map. apply map_ext. intros rack.
  rewrite map_map. apply map_ext. intros column. apply length_map.
Qed.

(** ** The reference driver meets the laws *)

Lemma imap_nth_error {A C : Type} (f : nat -> A -> C) (i : nat) (l : list A) (k : nat) :
  nth_error (Ot2.imap f i l) k = option_map (f (i + k)%nat) (nth_error l k).
Proof.
  revert i k. induction l as [|x l IH]; intros i [|k]; cbn; try reflexivity.
  - now rewrite Nat.add_0_r.
  - rewrite IH. now rewrite Nat.add_succ_r.
Qed.

Lemma imap_map_inv {A C D : Type} (g : C -> D) (g' : A -> D) (f : nat -> A -> C)
    (i : nat) (l : list A) :
  (forall j x, g (f j x) = g' x) -> map g (Ot2.imap f i l) = map g' l.
Proof.
  intros H. revert i. induction l as [|x l IH]; intros i; cbn; [reflexivity|].
  now rewrite H, IH.
Qed.

Lemma map_wells_same_shape (f : WellRef -> Well.t -> Well.t) (racks : list Labware) :
  same_shape racks (Ot2.map_wells f racks).
Proof.
  unfold same_shape, Ot2.map_wells.
  apply imap_map_inv. intros r rack.
  apply imap_map_inv. intros c column.
  rewrite <- (map_id column) at 2. rewrite !length_map.
  clear. generalize 0%nat. induction column as [|x column IH]; intros i; cbn;
    [reflexivity | now rewrite IH].
Qed.

Lemma map_wells_lookup (f : WellRef -> Well.t -> Well.t) (racks : list Labware)
    (s : WellRef) :
  lookup_well (Ot2.map_wells f racks) s = option_map (f s) (lookup_well racks s).
Proof.
  destruct s as [r c row]. unfold lookup_well, Ot2.map_wells. cbn [rack_ix col_ix row_ix].
  rewrite imap_nth_error. cbn [Nat.add].
  destruct (nth_error racks r) as [rack|]; [|reflexivity]. cbn [option_map].
  rewrite imap_nth_error. cbn [Nat.add].
  destruct (nth_error rack c) as [column|]; [|reflexivity]. cbn [option_map].
  now rewrite imap_nth_error.
Qed.

Lemma ot2_pick_up_marks : pick_up_marks Ot2.base.
Proof.
  intros kwargs ref p p' Hloc Hpick. cbn [Ot2.base base_pick_up_tip] in Hpick.
  unfold Ot2.pick_up in Hpick. rewrite Hloc in Hpick.
  destruct (has_tip p); [discriminate|]. injection Hpick as <-.
  cbn [tip_racks Ot2.with_tip Ot2.with_racks]. unfold Ot2.use_tips.
  split; [apply map_wells_same_shape | split].
  - intros s. unfold available. rewrite map_wells_lookup.
    destruct (lookup_well (tip_racks p) s) as [well|]; [|discriminate].
    cbn [option_map]. now destruct (Ot2.under_nozzles ref (channels p) s).
  - intros j Hj. unfold available. rewrite map_wells_lookup.
    destruct (lookup_well (tip_racks p) _) as [well|]; [|reflexivity].
    cbn [option_map].
    replace (Ot2.under_nozzles ref (channels p)
               (mkRef (rack_ix ref) (col_ix ref) (row_ix ref + j))) with true;
      [reflexivity|].
    unfold Ot2.under_nozzles. cbn [rack_ix col_ix row_ix].
    rewrite !Nat.eqb_refl. cbn [andb].
    symmetry. apply andb_true_intro. split; [apply Nat.leb_le | apply Z.ltb_lt]; lia.
Qed.

Lemma ot2_reset_refills : reset_refills Ot2.base.
Proof. intros p p' [= <-]. now split. Qed.

Lemma ot2_drop_keeps_racks : drop_keeps_racks Ot2.base.
Proof.
  intros p p' H. cbn [Ot2.base base_drop_tip] in H. unfold Ot2.drop in H.
  destruct (has_tip p); [|discriminate]. now injection H as <-.
Qed.

(** ** Sequences of pick-ups and drops *)

Lemma call_ok_inv (e : Event) (f : Pipette -> Pipette + nat) (w w' : World) (u : unit) :
  call e f w = (Ok u, w') ->
  exists p', f (self w) = inl p' /\ w' = mkWorld p' (trace w ++ [e]).
Proof.
  unfold call. destruct (f (self w)) as [p'|code]; [|discriminate].
  intros [= _ <-]. now exists p'.
Qed.

Lemma picked_last (events : list Event) (kwargs : Kwargs) (ref : WellRef) :
  picked (events ++ [Super_pick_up_tip (set_location kwargs (TipWell ref))]) = Some ref.
Proof. unfold picked. now rewrite last_last. Qed.

(** What the inherited pick-up leaves behind a successful search. *)
Lemma after_pick (B : Base) (n : Z) (kwargs : Kwargs) (p p' : Pipette)
    (ref : WellRef) (well : Well.t) :
  pick_up_marks B ->
  eight_rows (tip_racks p) ->
  0 < n <= channels p ->
  next_tip_in (tip_racks p) n = Ok (ref, well) ->
  base_pick_up_tip B (set_location kwargs (TipWell ref)) p = inl p' ->
  starts_run (tip_racks p) (Z.to_nat n) ref = true /\
  eight_rows (tip_racks p') /\
  (forall s, available (tip_racks p') s = true -> available (tip_racks p) s = true) /\
  (forall s, In s (run_slots ref (Z.to_nat n)) -> available (tip_racks p') s = false).
Proof.
  intros Hmarks Hshape Hn Hnext Hpick.
  destruct (next_tip_in_sound _ n ref well Hshape (proj1 Hn) Hnext) as [_ [Hrun _]].
  destruct (Hmarks (set_location kwargs (TipWell ref)) ref p p' eq_refl Hpick)
    as [Hsame [Hmono Hmarked]].
  split; [exact Hrun | split; [|split; [exact Hmono|]]].
  - exact (eight_rows_same_shape _ _ Hsame Hshape).
  - intros s Hin. unfold run_slots in Hin. apply in_map_iff in Hin.
    destruct Hin as [j [<- Hj]]. apply in_seq in Hj. apply Hmarked. lia.
Qed.

Lemma acquire_inv (B : Base) (n : Z) (w w' : World) (u : unit) :
  pick_up_marks B -> reset_refills B ->
  eight_rows (tip_racks (self w)) ->
  pick_up_tip B (PyInt n) no_kwargs w = (Ok u, w') ->
  exists ref searched,
    picked (trace w') = Some ref /\
    0 < n <= channels (self w) /\
    ((prompts w w' = 0%nat /\ searched = tip_racks (self w)) \/
     (prompts w w' = 1%nat /\ searched = refill (tip_racks (self w)))) /\
    starts_run searched (Z.to_nat n) ref = true /\
    eight_rows (tip_racks (self w')) /\
    (forall s, available (tip_racks (self w')) s = true -> available searched s = true) /\
    (forall s, In s (run_slots ref (Z.to_nat n)) ->
               available (tip_racks (self w')) s = false).
Proof.
  intros Hmarks Hreset Hshape Hpick.
  assert (Hn : 0 < n <= channels (self w)).
  { destruct (Z_lt_le_dec 0 n) as [Hpos|Hneg];
      [destruct (Z_le_gt_dec n (channels (self w))) as [Hle|Hgt]; [lia|]|];
      rewrite pick_up_tip_invalid in Hpick; try discriminate; try reflexivity;
      cbn; lia. }
  rewrite (pick_up_tip_searched B (PyInt n) n no_kwargs w eq_refl eq_refl Hn) in Hpick.
  destruct (next_tip_in (tip_racks (self w)) n) as [[ref well]|e] eqn:Hfirst.
  - cbn [fst] in Hpick. apply call_ok_inv in Hpick. destruct Hpick as [p' [Hbase ->]].
    destruct (after_pick B n no_kwargs (self w) p' ref well Hmarks Hshape Hn Hfirst Hbase)
      as [Hrun [Hshape' [Hmono Hmarked]]].
    exists ref, (tip_racks (self w)). cbn [self trace].
    split; [apply picked_last | split; [exact Hn | split; [left; split; [|reflexivity] |]]].
    + unfold prompts. now rewrite new_events_app.
    + now repeat split.
  - destruct e; try discriminate.
    destruct (base_reset_tipracks B (self w)) as [p1|code] eqn:Hres; [|discriminate].
    cbv zeta in Hpick.
    destruct (Hreset _ _ Hres) as [Hchans Hracks].
    destruct (next_tip_in (tip_racks p1) n) as [[ref well]|e] eqn:Hretry; [|discriminate].
    cbn [fst] in Hpick. apply call_ok_inv in Hpick. destruct Hpick as [p' [Hbase ->]].
    cbn [self trace] in *.
    assert (Hshape1 : eight_rows (tip_racks p1))
      by (rewrite Hracks; exact (eight_rows_same_shape _ _ (refill_same_shape _) Hshape)).
    assert (Hn1 : 0 < n <= channels p1) by (rewrite Hchans; exact Hn).
    destruct (after_pick B n no_kwargs p1 p' ref well Hmarks Hshape1 Hn1 Hretry Hbase)
      as [Hrun [Hshape' [Hmono Hmarked]]].
    exists ref, (refill (tip_racks (self w))). rewrite <- Hracks.
    split; [apply picked_last | split; [exact Hn | split; [right; split; [|reflexivity] |]]].
    + unfold prompts. rewrite <- app_assoc. now rewrite new_events_app.
    + now repeat split.
Qed.

Lemma run_available (racks : list Labware) (n : nat) (ref : WellRef) :
  starts_run racks n ref = true ->
  forall s, In s (run_slots ref n) -> available racks s = true.
Proof.
  unfold starts_run. intros H. apply andb_prop in H. destruct H as [_ H].
  now apply forallb_forall.
Qed.

(** What a valid [Acquire] returns and leaves. *)
Lemma step_acquire_inv (B : Base) (n : Z) (L L' : Ledger) :
  pick_up_marks B -> reset_refills B ->
  eight_rows (racks_of L) ->
  step B (Acquire n) L = Some L' ->
  exists t searched,
    live L = [] /\ live L' = [t] /\ tip_count t = Z.to_nat n /\
    0 < n <= channels (self (world L)) /\
    ((prompts (world L) (world L') = 0%nat /\ searched = racks_of L /\
      issued L' = t :: issued L) \/
     (prompts (world L) (world L') = 1%nat /\ searched = refill (racks_of L) /\
      issued L' = [t])) /\
    (forall s, In s (slots t) -> available searched s = true) /\
    eight_rows (racks_of L') /\
    (forall s, available (racks_of L') s = true -> available searched s = true) /\
    (forall s, In s (slots t) -> available (racks_of L') s = false).
Proof.
  intros Hmarks Hreset Hshape Hstep. unfold step in Hstep.
  destruct (live L) as [|t0 rest] eqn:Hlive; [|discriminate].
  destruct (pick_up_tip B (PyInt n) no_kwargs (world L)) as [[u|e] w'] eqn:Hpick;
    [|discriminate].
  destruct (acquire_inv B n (world L) w' u Hmarks Hreset Hshape Hpick)
    as [ref [searched [Hpicked [Hn [Hcase [Hrun [Hshape' [Hmono Hmarked]]]]]]]].
  rewrite Hpicked in Hstep. injection Hstep as <-.
  exists (mkTipSet ref (Z.to_nat n)), searched.
  unfold racks_of, slots. cbn [world live issued first_slot tip_count].
  split; [reflexivity | split; [reflexivity | split; [reflexivity | split; [exact Hn|]]]].
  split.
  - destruct Hcase as [[Hp ->] | [Hp ->]]; rewrite Hp; [left | right]; now repeat split.
  - split; [exact (run_available _ _ _ Hrun) | now repeat split].
Qed.

Lemma step_preserves (B : Base) (op : Op) (L L' : Ledger) :
  pick_up_marks B -> reset_refills B -> drop_keeps_racks B ->
  ledger_ok L -> step B op L = Some L' -> ledger_ok L'.
Proof.
  intros Hmarks Hreset Hdrop [Hshape [Hused [Hdisj [Hlive Hone]]]] Hstep.
  destruct op as [n|].
  - destruct (step_acquire_inv B n L L' Hmarks Hreset Hshape Hstep)
      as [t [searched [_ [Hlive' [_ [_ [Hcase [Havail [Hshape' [Hmono Hmarked]]]]]]]]]].
    unfold ledger_ok. rewrite Hlive'.
    destruct Hcase as [[_ [-> ->]] | [_ [_ ->]]].
    + split; [exact Hshape' | split; [|split; [|split]]].
      * intros t' s [<- | Hold] Hs; [now apply Hmarked|].
        destruct (available (racks_of L') s) eqn:Hnow; [|reflexivity].
        apply Hmono in Hnow. rewrite (Hused t' s Hold Hs) in Hnow. discriminate.
      * constructor; [|exact Hdisj].
        apply Forall_forall. intros t' Hold [s [Hs Hs']].
        pose proof (Havail s Hs) as Hyes. rewrite (Hused t' s Hold Hs') in Hyes.
        discriminate.
      * intros t' [<- | []]. now left.
      * cbn. lia.
    + split; [exact Hshape' | split; [|split; [|split]]].
      * intros t' s [<- | []] Hs. now apply Hmarked.
      * repeat constructor.
      * intros t' [<- | []]. now left.
      * cbn. lia.
  - unfold step in Hstep.
    destruct (call Drop_tip (base_drop_tip B) (world L)) as [[u|e] w'] eqn:Hcall;
      [|discriminate].
    injection Hstep as <-. apply call_ok_inv in Hcall. destruct Hcall as [p' [Hbase ->]].
    unfold ledger_ok, racks_of in *. cbn [world live issued self].
    rewrite (Hdrop _ _ Hbase).
    split; [exact Hshape | split; [exact Hused | split; [exact Hdisj | split]]].
    + intros t [].
    + cbn. lia.
Qed.

Lemma reachable_ok (B : Base) (L0 L : Ledger) :
  pick_up_marks B -> reset_refills B -> drop_keeps_racks B ->
  ledger_ok L0 -> reachable B L0 L -> ledger_ok L.
Proof.
  intros Hmarks Hreset Hdrop Hok Hreach.
  induction Hreach as [|L L' op _ IH Hstep]; [exact Hok|].
  exact (step_preserves B op L L' Hmarks Hreset Hdrop IH Hstep).
Qed.

(** C8.  Along any sequence of valid pick-ups and drops of a pipette that
    starts with racks of 8-row columns and nothing held: each pick-up
    returns only slots that report a tip in the racks it searched (the
    current racks, or the replaced ones after the single prompt), and has
    them report no tip when it returns; so the tip sets handed out since the
    racks were last replaced never share a slot, all their slots report no
    tip, and the tip sets held at any time are among them and do not
    overlap. *)
Theorem tip_sets_never_overlap (B : Base) (L0 L : Ledger) :
  pick_up_marks B -> reset_refills B -> drop_keeps_racks B ->
  eight_rows (racks_of L0) -> live L0 = [] -> issued L0 = [] ->
  reachable B L0 L ->
  (forall n L', step B (Acquire n) L = Some L' ->
     exists t searched,
       live L' = [t] /\ tip_count t = Z.to_nat n /\
       0 < n <= channels (self (world L)) /\
       ((prompts (world L) (world L') = 0%nat /\ searched = racks_of L) \/
        (prompts (world L) (world L') = 1%nat /\ searched = refill (racks_of L))) /\
       (forall s, In s (slots t) -> available searched s = true) /\
       (forall s, In s (slots t) -> available (racks_of L') s = false))
  /\ disjoint_all (issued L)
  /\ (forall t s, In t (issued L) -> In s (slots t) -> available (racks_of L) s = false)
  /\ (forall t, In t (live L) -> In t (issued L))
  /\ disjoint_all (live L).
Proof.
  intros Hmarks Hreset Hdrop Hshape0 Hlive0 Hissued0 Hreach.
  assert (Hok0 : ledger_ok L0).
  { unfold ledger_ok. rewrite Hlive0, Hissued0.
    split; [exact Hshape0 | split; [intros t s [] | split; [constructor | split]]].
    - intros t [].
    - cbn. lia. }
  destruct (reachable_ok B L0 L Hmarks Hreset Hdrop Hok0 Hreach)
    as [Hshape [Hused [Hdisj [Hlive Hone]]]].
  split; [|split; [exact Hdisj | split; [exact Hused | split; [exact Hlive|]]]].
  - intros n L' Hstep.
    destruct (step_acquire_inv B n L L' Hmarks Hreset Hshape Hstep)
      as [t [searched [_ [Hlive' [Hcount [Hn [Hcase [Havail [_ [_ Hmarked]]]]]]]]]].
    exists t, searched.
    split; [exact Hlive' | split; [exact Hcount | split; [exact Hn | split]]].
    + destruct Hcase as [[Hp [Hs _]] | [Hp [Hs _]]]; [left | right]; now split.
    + now split.
  - unfold disjoint_all. destruct (live L) as [|t [|t' rest]].
    + constructor.
    + repeat constructor.
    + cbn in Hone. lia.
Qed.

Lemma run_ops_reachable (B : Base) (ops : list Op) (L0 L1 L : Ledger) :
  reachable B L0 L1 -> run_ops B ops L1 = Some L -> reachable B L0 L.
Proof.
  revert L1. induction ops as [|op rest IH]; intros L1 Hreach Hrun; cbn [run_ops] in Hrun.
  - now injection Hrun as <-.
  - destruct (step B op L1) as [L2|] eqn:Hstep; [|discriminate].
    apply (IH L2); [|exact Hrun]. exact (reach_step B L0 L1 L2 op Hreach Hstep).
Qed.

Lemma tip_sets_never_overlap_witness :
  pick_up_marks Ot2.base /\ reset_refills Ot2.base /\ drop_keeps_racks Ot2.base
  /\ exists L,
       run_ops Ot2.base [Acquire 3; Release; Acquire 4; Release; Acquire 2]
         (mkLedger (Ot2.fresh 8 [Ot2.full_rack 2 20] 20) [] []) = Some L
       /\ issued L = [mkTipSet (mkRef 0 1 6) 2; mkTipSet (mkRef 0 0 1) 4;
                      mkTipSet (mkRef 0 0 5) 3]
       /\ live L = [mkTipSet (mkRef 0 1 6) 2]
       /\ disjoint_all (issued L)
       /\ disjoint_all (live L).
Proof.
  split; [exact ot2_pick_up_marks | split; [exact ot2_reset_refills |
    split; [exact ot2_drop_keeps_racks |]]].
  eexists. split; [vm_compute; reflexivity|].
  split; [reflexivity | split; [reflexivity|]].
  match goal with
  | |- disjoint_all (issued ?L) /\ _ =>
      destruct (tip_sets_never_overlap Ot2.base
                  (mkLedger (Ot2.fresh 8 [Ot2.full_rack 2 20] 20) [] []) L
                  ot2_pick_up_marks ot2_reset_refills ot2_drop_keeps_racks
                  ltac:(repeat constructor) eq_refl eq_refl
                  (run_ops_reachable Ot2.base
                     [Acquire 3; Release; Acquire 4; Release; Acquire 2]
                     (mkLedger (Ot2.fresh 8 [Ot2.full_rack 2 20] 20) [] [])
                     (mkLedger (Ot2.fresh 8 [Ot2.full_rack 2 20] 20) [] []) L
                     (reach_start Ot2.base
                        (mkLedger (Ot2.fresh 8 [Ot2.full_rack 2 20] 20) [] []))
                     eq_refl))
        as [_ [Hissued [_ [_ Hlive]]]]
  end.
  split; [exact Hissued | exact Hlive].
Defined.

(** * Further properties of the script *)

(** ** [next_tip] outside its intended range *)

Lemma slice_empty {A : Type} (l : list A) (a b : Z) :
  Py.clamp (Z.of_nat (length l)) b <= Py.clamp (Z.of_nat (length l)) a ->
  Py.slice l a b = [].
Proof.
  intros H. unfold Py.slice. cbv zeta.
  replace (Z.to_nat _) with 0%nat by lia. reflexivity.
Qed.

Lemma index_in_range {A : Type} (l : list A) (i : nat) (d : A) :
  (i < length l)%nat -> Py.index l (Z.of_nat i) = Some (i, nth i l d).
Proof.
  intros Hi. unfold Py.index, Py.norm_index. cbv zeta.
  replace (Z.of_nat i <? 0) with false by (symmetry; apply Z.ltb_ge; lia).
  replace ((0 <=? Z.of_nat i) && (Z.of_nat i <? Z.of_nat (length l))) with true
    by (symmetry; apply andb_true_intro; split; [apply Z.leb_le | apply Z.ltb_lt]; lia).
  rewrite Nat2Z.id. now rewrite (nth_error_nth' l d Hi).
Qed.

Lemma scan_rows_nonpositive (column : Column) (truth : list bool) (n : Z)
    (rest : list nat) :
  n <= 0 -> length column = 8%nat -> length truth = 8%nat ->
  scan_rows column truth n (0%nat :: rest) = Ok (Some (7%nat, nth 7 column default_well)).
Proof.
  intros Hn Hcol Htruth. cbn [scan_rows]. change (7 - Z.of_nat 0) with 7.
  replace (7 + n >? 8) with false by (symmetry; rewrite Z.gtb_ltb; apply Z.ltb_ge; lia).
  rewrite slice_empty.
  - cbn [Py.all forallb]. change 7 with (Z.of_nat 7).
    rewrite (index_in_range column 7 default_well) by lia. reflexivity.
  - rewrite Htruth. unfold Py.clamp, Py.norm_index.
    change (7 <? 0) with false. cbv iota.
    destruct (7 + n <? 0) eqn:Hneg; [apply Z.ltb_lt in Hneg | apply Z.ltb_ge in Hneg]; lia.
Qed.

(** X1.  A count of zero or less is not rejected by [next_tip]: on a first
    rack whose first column has 8 rows it returns the bottom well of that
    column, whether or not any slot has a tip. *)
Theorem next_tip_nonpositive_ignores_tips (column : Column) (columns : list Column)
    (rest : list Labware) (n : Z) :
  n <= 0 -> length column = 8%nat ->
  next_tip_in ((column :: columns) :: rest) n
  = Ok (mkRef 0 0 7, nth 7 column default_well).
Proof.
  intros Hn Hlen. unfold next_tip_in. cbn [scan_racks scan_columns map nth].
  rewrite Hlen. cbn [seq].
  rewrite scan_rows_nonpositive; [reflexivity | exact Hn | exact Hlen |].
  now rewrite length_map.
Qed.

Lemma next_tip_nonpositive_ignores_tips_witness :
  0 <= 0 /\ length (repeat (Well.mk false 20) 8) = 8%nat
  /\ next_tip_in [Ot2.empty_rack 12 20] 0 = Ok (mkRef 0 0 7, Well.mk false 20).
Proof.
  split; [lia | split; [reflexivity|]].
  exact (next_tip_nonpositive_ignores_tips (repeat (Well.mk false 20) 8)
           (repeat (repeat (Well.mk false 20) 8) 11) [] 0 (Z.le_refl 0) eq_refl).
Defined.

Lemma scan_rows_short_column (column : Column) :
  (1 <= length column <= 7)%nat ->
  scan_rows column (map Well.has_tip column) 1 (seq 0 (length column)) = Raise IndexError.
Proof.
  intros Hlen.
  do 8 (destruct column as [|? column]; [cbn in Hlen; try lia; reflexivity|]).
  cbn in Hlen. lia.
Qed.

(** X2.  The search counts rows from index 7 whatever the rack: when the
    first column of the first rack has between 1 and 7 rows, [next_tip(1)]
    raises [IndexError], and a [pick_up_tip(1)] lets it through without
    prompting for new racks. *)
Theorem short_column_index_error (B : Base) (kwargs : Kwargs) (w : World)
    (column : Column) (columns : list Column) (rest : list Labware) :
  tip_racks (self w) = (column :: columns) :: rest ->
  (1 <= length column <= 7)%nat ->
  location kwargs = None ->
  0 < channels (self w) ->
  next_tip 1 w = (Raise IndexError, w)
  /\ pick_up_tip B (PyInt 1) kwargs w = (Raise IndexError, w).
Proof.
  intros Hracks Hlen Hloc Hchans.
  assert (Hnext : next_tip_in (tip_racks (self w)) 1 = Raise IndexError).
  { rewrite Hracks. unfold next_tip_in. cbn [scan_racks scan_columns map nth].
    now rewrite (scan_rows_short_column column Hlen). }
  split.
  - unfold next_tip. now rewrite Hnext.
  - rewrite (pick_up_tip_searched B (PyInt 1) 1 kwargs w Hloc eq_refl) by lia.
    now rewrite Hnext.
Qed.

Lemma short_column_index_error_witness :
  tip_racks (self (Ot2.fresh 1 [[repeat (Well.mk true 1000) 4]] 1000))
  = (repeat (Well.mk true 1000) 4 :: []) :: []
  /\ (1 <= length (repeat (Well.mk true 1000) 4) <= 7)%nat
  /\ location no_kwargs = None
  /\ 0 < channels (self (Ot2.fresh 1 [[repeat (Well.mk true 1000) 4]] 1000))
  /\ pick_up_tip Ot2.base (PyInt 1) no_kwargs
       (Ot2.fresh 1 [[repeat (Well.mk true 1000) 4]] 1000)
     = (Raise IndexError, Ot2.fresh 1 [[repeat (Well.mk true 1000) 4]] 1000).
Proof.
  assert (Hlen : (1 <= length (repeat (Well.mk true 1000) 4) <= 7)%nat) by (cbn; lia).
  assert (Hch : 0 < channels (self (Ot2.fresh 1 [[repeat (Well.mk true 1000) 4]] 1000)))
    by (cbn; lia).
  split; [reflexivity | split; [exact Hlen | split; [reflexivity | split; [exact Hch|]]]].
  exact (proj2 (short_column_index_error Ot2.base no_kwargs
                  (Ot2.fresh 1 [[repeat (Well.mk true 1000) 4]] 1000)
                  _ _ _ eq_refl Hlen eq_refl Hch)).
Defined.

(** X3.  A count above 8 passes the channel check of a pipette with more
    than 8 channels but fits in no column: [pick_up_tip] prompts, resets
    the racks and then fails with [OutOfTipsError] all the same. *)
Theorem count_above_eight_unsatisfiable (B : Base) (number : PyVal) (n : Z)
    (kwargs : Kwargs) (w : World) (p1 : Pipette) :
  location kwargs = None ->
  isinstance_int number = Some n ->
  8 < n <= channels (self w) ->
  eight_rows (tip_racks (self w)) ->
  reset_refills B ->
  base_reset_tipracks B (self w) = inl p1 ->
  pick_up_tip B number kwargs w
  = (Raise OutOfTipsError, mkWorld p1 (trace w ++ [Input; Super_reset_tipracks])).
Proof.
  intros Hloc Hint Hn Hshape Hlaw Hreset.
  rewrite (pick_up_tip_searched B number n kwargs w Hloc Hint) by lia.
  rewrite (next_tip_in_too_many _ n Hshape) by lia.
  rewrite Hreset. cbv zeta.
  destruct (Hlaw _ _ Hreset) as [_ Hracks].
  rewrite next_tip_in_too_many; [reflexivity | | lia].
  rewrite Hracks. exact (eight_rows_same_shape _ _ (refill_same_shape _) Hshape).
Qed.

Lemma count_above_eight_unsatisfiable_witness :
  location no_kwargs = None
  /\ isinstance_int (PyInt 9) = Some 9
  /\ 8 < 9 <= channels (self (Ot2.fresh 96 [Ot2.full_rack 12 1000] 1000))
  /\ eight_rows (tip_racks (self (Ot2.fresh 96 [Ot2.full_rack 12 1000] 1000)))
  /\ reset_refills Ot2.base
  /\ fst (pick_up_tip Ot2.base (PyInt 9) no_kwargs
            (Ot2.fresh 96 [Ot2.full_rack 12 1000] 1000)) = Raise OutOfTipsError.
Proof.
  assert (Hn : 8 < 9 <= channels (self (Ot2.fresh 96 [Ot2.full_rack 12 1000] 1000)))
    by (cbn; lia).
  assert (Hshape : eight_rows
            (tip_racks (self (Ot2.fresh 96 [Ot2.full_rack 12 1000] 1000))))
    by (repeat constructor).
  split; [reflexivity | split; [reflexivity | split; [exact Hn | split; [exact Hshape |
    split; [exact ot2_reset_refills |]]]]].
  now rewrite (count_above_eight_unsatisfiable Ot2.base (PyInt 9) 9 no_kwargs
                 (Ot2.fresh 96 [Ot2.full_rack 12 1000] 1000) _
                 eq_refl eq_refl Hn Hshape ot2_reset_refills eq_refl).
Defined.

(** ** What [pick_up_tip] calls *)

(** The calls of any [pick_up_tip]: nothing (it raised before calling), the
    pick-up alone, prompt and reset, or prompt, reset and pick-up.  Without a
    pick-up at the end it has raised. *)
Lemma pick_up_tip_trace (B : Base) (number : PyVal) (kwargs : Kwargs) (w : World) :
  exists l,
    trace (snd (pick_up_tip B number kwargs w)) = trace w ++ l /\
    ((l = [] /\ exists e, fst (pick_up_tip B number kwargs w) = Raise e) \/
     (exists kw, l = [Super_pick_up_tip kw]) \/
     (l = [Input; Super_reset_tipracks] /\
      exists e, fst (pick_up_tip B number kwargs w) = Raise e) \/
     (exists kw, l = [Input; Super_reset_tipracks; Super_pick_up_tip kw])).
Proof.
  destruct (location kwargs) as [l0|] eqn:Hloc.
  - rewrite (pick_up_tip_with_location B number kwargs l0 w Hloc).
    exists [Super_pick_up_tip kwargs]. split; [apply call_trace|].
    right. left. now exists kwargs.
  - assert (Hbad : ~ positive_integer_upto (channels (self w)) number ->
              exists l,
                trace (snd (pick_up_tip B number kwargs w)) = trace w ++ l /\
                ((l = [] /\ exists e, fst (pick_up_tip B number kwargs w) = Raise e) \/
                 (exists kw, l = [Super_pick_up_tip kw]) \/
                 (l = [Input; Super_reset_tipracks] /\
                  exists e, fst (pick_up_tip B number kwargs w) = Raise e) \/
                 (exists kw, l = [Input; Super_reset_tipracks; Super_pick_up_tip kw]))).
    { intros Hnot. rewrite (pick_up_tip_invalid B number kwargs w Hloc Hnot).
      exists []. cbn [fst snd]. split; [now rewrite app_nil_r|].
      left. split; [reflexivity | now eexists]. }
    destruct (isinstance_int number) as [n|] eqn:Hint.
    + destruct (Z_lt_le_dec 0 n) as [Hpos|Hneg];
        [destruct (Z_le_gt_dec n (channels (self w))) as [Hle|Hgt]|].
      * rewrite (pick_up_tip_searched B number n kwargs w Hloc Hint (conj Hpos Hle)).
        destruct (next_tip_in (tip_racks (self w)) n) as [t|e].
        { eexists. split; [apply call_trace|]. right. left. now eexists. }
        destruct e;
          try (exists []; cbn [fst snd]; split; [now rewrite app_nil_r|];
               left; split; [reflexivity | now eexists]).
        destruct (base_reset_tipracks B (self w)) as [p1|code].
        { cbv zeta. destruct (next_tip_in (tip_racks p1) n) as [t|e].
          - eexists. split.
            + rewrite call_trace. cbn [trace]. rewrite <- app_assoc. reflexivity.
            + right. right. right. now eexists.
          - exists [Input; Super_reset_tipracks]. cbn [fst snd trace].
            split; [reflexivity|]. right. right. left. split; [reflexivity | now eexists]. }
        exists [Input; Super_reset_tipracks]. cbn [fst snd trace].
        split; [reflexivity|]. right. right. left. split; [reflexivity | now eexists].
      * apply Hbad, not_valid_of_isinstance. intros n' Hn'.
        rewrite Hint in Hn'. injection Hn' as <-. lia.
      * apply Hbad, not_valid_of_isinstance. intros n' Hn'.
        rewrite Hint in Hn'. injection Hn' as <-. lia.
    + apply Hbad, not_valid_of_isinstance. intros n' Hn'. rewrite Hint in Hn'. discriminate.
Qed.

(** X4.  Whatever its arguments and the state of the racks, a
    [pick_up_tip] makes one of four sequences of calls: none, the inherited
    pick-up alone, the prompt followed by the rack reset, or prompt, reset
    and pick-up.  It never drops tips and never moves liquid, and it returns
    only when the inherited pick-up was its last call. *)
Theorem pick_up_tip_call_shapes (B : Base) (number : PyVal) (kwargs : Kwargs)
    (w : World) :
  (new_events w (snd (pick_up_tip B number kwargs w)) = [] \/
   (exists kw, new_events w (snd (pick_up_tip B number kwargs w))
               = [Super_pick_up_tip kw]) \/
   new_events w (snd (pick_up_tip B number kwargs w)) = [Input; Super_reset_tipracks] \/
   (exists kw, new_events w (snd (pick_up_tip B number kwargs w))
               = [Input; Super_reset_tipracks; Super_pick_up_tip kw]))
  /\ (fst (pick_up_tip B number kwargs w) = Ok tt ->
      exists kw before,
        new_events w (snd (pick_up_tip B number kwargs w))
        = before ++ [Super_pick_up_tip kw]).
Proof.
  destruct (pick_up_tip_trace B number kwargs w) as [l [Htrace Hshape]].
  rewrite (new_events_of_trace _ _ _ Htrace). split.
  - destruct Hshape as [[-> _] | [[kw ->] | [[-> _] | [kw ->]]]].
    + now left.
    + right. left. now exists kw.
    + right. right. now left.
    + right. right. right. now exists kw.
  - intros Hok.
    destruct Hshape as [[_ [e He]] | [[kw ->] | [[_ [e He]] | [kw ->]]]].
    + rewrite He in Hok. discriminate.
    + now exists kw, [].
    + rewrite He in Hok. discriminate.
    + now exists kw, [Input; Super_reset_tipracks].
Qed.

(** X5.  When some column holds a run, [pick_up_tip(n)] neither prompts nor
    resets: its one call is the inherited pick-up, at the first well of the
    search order that starts a run, with the caller's other keyword
    arguments passed on unchanged. *)
Theorem pick_up_tip_takes_first_fit (B : Base) (number : PyVal) (n : Z)
    (kwargs : Kwargs) (w : World) (ref : WellRef) :
  location kwargs = None ->
  isinstance_int number = Some n ->
  0 < n <= channels (self w) ->
  eight_rows (tip_racks (self w)) ->
  find (starts_run (tip_racks (self w)) (Z.to_nat n)) (search_order (tip_racks (self w)))
  = Some ref ->
  pick_up_tip B number kwargs w
  = call (Super_pick_up_tip (mkKwargs (Some (TipWell ref)) (others kwargs)))
         (base_pick_up_tip B (mkKwargs (Some (TipWell ref)) (others kwargs))) w
  /\ new_events w (snd (pick_up_tip B number kwargs w))
     = [Super_pick_up_tip (mkKwargs (Some (TipWell ref)) (others kwargs))].
Proof.
  intros Hloc Hint Hn Hshape Hfind.
  assert (Hle : n <= 8).
  { destruct (find_some _ _ Hfind) as [_ Hrun]. unfold starts_run in Hrun.
    apply andb_prop in Hrun. destruct Hrun as [Hfit _]. apply Nat.leb_le in Hfit. lia. }
  assert (Heq : pick_up_tip B number kwargs w
                = call (Super_pick_up_tip (mkKwargs (Some (TipWell ref)) (others kwargs)))
                    (base_pick_up_tip B (mkKwargs (Some (TipWell ref)) (others kwargs))) w).
  { rewrite (pick_up_tip_searched B number n kwargs w Hloc Hint Hn).
    rewrite (next_tip_in_spec _ n Hshape) by lia. now rewrite Hfind. }
  split; [exact Heq|]. rewrite Heq.
  apply (call_new_events _ _ w w []). now rewrite app_nil_r.
Qed.

Lemma pick_up_tip_takes_first_fit_witness :
  location (mkKwargs None [("presses"%string, PyInt 3)]) = None
  /\ isinstance_int (PyInt 1) = Some 1
  /\ 0 < 1 <= channels (self (Ot2.fresh 1 [Ot2.empty_rack 3 300; Ot2.full_rack 12 300] 300))
  /\ eight_rows (tip_racks (self (Ot2.fresh 1 [Ot2.empty_rack 3 300; Ot2.full_rack 12 300] 300)))
  /\ new_events (Ot2.fresh 1 [Ot2.empty_rack 3 300; Ot2.full_rack 12 300] 300)
       (snd (pick_up_tip Ot2.base (PyInt 1) (mkKwargs None [("presses"%string, PyInt 3)])
               (Ot2.fresh 1 [Ot2.empty_rack 3 300; Ot2.full_rack 12 300] 300)))
     = [Super_pick_up_tip (mkKwargs (Some (TipWell (mkRef 1 0 7))) [("presses"%string, PyInt 3)])].
Proof.
  assert (Hn : 0 < 1 <= channels
                 (self (Ot2.fresh 1 [Ot2.empty_rack 3 300; Ot2.full_rack 12 300] 300)))
    by (cbn; lia).
  assert (Hshape : eight_rows (tip_racks
            (self (Ot2.fresh 1 [Ot2.empty_rack 3 300; Ot2.full_rack 12 300] 300))))
    by (repeat constructor).
  split; [reflexivity | split; [reflexivity | split; [exact Hn | split; [exact Hshape|]]]].
  exact (proj2 (pick_up_tip_takes_first_fit Ot2.base (PyInt 1) 1
                  (mkKwargs None [("presses"%string, PyInt 3)])
                  (Ot2.fresh 1 [Ot2.empty_rack 3 300; Ot2.full_rack 12 300] 300)
                  (mkRef 1 0 7) eq_refl eq_refl Hn Hshape eq_refl)).
Defined.

(** On a full first column the run is taken at its bottom. *)
Lemma scan_rows_full_column (column : Column) (n : Z) :
  length column = 8%nat -> 1 <= n <= 8 ->
  Forall (fun well => Well.has_tip well = true) column ->
  scan_rows column (map Well.has_tip column) n (seq 0 8)
  = Ok (Some (Z.to_nat (8 - n), nth (Z.to_nat (8 - n)) column default_well)).
Proof.
  intros Hlen Hn Hfull.
  do 9 (destruct column as [|[? ?] column]; try discriminate Hlen).
  repeat match goal with
         | H : Forall _ (_ :: _) |- _ => inversion H; clear H; subst
         end.
  cbn [Well.has_tip] in *. subst.
  destruct (count_cases n Hn) as [->|[->|[->|[->|[->|[->|[->| ->]]]]]]]; reflexivity.
Qed.

Lemma next_tip_in_full_first_column (column : Column) (columns : list Column)
    (rest : list Labware) (n : Z) :
  length column = 8%nat -> 1 <= n <= 8 ->
  Forall (fun well => Well.has_tip well = true) column ->
  next_tip_in ((column :: columns) :: rest) n
  = Ok (mkRef 0 0 (Z.to_nat (8 - n)), nth (Z.to_nat (8 - n)) column default_well).
Proof.
  intros Hlen Hn Hfull. unfold next_tip_in. cbn [scan_racks scan_columns map nth].
  rewrite Hlen. now rewrite (scan_rows_full_column column n Hlen Hn Hfull).
Qed.

(** X6.  After the prompt the search cannot fail on a real rack: with the
    racks reset to full, a valid count [n] of at most 8 is picked up at the
    bottom of the first column of the first rack, rows [8 - n] to 7. *)
Theorem refill_takes_bottom_of_first_column (B : Base) (number : PyVal) (n : Z)
    (kwargs : Kwargs) (w : World) (p1 : Pipette)
    (column : Column) (columns : list Column) (rest : list Labware) :
  location kwargs = None ->
  isinstance_int number = Some n ->
  0 < n <= channels (self w) -> n <= 8 ->
  tip_racks (self w) = (column :: columns) :: rest ->
  eight_rows (tip_racks (self w)) ->
  (forall ref, starts_run (tip_racks (self w)) (Z.to_nat n) ref = false) ->
  reset_refills B ->
  base_reset_tipracks B (self w) = inl p1 ->
  pick_up_tip B number kwargs w
  = call (Super_pick_up_tip (set_location kwargs (TipWell (mkRef 0 0 (Z.to_nat (8 - n))))))
         (base_pick_up_tip B
            (set_location kwargs (TipWell (mkRef 0 0 (Z.to_nat (8 - n))))))
         (mkWorld p1 (trace w ++ [Input; Super_reset_tipracks])).
Proof.
  intros Hloc Hint Hn Hle Hracks Hshape Hnone Hlaw Hreset.
  rewrite (pick_up_tip_searched B number n kwargs w Hloc Hint Hn).
  rewrite (next_tip_in_exhausted _ n Hshape (proj1 Hn) Hnone), Hreset. cbv zeta.
  destruct (Hlaw _ _ Hreset) as [_ Hfilled]. rewrite Hfilled, Hracks.
  assert (Hlen : length column = 8%nat).
  { rewrite Hracks in Hshape. inversion Hshape as [|? ? Hrack _]; subst.
    now inversion Hrack. }
  cbn [refill map].
  rewrite (next_tip_in_full_first_column (map fill column)); try lia.
  - reflexivity.
  - now rewrite length_map.
  - apply Forall_map. now apply Forall_forall.
Qed.

Lemma refill_takes_bottom_of_first_column_witness :
  location no_kwargs = None
  /\ isinstance_int (PyInt 3) = Some 3
  /\ 0 < 3 <= channels (self (Ot2.fresh 8 [Ot2.empty_rack 12 20] 20)) /\ 3 <= 8
  /\ eight_rows (tip_racks (self (Ot2.fresh 8 [Ot2.empty_rack 12 20] 20)))
  /\ (forall ref, starts_run (tip_racks (self (Ot2.fresh 8 [Ot2.empty_rack 12 20] 20)))
                    (Z.to_nat 3) ref = false)
  /\ reset_refills Ot2.base
  /\ new_events (Ot2.fresh 8 [Ot2.empty_rack 12 20] 20)
       (snd (pick_up_tip Ot2.base (PyInt 3) no_kwargs
               (Ot2.fresh 8 [Ot2.empty_rack 12 20] 20)))
     = [Input; Super_reset_tipracks;
        Super_pick_up_tip (mkKwargs (Some (TipWell (mkRef 0 0 5))) [])].
Proof.
  assert (Hn : 0 < 3 <= channels (self (Ot2.fresh 8 [Ot2.empty_rack 12 20] 20)))
    by (cbn; lia).
  assert (Hshape : eight_rows (tip_racks (self (Ot2.fresh 8 [Ot2.empty_rack 12 20] 20))))
    by (repeat constructor).
  assert (Hnone : forall ref,
            starts_run (tip_racks (self (Ot2.fresh 8 [Ot2.empty_rack 12 20] 20)))
              (Z.to_nat 3) ref = false).
  { apply no_run_without_tips; [lia|]. apply available_none. repeat constructor. }
  split; [reflexivity | split; [reflexivity | split; [exact Hn | split; [lia |
    split; [exact Hshape | split; [exact Hnone | split; [exact ot2_reset_refills|]]]]]]].
  rewrite (refill_takes_bottom_of_first_column Ot2.base (PyInt 3) 3 no_kwargs
             (Ot2.fresh 8 [Ot2.empty_rack 12 20] 20) _ _ _ _
             eq_refl eq_refl Hn ltac:(lia) eq_refl Hshape Hnone ot2_reset_refills eq_refl).
  reflexivity.
Defined.

(** ** What [transfer] calls *)

Lemma clear_residual_trace (B : Base) (source : Location) (w : World) :
  trace (snd (clear_residual B source w))
  = trace w ++ clearing_events (current_volume (self w)) source.
Proof.
  rewrite clear_residual_eq. unfold clearing_events.
  destruct (Py.truthy (current_volume (self w))).
  - apply call_trace.
  - cbn [snd]. now rewrite app_nil_r.
Qed.

Lemma deliver_trace (B : Base) (a v : Q) (source destination : Location)
    (touch_tip blow_out : bool) (w1 : World) :
  exists l post,
    trace (snd (deliver B a v source destination touch_tip blow_out w1)) = trace w1 ++ l /\
    delivery_events a v source destination touch_tip blow_out = l ++ post /\
    l <> [].
Proof.
  unfold deliver, delivery_events. rewrite call_bind.
  destruct (base_aspirate B a source (self w1)) as [p2|code].
  2:{ exists [Aspirate a source]. eexists. cbn [snd log trace self].
      split; [reflexivity | split; [reflexivity | discriminate]]. }
  rewrite call_bind. cbn [self trace].
  destruct (base_dispense B v destination p2) as [p3|code].
  2:{ exists [Aspirate a source; Dispense v destination]. eexists.
      cbn [snd log trace self]. rewrite <- app_assoc.
      split; [reflexivity | split; [reflexivity | discriminate]]. }
  destruct blow_out.
  - rewrite call_bind. cbn [self trace].
    destruct (base_blow_out B destination p3) as [p4|code].
    2:{ exists [Aspirate a source; Dispense v destination; Blow_out destination].
        eexists. cbn [snd log trace self]. rewrite <- !app_assoc.
        split; [reflexivity | split; [reflexivity | discriminate]]. }
    destruct touch_tip.
    + rewrite call_bind. cbn [self trace].
      exists [Aspirate a source; Dispense v destination; Blow_out destination;
              Touch_tip destination], [].
      destruct (base_touch_tip B destination p4) as [p5|code];
        cbn [snd log trace self get_current_volume read]; rewrite <- !app_assoc;
        (split; [reflexivity | split; [reflexivity | discriminate]]).
    + rewrite ret_bind.
      exists [Aspirate a source; Dispense v destination; Blow_out destination], [].
      cbn [snd trace get_current_volume read]. rewrite <- !app_assoc.
      split; [reflexivity | split; [reflexivity | discriminate]].
  - rewrite ret_bind.
    destruct touch_tip.
    + rewrite call_bind. cbn [self trace].
      exists [Aspirate a source; Dispense v destination; Touch_tip destination], [].
      destruct (base_touch_tip B destination p3) as [p5|code];
        cbn [snd log trace self get_current_volume read]; rewrite <- !app_assoc;
        (split; [reflexivity | split; [reflexivity | discriminate]]).
    + rewrite ret_bind.
      exists [Aspirate a source; Dispense v destination], [].
      cbn [snd trace get_current_volume read]. rewrite <- !app_assoc.
      split; [reflexivity | split; [reflexivity | discriminate]].
Qed.

Lemma delivery_events_liquid (a v : Q) (source destination : Location)
    (touch_tip blow_out : bool) :
  forallb is_liquid (delivery_events a v source destination touch_tip blow_out) = true.
Proof. unfold delivery_events. now destruct blow_out, touch_tip. Qed.

Lemma clearing_events_liquid (held : Q) (source : Location) :
  forallb is_liquid (clearing_events held source) = true.
Proof. unfold clearing_events. now destruct (Py.truthy held). Qed.

(** The calls of any transfer: the clearing of the residual volume, then
    a beginning of the delivery. *)
Lemma transfer_trace (B : Base) (volume : Q) (source destination : Location)
    (touch_tip blow_out reverse : bool) (w : World) :
  exists l,
    trace (snd (transfer B volume source destination touch_tip blow_out reverse w))
    = trace w ++ clearing_events (current_volume (self w)) source ++ l /\
    forallb is_liquid l = true.
Proof.
  rewrite transfer_eq.
  pose proof (clear_residual_trace B source w) as Hclear.
  destruct (clear_residual B source w) as [[u|e] w1]; cbn [snd] in Hclear.
  - destruct (fst (get_available_volume w1)) as [h|e].
    + cbv zeta.
      destruct (negb (Qle_bool (guarded_aspirate_volume volume reverse h) h)).
      * exists []. cbn [snd]. now rewrite app_nil_r.
      * destruct (deliver_trace B (guarded_aspirate_volume volume reverse h) volume
                    source destination touch_tip blow_out w1)
          as [l [post [Htrace [Hsplit _]]]].
        exists l. split; [now rewrite Htrace, Hclear, <- app_assoc|].
        pose proof (delivery_events_liquid (guarded_aspirate_volume volume reverse h)
                      volume source destination touch_tip blow_out) as Hliq.
        rewrite Hsplit, forallb_app in Hliq. now apply andb_prop in Hliq.
    + exists []. cbn [snd]. now rewrite app_nil_r.
  - exists []. cbn [snd]. now rewrite app_nil_r.
Qed.

(** X7.  Whether it returns or raises, a transfer calls nothing but
    aspirate, dispense, blow-out and touch-tip: it never picks up or drops a
    tip, never prompts and never resets the racks, also when no tip is on
    the pipette. *)
Theorem transfer_moves_liquid_only (B : Base) (volume : Q)
    (source destination : Location) (touch_tip blow_out reverse : bool) (w : World) :
  forallb is_liquid
    (new_events w (snd (transfer B volume source destination touch_tip blow_out reverse w)))
  = true.
Proof.
  destruct (transfer_trace B volume source destination touch_tip blow_out reverse w)
    as [l [Htrace Hliq]].
  rewrite (new_events_of_trace _ _ _ Htrace), forallb_app, Hliq.
  now rewrite clearing_events_liquid.
Qed.

(** X8.  What a transfer returns as held volume is what the next transfer
    on that pipette first dispenses into its own source, whatever that
    source is and whether or not the second transfer goes on to succeed. *)
Theorem residual_goes_to_next_source (B : Base)
    (v1 v2 : Q) (s1 d1 s2 d2 : Location) (t1 b1 r1 t2 b2 r2 : bool)
    (w w1 : World) (r : Q) :
  transfer B v1 s1 d1 t1 b1 r1 w = (Ok r, w1) ->
  Py.truthy r = true ->
  exists rest,
    new_events w1 (snd (transfer B v2 s2 d2 t2 b2 r2 w1)) = Dispense r s2 :: rest.
Proof.
  intros Hfirst Htruthy.
  assert (Hr : r = current_volume (self w1)).
  { rewrite transfer_eq in Hfirst.
    destruct (clear_residual B s1 w) as [[u|e] w0]; [|discriminate].
    destruct (fst (get_available_volume w0)) as [h|e]; [|discriminate].
    cbv zeta in Hfirst.
    destruct (negb (Qle_bool (guarded_aspirate_volume v1 r1 h) h)); [discriminate|].
    destruct (deliver_ok B _ _ _ _ _ _ _ _ _ Hfirst) as [_ [_ [_ [_ [_ [_ [_ [_ H]]]]]]]].
    exact H. }
  destruct (transfer_trace B v2 s2 d2 t2 b2 r2 w1) as [l [Htrace _]].
  exists l. apply new_events_of_trace. rewrite Htrace. unfold clearing_events.
  now rewrite <- Hr, Htruthy.
Qed.

Lemma residual_goes_to_next_source_witness :
  Py.truthy (0 + 10 * (11 # 10) - 10)%Q = true
  /\ exists w1,
       transfer Ot2.base 10 (Reservoir "A1" 5) (PlateWell "plate_2" "B" 2) true false true
         (mkWorld (mkPipette 1 [Ot2.full_rack 12 300] true 300 0) [])
       = (Ok (0 + 10 * (11 # 10) - 10)%Q, w1)
       /\ exists rest,
            new_events w1
              (snd (transfer Ot2.base 5 (Reservoir "A3" 5) (PlateWell "plate_2" "C" 2)
                      true false false w1))
            = Dispense (0 + 10 * (11 # 10) - 10)%Q (Reservoir "A3" 5) :: rest.
Proof.
  split; [reflexivity|]. eexists. split; [reflexivity|].
  exact (residual_goes_to_next_source Ot2.base 10 5 (Reservoir "A1" 5)
           (PlateWell "plate_2" "B" 2) (Reservoir "A3" 5) (PlateWell "plate_2" "C" 2)
           true false true true false false
           (mkWorld (mkPipette 1 [Ot2.full_rack 12 300] true 300 0) []) _ _
           eq_refl eq_refl).
Defined.

(** X9.  [transfer] checks the volume from above only: with a volume of
    zero or less and a headroom that is not negative the check passes, and
    the next call is an aspirate of that non-positive volume. *)
Theorem nonpositive_volume_unchecked (B : Base) (volume : Q)
    (source destination : Location) (touch_tip blow_out reverse : bool)
    (w w1 : World) (h : Q) :
  clear_residual B source w = (Ok tt, w1) ->
  get_available_volume w1 = (Ok h, w1) ->
  (0 <= h)%Q -> (volume <= 0)%Q ->
  (guarded_aspirate_volume volume reverse h <= 0)%Q
  /\ exists rest,
       new_events w1
         (snd (transfer B volume source destination touch_tip blow_out reverse w))
       = Aspirate (guarded_aspirate_volume volume reverse h) source :: rest.
Proof.
  intros Hclear Hhead Hh Hv.
  assert (Ha : (guarded_aspirate_volume volume reverse h <= 0)%Q).
  { unfold guarded_aspirate_volume.
    destruct (reverse && Qle_bool (volume * (11 # 10)) h); lra. }
  split; [exact Ha|].
  rewrite transfer_eq, Hclear, Hhead. cbn [fst]. cbv zeta.
  replace (negb (Qle_bool (guarded_aspirate_volume volume reverse h) h)) with false.
  - destruct (deliver_outcome B (guarded_aspirate_volume volume reverse h) volume
                source destination touch_tip blow_out w1) as [[rest Hrest] _].
    exists rest. now apply new_events_of_trace.
  - symmetry. apply negb_false_iff, Qle_bool_iff. lra.
Qed.

Lemma nonpositive_volume_unchecked_witness :
  clear_residual Ot2.base (Reservoir "A1" 5)
    (mkWorld (mkPipette 1 [Ot2.full_rack 12 300] true 300 0) [])
  = (Ok tt, mkWorld (mkPipette 1 [Ot2.full_rack 12 300] true 300 0) [])
  /\ (0 <= 300 - 0)%Q /\ (-(5) <= 0)%Q
  /\ exists rest,
       new_events (mkWorld (mkPipette 1 [Ot2.full_rack 12 300] true 300 0) [])
         (snd (transfer Ot2.base (-(5)) (Reservoir "A1" 5) (PlateWell "plate_2" "B" 2)
                 true false true
                 (mkWorld (mkPipette 1 [Ot2.full_rack 12 300] true 300 0) [])))
       = Aspirate (guarded_aspirate_volume (-(5)) true (300 - 0)) (Reservoir "A1" 5)
         :: rest.
Proof.
  assert (Hh : (0 <= 300 - 0)%Q) by lra.
  assert (Hv : (-(5) <= 0)%Q) by lra.
  split; [reflexivity | split; [exact Hh | split; [exact Hv|]]].
  exact (proj2 (nonpositive_volume_unchecked Ot2.base (-(5)) (Reservoir "A1" 5)
                  (PlateWell "plate_2" "B" 2) true false true
                  (mkWorld (mkPipette 1 [Ot2.full_rack 12 300] true 300 0) [])
                  (mkWorld (mkPipette 1 [Ot2.full_rack 12 300] true 300 0) [])
                  (300 - 0)%Q eq_refl eq_refl Hh Hv)).
Defined.

(** ** The occupancy table *)

Lemma set_true_spec (v : list bool) (i : nat) :
  (i < length v)%nat ->
  exists v', set_true i v = Some v' /\ length v' = length v /\
             forall j, nth j v' false = (nth j v false || (j =? i)%nat).
Proof.
  revert i. induction v as [|x v IH]; intros i Hi; [cbn in Hi; lia|].
  destruct i as [|i]; cbn [set_true].
  - exists (true :: v). split; [reflexivity | split; [reflexivity|]].
    intros [|j]; cbn; [now rewrite orb_true_r | now rewrite orb_false_r].
  - destruct (IH i) as [v' [Hset [Hlen Hnth]]]; [cbn in Hi; lia|].
    rewrite Hset. exists (x :: v'). split; [reflexivity | split; [cbn; now rewrite Hlen|]].
    intros [|j]; cbn; [now rewrite orb_false_r | apply Hnth].
Qed.

Lemma occupied_cons (k0 : Z) (v : list bool) (rest : list (Z * list bool))
    (k : Z) (j : nat) :
  occupied ((k0, v) :: rest) k j = if k0 =? k then nth j v false else occupied rest k j.
Proof. unfold occupied. cbn [find fst]. now destruct (k0 =? k). Qed.

Lemma has_column_keys (key : Z) (d : list (Z * list bool)) :
  has_column key d = existsb (fun k => k =? key) (map fst d).
Proof.
  unfold has_column. induction d as [|kv d IH]; cbn; [reflexivity | now rewrite IH].
Qed.

Lemma mark_occupied_spec (d : list (Z * list bool)) (key : Z) (i : nat) :
  has_column key d = true ->
  Forall (fun kv => (i < length (snd kv))%nat) d ->
  exists d',
    mark_occupied key i d = Ok d' /\
    map fst d' = map fst d /\
    map (fun kv => length (snd kv)) d' = map (fun kv => length (snd kv)) d /\
    forall k j, occupied d' k j = (occupied d k j || ((k =? key) && (j =? i)%nat)).
Proof.
  induction d as [|[k0 v] rest IH]; intros Hkey Hlen; [discriminate|].
  inversion Hlen as [|? ? Hv Hrest]; subst. cbn [snd] in Hv.
  cbn [mark_occupied]. destruct (k0 =? key) eqn:Hk0.
  - apply Z.eqb_eq in Hk0. subst k0.
    destruct (set_true_spec v i Hv) as [v' [Hset [Hlen' Hnth]]]. rewrite Hset.
    exists ((key, v') :: rest). cbn [map fst snd]. rewrite Hlen'.
    split; [reflexivity | split; [reflexivity | split; [reflexivity|]]].
    intros k j. rewrite !occupied_cons. rewrite (Z.eqb_sym k key).
    destruct (key =? k); [apply Hnth | now rewrite orb_false_r].
  - unfold has_column in Hkey. cbn [existsb fst] in Hkey. rewrite Hk0 in Hkey.
    destruct (IH Hkey Hrest) as [rest' [Hmark [Hkeys [Hlens Hocc]]]].
    rewrite Hmark. exists ((k0, v) :: rest'). cbn [res_map map fst snd].
    rewrite Hkeys, Hlens.
    split; [reflexivity | split; [reflexivity | split; [reflexivity|]]].
    intros k j. rewrite !occupied_cons. destruct (k0 =? k) eqn:Hk; [|apply Hocc].
    apply Z.eqb_eq in Hk. subst k. rewrite Hk0. now rewrite orb_false_r.
Qed.

Lemma index_of_lt (c : ascii) (l : list ascii) (i : nat) :
  index_of c l = Some i -> (i < length l)%nat.
Proof.
  revert i. induction l as [|x l IH]; intros i; cbn [index_of]; [discriminate|].
  destruct (Ascii.eqb x c).
  - intros [= <-]. cbn. lia.
  - destruct (index_of c l) as [i'|]; [|discriminate].
    intros [= <-]. specialize (IH i' eq_refl). cbn. lia.
Qed.

(** The shape the table keeps: the keys 1 to 12 in order, vectors of 12. *)
Lemma table_has_column (d : list (Z * list bool)) (key : Z) :
  map fst d = map fst empty_occupancy ->
  has_column key d = ((1 <=? key) && (key <=? 12)).
Proof.
  intros Hkeys. rewrite has_column_keys, Hkeys.
  destruct ((1 <=? key) && (key <=? 12)) eqn:Hrange.
  - apply andb_prop in Hrange. destruct Hrange as [H1 H2].
    apply Z.leb_le in H1, H2.
    assert (Hcases : key = 1 \/ key = 2 \/ key = 3 \/ key = 4 \/ key = 5 \/ key = 6 \/
                     key = 7 \/ key = 8 \/ key = 9 \/ key = 10 \/ key = 11 \/ key = 12)
      by lia.
    repeat (destruct Hcases as [-> | Hcases]; [reflexivity|]). now subst.
  - apply andb_false_iff in Hrange.
    destruct (existsb (fun k => k =? key) (map fst empty_occupancy)) eqn:Hex;
      [|reflexivity].
    apply existsb_exists in Hex. destruct Hex as [k [Hin Hk]].
    apply Z.eqb_eq in Hk. subst k. exfalso. cbn in Hin.
    destruct Hrange as [H | H]; [apply Z.leb_gt in H | apply Z.leb_gt in H]; lia.
Qed.

Lemma mark_location_ok (d : list (Z * list bool)) (loc : string) (key : Z) (i : nat) :
  map fst d = map fst empty_occupancy ->
  Forall (fun kv => length (snd kv) = 12%nat) d ->
  parse_location loc = Some (key, i) -> 1 <= key <= 12 ->
  exists d',
    mark_location loc d = Ok d' /\
    map fst d' = map fst empty_occupancy /\
    Forall (fun kv => length (snd kv) = 12%nat) d' /\
    forall k j, occupied d' k j = (occupied d k j || ((k =? key) && (j =? i)%nat)).
Proof.
  intros Hkeys Hlens Hparse Hrange.
  destruct loc as [|c tail]; [discriminate|]. cbn [parse_location] in Hparse.
  destruct (py_int tail) as [key'|] eqn:Hint; [|discriminate].
  destruct (index_of c letters) as [i'|] eqn:Hidx; [|discriminate].
  injection Hparse as -> ->.
  unfold mark_location. cbn [string_tail]. rewrite Hint, Hidx.
  rewrite (table_has_column d key Hkeys).
  replace ((1 <=? key) && (key <=? 12)) with true
    by (symmetry; apply andb_true_intro; split; apply Z.leb_le; lia).
  pose proof (index_of_lt _ _ _ Hidx) as Hi. cbn in Hi.
  destruct (mark_occupied_spec d key i) as [d' [Hmark [Hkeys' [Hlens' Hocc]]]].
  - rewrite (table_has_column d key Hkeys).
    apply andb_true_intro; split; apply Z.leb_le; lia.
  - eapply Forall_impl; [|exact Hlens]. intros kv Hkv. cbv beta in Hkv. lia.
  - exists d'. split; [exact Hmark | split; [congruence | split; [|exact Hocc]]].
    apply Forall_forall. intros kv Hin.
    assert (Hmem : In (length (snd kv)) (map (fun kv => length (snd kv)) d'))
      by (apply in_map_iff; now exists kv).
    rewrite Hlens' in Hmem. apply in_map_iff in Hmem. destruct Hmem as [kv0 [Heq Hin0]].
    rewrite Forall_forall in Hlens. rewrite <- Heq. now apply Hlens.
Qed.

Lemma occupancy_table_ok (locs : list string) (d : list (Z * list bool)) :
  map fst d = map fst empty_occupancy ->
  Forall (fun kv => length (snd kv) = 12%nat) d ->
  Forall plate_well locs ->
  exists d',
    occupancy_table locs d = Ok d' /\
    map fst d' = map fst empty_occupancy /\
    Forall (fun kv => length (snd kv) = 12%nat) d' /\
    forall k j,
      occupied d' k j = true <->
      (occupied d k j = true \/
       exists loc, In loc locs /\ parse_location loc = Some (k, j)).
Proof.
  revert d. induction locs as [|loc locs IH]; intros d Hkeys Hlens Hwell.
  - exists d. split; [reflexivity | split; [exact Hkeys | split; [exact Hlens|]]].
    intros k j. split; [now left | intros [H | [loc [[] _]]]; exact H].
  - inversion Hwell as [|? ? [key [i [Hparse Hrange]]] Hrest]; subst.
    destruct (mark_location_ok d loc key i Hkeys Hlens Hparse Hrange)
      as [d1 [Hmark [Hkeys1 [Hlens1 Hocc1]]]].
    destruct (IH d1 Hkeys1 Hlens1 Hrest) as [d' [Htable [Hkeys' [Hlens' Hocc']]]].
    exists d'. cbn [occupancy_table]. rewrite Hmark.
    split; [exact Htable | split; [exact Hkeys' | split; [exact Hlens'|]]].
    intros k j. rewrite Hocc', Hocc1. split.
    + intros [Hor | [loc' [Hin Hp]]].
      * apply orb_prop in Hor. destruct Hor as [Hold | Hnew]; [now left|].
        apply andb_prop in Hnew. destruct Hnew as [Hk Hj].
        apply Z.eqb_eq in Hk. apply Nat.eqb_eq in Hj. subst.
        right. exists loc. split; [now left | exact Hparse].
      * right. exists loc'. split; [now right | exact Hp].
    + intros [Hold | [loc' [[<- | Hin] Hp]]].
      * left. now rewrite Hold.
      * left. rewrite Hparse in Hp. injection Hp as <- <-.
        now rewrite Z.eqb_refl, Nat.eqb_refl, orb_true_r.
      * right. now exists loc'.
Qed.

Lemma empty_occupancy_unoccupied (k : Z) (j : nat) : occupied empty_occupancy k j = false.
Proof.
  unfold occupied.
  destruct (find (fun kv => fst kv =? k) empty_occupancy) as [kv|] eqn:Hfind;
    [|reflexivity].
  apply find_some in Hfind. destruct Hfind as [Hin _].
  unfold empty_occupancy in Hin. apply in_map_iff in Hin.
  destruct Hin as [n [<- _]]. cbn [snd]. apply nth_repeat.
Qed.

Lemma empty_occupancy_lengths :
  Forall (fun kv : Z * list bool => length (snd kv) = 12%nat) empty_occupancy.
Proof. repeat constructor. Qed.

(** X10.  For target wells named by a row letter A to H and a column
    number 1 to 12, the occupancy table is built without an exception; it
    keeps its twelve keys in order and its vectors of 12 entries, and row
    [i] of column [k] is marked exactly when one of the targets is the well
    of row [i] and column [k].  Naming a well twice changes nothing. *)
Theorem occupancy_table_marks_targets (locations : list string) :
  Forall plate_well locations ->
  exists d,
    occupancy_table locations empty_occupancy = Ok d /\
    map fst d = [1; 2; 3; 4; 5; 6; 7; 8; 9; 10; 11; 12] /\
    Forall (fun kv => length (snd kv) = 12%nat) d /\
    forall k i,
      occupied d k i = true <->
      exists loc, In loc locations /\ parse_location loc = Some (k, i).
Proof.
  intros Hwell.
  destruct (occupancy_table_ok locations empty_occupancy eq_refl
              empty_occupancy_lengths Hwell) as [d [Htable [Hkeys [Hlens Hocc]]]].
  exists d. split; [exact Htable | split; [exact Hkeys | split; [exact Hlens|]]].
  intros k i. rewrite Hocc, empty_occupancy_unoccupied.
  split; [intros [H | H]; [discriminate | exact H] | now right].
Qed.

Lemma occupancy_table_marks_targets_witness :
  Forall plate_well ["B2"; "G11"; "B2"]%string
  /\ exists d,
       occupancy_table ["B2"; "G11"; "B2"]%string empty_occupancy = Ok d
       /\ occupied d 2 1 = true /\ occupied d 11 6 = true /\ occupied d 2 2 = false.
Proof.
  assert (Hwell : Forall plate_well ["B2"; "G11"; "B2"]%string).
  { repeat constructor.
    - exists 2, 1%nat. split; [reflexivity | lia].
    - exists 11, 6%nat. split; [reflexivity | lia].
    - exists 2, 1%nat. split; [reflexivity | lia]. }
  split; [exact Hwell|].
  destruct (occupancy_table_marks_targets _ Hwell) as [d [Htable [_ [_ Hocc]]]].
  exists d. split; [exact Htable | split; [|split]].
  - apply Hocc. exists "B2"%string. split; [now left | reflexivity].
  - apply Hocc. exists "G11"%string. split; [right; now left | reflexivity].
  - destruct (occupied d 2 2) eqn:H; [|reflexivity].
    apply Hocc in H. destruct H as [loc [[<- | [<- | [<- | []]]] Hp]]; discriminate.
Defined.

Lemma occupancy_table_app (pre post : list string) (d : list (Z * list bool)) :
  occupancy_table (pre ++ post) d =
  match occupancy_table pre d with
  | Ok d' => occupancy_table post d'
  | Raise e => Raise e
  end.
Proof.
  revert d. induction pre as [|loc pre IH]; intros d; cbn [app occupancy_table];
    [reflexivity|].
  destruct (mark_location loc d) as [d'|e]; [apply IH | reflexivity].
Qed.

(** X11.  The first target that is not a well of the plate ends the
    building of the table: a column number outside 1 to 12 raises
    [KeyError], also when the row letter is wrong too, since the dictionary
    is read first; a row letter outside A to H on a known column raises
    [ValueError]. *)
Theorem occupancy_table_first_bad_target (pre post : list string) (c : ascii)
    (tail : string) (key : Z) :
  Forall plate_well pre ->
  py_int tail = Some key ->
  (~ 1 <= key <= 12 ->
   occupancy_table (pre ++ String c tail :: post) empty_occupancy = Raise KeyError)
  /\ (1 <= key <= 12 -> index_of c letters = None ->
      occupancy_table (pre ++ String c tail :: post) empty_occupancy
      = Raise ValueError_parse).
Proof.
  intros Hwell Hint.
  destruct (occupancy_table_ok pre empty_occupancy eq_refl empty_occupancy_lengths Hwell)
    as [d [Htable [Hkeys _]]].
  rewrite occupancy_table_app, Htable. cbn [occupancy_table].
  unfold mark_location. cbn [string_tail]. rewrite Hint, (table_has_column d key Hkeys).
  split.
  - intros Hout.
    replace ((1 <=? key) && (key <=? 12)) with false; [reflexivity|].
    symmetry. apply andb_false_iff.
    destruct (Z_lt_le_dec key 1) as [H | H]; [left | right]; apply Z.leb_gt; lia.
  - intros Hin Hletter.
    replace ((1 <=? key) && (key <=? 12)) with true
      by (symmetry; apply andb_true_intro; split; apply Z.leb_le; lia).
    now rewrite Hletter.
Qed.

Lemma occupancy_table_first_bad_target_witness :
  Forall plate_well ["C3"]%string
  /\ py_int "13" = Some 13
  /\ occupancy_table ["C3"; "Z13"; "D4"]%string empty_occupancy = Raise KeyError.
Proof.
  assert (Hwell : Forall plate_well ["C3"]%string).
  { repeat constructor. exists 3, 2%nat. split; [reflexivity | lia]. }
  split; [exact Hwell | split; [reflexivity|]].
  apply (proj1 (occupancy_table_first_bad_target ["C3"]%string ["D4"]%string
                  "Z"%char "13" 13 Hwell eq_refl)).
  lia.
Defined.

(** ** The plans of the induction pass *)

Lemma first_true_inv (l : list bool) (i0 k : nat) :
  first_true i0 l = Some k ->
  exists s, k = (i0 + s)%nat /\ nth s l false = true /\
            forall j, (j < s)%nat -> nth j l false = false.
Proof.
  revert i0. induction l as [|x l IH]; intros i0; cbn [first_true]; [discriminate|].
  destruct x.
  - intros [= <-]. exists 0%nat. split; [lia | split; [reflexivity | intros j Hj; lia]].
  - intros Hrest. destruct (IH (S i0) Hrest) as [s [-> [Hat Hbefore]]].
    exists (S s). split; [lia | split; [exact Hat|]].
    intros [|j] Hj; [reflexivity | apply Hbefore; lia].
Qed.

Lemma first_true_none_inv (l : list bool) (i0 : nat) :
  first_true i0 l = None -> forall i, nth i l false = false.
Proof.
  revert i0. induction l as [|x l IH]; intros i0; cbn [first_true].
  - intros _ [|i]; reflexivity.
  - destruct x; [discriminate|]. intros Hrest [|i]; [reflexivity | exact (IH _ Hrest i)].
Qed.

(** Occupied rows all within rows [s] to [m - 1]: at most [m - s] of them. *)
Lemma count_window (l : list bool) (s m : nat) :
  (forall i, nth i l false = true -> (s <= i < m)%nat) ->
  (count_occ bool_dec l true <= m - s)%nat.
Proof.
  revert s m. induction l as [|x l IH]; intros s m Hwin; [cbn; lia|].
  assert (Hrest : (count_occ bool_dec l true <= (m - 1) - (s - 1))%nat).
  { apply IH. intros i Hi. specialize (Hwin (S i) Hi). lia. }
  destruct x.
  - specialize (Hwin 0%nat eq_refl). rewrite count_occ_cons_eq by reflexivity. lia.
  - rewrite count_occ_cons_neq by discriminate. lia.
Qed.

Lemma plan_column_bounds (occupancy : list bool) (m : nat) :
  (forall i, nth i occupancy false = true -> (i < m)%nat) ->
  0 <= snd (plan_column occupancy) /\
  Z.of_nat (fst (plan_column occupancy)) + snd (plan_column occupancy) <= Z.of_nat m /\
  (snd (plan_column occupancy) = 0 <-> forall i, nth i occupancy false = false).
Proof.
  intros Hrows. unfold plan_column.
  destruct (first_true 0 occupancy) as [k|] eqn:Hfirst; cbn [fst snd].
  - destruct (first_true_inv _ _ _ Hfirst) as [s [-> [Hat Hbefore]]]. cbn [Nat.add].
    rewrite py_sum_count.
    assert (Hwin : (count_occ bool_dec occupancy true <= m - s)%nat).
    { apply count_window. intros i Hi. split; [|now apply Hrows].
      destruct (Nat.lt_ge_cases i s) as [Hlt | Hge]; [|exact Hge].
      rewrite (Hbefore i Hlt) in Hi. discriminate. }
    assert (Hpos : (0 < count_occ bool_dec occupancy true)%nat)
      by (apply count_occ_In; exact (nth_true_in _ _ Hat)).
    pose proof (Hrows s Hat) as Hs.
    split; [lia | split; [lia|]].
    split; [lia|]. intros Hnone. rewrite Hnone in Hat. discriminate.
  - split; [lia | split; [lia|]].
    split; [intros _; exact (first_true_none_inv _ _ Hfirst) | reflexivity].
Qed.

Lemma occupied_in (d : list (Z * list bool)) (key : Z) (v : list bool) (i : nat) :
  NoDup (map fst d) -> In (key, v) d -> occupied d key i = nth i v false.
Proof.
  induction d as [|[k0 v0] rest IH]; intros Hnodup Hin; [destruct Hin|].
  rewrite occupied_cons. cbn [map fst] in Hnodup. inversion Hnodup as [|? ? Hnotin Hrest]; subst.
  destruct Hin as [[= -> ->] | Hin].
  - now rewrite Z.eqb_refl.
  - destruct (k0 =? key) eqn:Hk; [|now apply IH].
    apply Z.eqb_eq in Hk. subst k0. exfalso. apply Hnotin.
    apply in_map_iff. now exists (key, v).
Qed.

(** X12.  For target wells of the plate, every column plan of the
    induction pass stays within the 8 rows: the tip count is between 0 and
    8, the start row plus the tip count is at most 8, and the count is 0
    exactly for the columns that hold no target. *)
Theorem induction_plans_within_plate (locations : list string)
    (d : list (Z * list bool)) (key : Z) (occupancy : list bool) :
  Forall plate_well locations ->
  occupancy_table locations empty_occupancy = Ok d ->
  In (key, occupancy) d ->
  0 <= snd (plan_column occupancy) <= 8
  /\ Z.of_nat (fst (plan_column occupancy)) + snd (plan_column occupancy) <= 8
  /\ (snd (plan_column occupancy) = 0 <->
      forall loc i, In loc locations -> parse_location loc <> Some (key, i)).
Proof.
  intros Hwell Htable Hin.
  destruct (occupancy_table_ok locations empty_occupancy eq_refl
              empty_occupancy_lengths Hwell) as [d' [Htable' [Hkeys [_ Hocc]]]].
  rewrite Htable in Htable'. injection Htable' as <-.
  assert (Hnodup : NoDup (map fst d)).
  { rewrite Hkeys. cbn. repeat constructor; cbn; intuition discriminate. }
  assert (Hnth : forall i, nth i occupancy false = occupied d key i)
    by (intros i; symmetry; now apply occupied_in).
  assert (Hmarked : forall i, nth i occupancy false = true <->
                              exists loc, In loc locations /\
                                          parse_location loc = Some (key, i)).
  { intros i. rewrite Hnth, Hocc, empty_occupancy_unoccupied.
    split; [intros [H | H]; [discriminate | exact H] | now right]. }
  assert (Hrows : forall i, nth i occupancy false = true -> (i < 8)%nat).
  { intros i Hi. apply Hmarked in Hi. destruct Hi as [loc [_ Hparse]].
    destruct loc as [|c tail]; [discriminate|]. cbn [parse_location] in Hparse.
    destruct (py_int tail); [|discriminate].
    destruct (index_of c letters) as [i'|] eqn:Hidx; [|discriminate].
    injection Hparse as _ <-. exact (index_of_lt _ _ _ Hidx). }
  destruct (plan_column_bounds occupancy 8 Hrows) as [Hpos [Hfit Hzero]].
  split; [lia | split; [exact Hfit|]].
  rewrite Hzero. split.
  - intros Hnone loc i Hloc Hparse.
    assert (Hi : nth i occupancy false = true) by (apply Hmarked; now exists loc).
    rewrite Hnone in Hi. discriminate.
  - intros Hnone i. destruct (nth i occupancy false) eqn:Hi; [|reflexivity].
    apply Hmarked in Hi. destruct Hi as [loc [Hloc Hparse]].
    exfalso. exact (Hnone loc i Hloc Hparse).
Qed.

Lemma induction_plans_within_plate_witness :
  Forall plate_well ["B7"; "F7"; "H7"]%string
  /\ exists d occupancy,
       occupancy_table ["B7"; "F7"; "H7"]%string empty_occupancy = Ok d
       /\ In (7, occupancy) d
       /\ plan_column occupancy = (1%nat, 3)
       /\ Z.of_nat (fst (plan_column occupancy)) + snd (plan_column occupancy) <= 8.
Proof.
  assert (Hwell : Forall plate_well ["B7"; "F7"; "H7"]%string).
  { repeat constructor.
    - exists 7, 1%nat. split; [reflexivity | lia].
    - exists 7, 5%nat. split; [reflexivity | lia].
    - exists 7, 7%nat. split; [reflexivity | lia]. }
  split; [exact Hwell|].
  eexists. eexists. split; [reflexivity|].
  split; [do 6 right; left; reflexivity|]. split; [reflexivity|].
  exact (proj1 (proj2 (induction_plans_within_plate ["B7"; "F7"; "H7"]%string _ 7 _
                         Hwell eq_refl
                         (or_intror (or_intror (or_intror (or_intror (or_intror
                            (or_intror (or_introl eq_refl)))))))))).
Defined.

(** ** The schedule of the induction *)

Lemma row_occupied_spec (locations : list string) (column : Z) (i : nat) :
  row_occupied locations column i = true <->
  exists loc, In loc locations /\ parse_location loc = Some (column, i).
Proof.
  unfold row_occupied. rewrite existsb_exists. split.
  - intros [loc [Hin Hloc]]. exists loc. split; [exact Hin|].
    destruct (parse_location loc) as [[key j]|]; [|discriminate].
    apply andb_true_iff in Hloc. destruct Hloc as [Hkey Hrow].
    apply Z.eqb_eq in Hkey. apply Nat.eqb_eq in Hrow. now subst.
  - intros [loc [Hin Hloc]]. exists loc. split; [exact Hin|].
    now rewrite Hloc, Z.eqb_refl, Nat.eqb_refl.
Qed.

Lemma parse_location_row (loc : string) (key : Z) (i : nat) :
  parse_location loc = Some (key, i) -> (i < 8)%nat.
Proof.
  destruct loc as [|c tail]; [discriminate|]. cbn [parse_location].
  destruct (py_int tail); [|discriminate].
  destruct (index_of c letters) as [i'|] eqn:Hidx; [|discriminate].
  intros [= _ <-]. exact (index_of_lt _ _ _ Hidx).
Qed.

Lemma nth_column_vector (locations : list string) (column : Z) (i : nat) :
  nth i (column_vector locations column ++ repeat false 4) false
  = (i <? 8)%nat && row_occupied locations column i.
Proof.
  unfold column_vector. cbn [seq map app repeat].
  do 8 (destruct i as [|i]; [reflexivity|]).
  do 4 (destruct i as [|i]; [reflexivity|]).
  now destruct i.
Qed.

Lemma table_of_keys {V : Type} (f : Z -> V) (d : list (Z * V)) (keys : list Z) :
  map fst d = keys ->
  (forall key v, In (key, v) d -> v = f key) ->
  d = map (fun key => (key, f key)) keys.
Proof.
  revert keys. induction d as [|[k v] rest IH]; intros keys <- Hall; [reflexivity|].
  cbn [map fst]. rewrite (Hall k v (or_introl eq_refl)). f_equal.
  apply IH; [reflexivity|]. intros key v' Hin. apply Hall. now right.
Qed.

(** The table that the loop over the targets builds holds, for every plate
    column, the occupancy vector of the column followed by four unused
    entries. *)
Lemma table_vectors (locations : list string) (d : list (Z * list bool)) :
  Forall plate_well locations ->
  occupancy_table locations empty_occupancy = Ok d ->
  d = map (fun column => (column, column_vector locations column ++ repeat false 4))
          plate_columns.
Proof.
  intros Hwell Htable.
  destruct (occupancy_table_ok locations empty_occupancy eq_refl
              empty_occupancy_lengths Hwell) as [d' [Htable' [Hkeys [Hlens Hocc]]]].
  rewrite Htable in Htable'. injection Htable' as <-.
  assert (Hnodup : NoDup (map fst d)).
  { rewrite Hkeys. cbn. repeat constructor; cbn; intuition discriminate. }
  apply table_of_keys; [exact Hkeys|].
  intros key v Hin.
  assert (Hlen : length v = 12%nat).
  { rewrite Forall_forall in Hlens. exact (Hlens (key, v) Hin). }
  apply (nth_ext _ _ false false).
  - rewrite Hlen. unfold column_vector.
    now rewrite length_app, length_map, length_seq, repeat_length.
  - intros i _. rewrite nth_column_vector, <- (occupied_in d key v i Hnodup Hin).
    apply eq_true_iff_eq. rewrite Hocc, empty_occupancy_unoccupied, andb_true_iff,
      row_occupied_spec, Nat.ltb_lt.
    split.
    + intros [H | [loc [Hloc Hparse]]]; [discriminate|].
      split; [exact (parse_location_row _ _ _ Hparse) | now exists loc].
    + intros [_ H]. now right.
Qed.

(** What lines 231-238 compute on a vector of the table is the schedule of
    the column: nothing for a column without an occupied row, otherwise the
    first occupied row, which is one of the 8 rows, and the count of the
    occupied rows, which is not 0. *)
Lemma plan_column_schedule (vector : list bool) :
  length vector = 8%nat ->
  plan_column (vector ++ repeat false 4)
  = match schedule vector with Some plan => plan | None => (0%nat, 0) end
  /\ forall start_row tip_count,
       schedule vector = Some (start_row, tip_count) ->
       (start_row < 8)%nat /\ (tip_count =? 0) = false.
Proof.
  intros Hlen.
  do 8 (destruct vector as [|? vector]; [discriminate|]).
  destruct vector; [|discriminate]. clear Hlen.
  repeat match goal with b : bool |- _ => destruct b end;
    (split; [vm_compute; reflexivity|]);
    intros start_row tip_count Hs; vm_compute in Hs;
    try discriminate; injection Hs as <- <-; (split; [lia | reflexivity]).
Qed.

Lemma column_vector_length (locations : list string) (column : Z) :
  length (column_vector locations column) = 8%nat.
Proof. unfold column_vector. now rewrite length_map, length_seq. Qed.

Lemma induce_column_scheduled (B : Base) (iptg_volume : Q) (locations : list string)
    (iptg_source : Location) (column : Z) (w : World) :
  induce_column B iptg_volume column
    (plan_column (column_vector locations column ++ repeat false 4)) iptg_source w
  = scheduled_column B iptg_volume locations iptg_source column w.
Proof.
  destruct (plan_column_schedule _ (column_vector_length locations column))
    as [Hplan Hscheduled].
  rewrite Hplan. unfold scheduled_column.
  destruct (schedule (column_vector locations column)) as [[start_row tip_count]|].
  - destruct (Hscheduled start_row tip_count eq_refl) as [Hrow Hcount].
    unfold induce_column. rewrite Hcount.
    now rewrite (nth_error_nth' letters "A"%char Hrow).
  - reflexivity.
Qed.

Lemma induce_columns_scheduled (B : Base) (iptg_volume : Q) (locations : list string)
    (iptg_source : Location) (columns : list Z) :
  forall w,
  induce_columns B iptg_volume
    (map (fun column =>
            (column, plan_column (column_vector locations column ++ repeat false 4)))
         columns) iptg_source w
  = scheduled_columns B iptg_volume locations iptg_source columns w.
Proof.
  induction columns as [|column rest IH]; intros w; [reflexivity|].
  cbn [map induce_columns scheduled_columns]. unfold bind.
  rewrite induce_column_scheduled.
  destruct (scheduled_column B iptg_volume locations iptg_source column w) as [[u|e] w1];
    [apply IH | reflexivity].
Qed.

(** C7.  For a target well set of plate wells, the induction pass of [run]
    (the occupancy table of lines 226-229, the plans of lines 230-238 and
    the loop of lines 240-246) is the schedule of the specification, column
    by column from 1 to 12: the table holds for every column its occupancy
    vector; a column without an occupied row has no plan and is skipped,
    nothing is called; for any other column the plan is the index of the
    first occupied row and the count of the occupied rows, contiguous or
    not, and the column is served by one [pick_up_tip] of that many tips,
    one transfer into the well of the first occupied row and the drop of
    the tips, in that order.  The vector [F,F,T,T,T,F,F,F] gives start row
    2 and 3 tips. *)
Theorem induction_column_plan (B : Base) (iptg_volume : Q) (locations : list string)
    (iptg_source : Location) :
  Forall plate_well locations ->
  (exists d,
     occupancy_table locations empty_occupancy = Ok d /\
     map fst d = plate_columns /\
     forall column vector,
       In (column, vector) d ->
       vector = column_vector locations column ++ repeat false 4 /\
       plan_column vector
       = match schedule (column_vector locations column) with
         | Some plan => plan
         | None => (0%nat, 0)
         end)
  /\ (forall w,
        induction_pass B iptg_volume locations iptg_source w
        = scheduled_columns B iptg_volume locations iptg_source plate_columns w)
  /\ schedule [false; false; true; true; true; false; false; false] = Some (2%nat, 3)
  /\ plan_column ([false; false; true; true; true; false; false; false]
                  ++ repeat false 4) = (2%nat, 3).
Proof.
  intros Hwell.
  destruct (occupancy_table_ok locations empty_occupancy eq_refl
              empty_occupancy_lengths Hwell) as [d [Htable _]].
  pose proof (table_vectors locations d Hwell Htable) as Hd.
  split; [|split; [|split; reflexivity]].
  - exists d. split; [exact Htable|]. split.
    + rewrite Hd, map_map. cbn [fst]. apply map_id.
    + intros column vector Hin. rewrite Hd in Hin. apply in_map_iff in Hin.
      destruct Hin as [column' [[= -> <-] _]]. split; [reflexivity|].
      exact (proj1 (plan_column_schedule _ (column_vector_length locations column))).
  - intros w. unfold induction_pass. rewrite Htable, Hd, map_map. cbn [fst snd].
    apply induce_columns_scheduled.
Qed.

Lemma induction_column_plan_witness :
  Forall plate_well ["C3"; "E3"; "B7"]%string
  /\ column_vector ["C3"; "E3"; "B7"]%string 3
     = [false; false; true; false; true; false; false; false]
  /\ schedule (column_vector ["C3"; "E3"; "B7"]%string 3) = Some (2%nat, 2)
  /\ new_events (Ot2.fresh 8 [Ot2.full_rack 2 20] 20)
       (snd (induction_pass Ot2.base (19 # 2) ["C3"; "E3"; "B7"]%string
               (Reservoir "A3" 5) (Ot2.fresh 8 [Ot2.full_rack 2 20] 20)))
     = [Super_pick_up_tip (mkKwargs (Some (TipWell (mkRef 0 0 6))) []);
        Aspirate (209 # 20) (Reservoir "A3" 5);
        Dispense (19 # 2) (PlateWell "plate_2" "C" 3);
        Touch_tip (PlateWell "plate_2" "C" 3);
        Drop_tip;
        Super_pick_up_tip (mkKwargs (Some (TipWell (mkRef 0 0 5))) []);
        Aspirate (209 # 20) (Reservoir "A3" 5);
        Dispense (19 # 2) (PlateWell "plate_2" "B" 7);
        Touch_tip (PlateWell "plate_2" "B" 7);
        Drop_tip].
Proof.
  assert (Hwell : Forall plate_well ["C3"; "E3"; "B7"]%string).
  { repeat constructor.
    - exists 3, 2%nat. split; [reflexivity | lia].
    - exists 3, 4%nat. split; [reflexivity | lia].
    - exists 7, 1%nat. split; [reflexivity | lia]. }
  split; [exact Hwell|]. split; [reflexivity|]. split; [reflexivity|].
  rewrite (proj1 (proj2 (induction_column_plan Ot2.base (19 # 2)
                           ["C3"; "E3"; "B7"]%string (Reservoir "A3" 5) Hwell))).
  vm_compute. reflexivity.
Defined.

(** ** Tips picked up and dropped *)

Lemma bind_ok_inv {A C : Type} (m : M A) (k : A -> M C) (w w'' : World) (c : C) :
  bind m k w = (Ok c, w'') ->
  exists a w', m w = (Ok a, w') /\ k a w' = (Ok c, w'').
Proof.
  unfold bind. destruct (m w) as [[a|e] w']; [|discriminate].
  intros H. now exists a, w'.
Qed.

Lemma tips_after_app (holding : bool) (l1 l2 : list Event) :
  tips_after holding (l1 ++ l2) =
  match tips_after holding l1 with
  | Some h => tips_after h l2
  | None => None
  end.
Proof.
  revert holding. induction l1 as [|e l1 IH]; intros holding; [reflexivity|].
  cbn [app tips_after]. destruct e, holding; try reflexivity; apply IH.
Qed.

Lemma tips_after_liquid (l : list Event) :
  forallb is_liquid l = true ->
  tips_after true l = Some true /\
  filter is_pick_up l = [] /\ filter is_drop l = [].
Proof.
  induction l as [|e l IH]; intros Hliq; [now repeat split|].
  cbn [forallb] in Hliq. apply andb_prop in Hliq. destruct Hliq as [He Hl].
  destruct (IH Hl) as [H1 [H2 H3]].
  destruct e; try discriminate He; cbn [tips_after filter is_pick_up is_drop];
    now repeat split.
Qed.

(** A [pick_up_tip] that returns has put tips on a pipette that had none,
    with one pick-up and no drop. *)
Lemma pick_up_tip_ok_trace (B : Base) (number : PyVal) (kwargs : Kwargs)
    (w w' : World) (u : unit) :
  pick_up_tip B number kwargs w = (Ok u, w') ->
  exists l,
    trace w' = trace w ++ l /\ tips_after false l = Some true /\
    length (filter is_pick_up l) = 1%nat /\ length (filter is_drop l) = 0%nat.
Proof.
  intros Hok. destruct (pick_up_tip_trace B number kwargs w) as [l [Htrace Hshape]].
  rewrite Hok in Htrace, Hshape. cbn [fst snd] in *.
  exists l. split; [exact Htrace|].
  destruct Hshape as [[_ [e He]] | [[kw ->] | [[_ [e He]] | [kw ->]]]];
    try discriminate; now repeat split.
Qed.

(** The calls of one planned column that was served without an exception. *)
Lemma induce_column_ok_trace (B : Base) (iptg_volume : Q) (column : Z)
    (plan : nat * Z) (iptg_source : Location) (w w' : World) (u : unit) :
  induce_column B iptg_volume column plan iptg_source w = (Ok u, w') ->
  exists l,
    trace w' = trace w ++ l /\ tips_after false l = Some false /\
    length (filter is_pick_up l) = (if snd plan =? 0 then 0%nat else 1%nat) /\
    length (filter is_drop l) = (if snd plan =? 0 then 0%nat else 1%nat).
Proof.
  destruct plan as [row num_tips]. unfold induce_column. cbn [snd].
  destruct (num_tips =? 0).
  - intros Hret. inversion Hret; subst. exists []. rewrite app_nil_r. now repeat split.
  - intros Hrun. apply bind_ok_inv in Hrun. destruct Hrun as [u1 [w1 [Hpick Hrest]]].
    destruct (nth_error letters row) as [letter|]; [|discriminate].
    apply bind_ok_inv in Hrest. destruct Hrest as [r [w2 [Htransfer Hdrop]]].
    apply call_ok_inv in Hdrop. destruct Hdrop as [p' [_ ->]].
    destruct (pick_up_tip_ok_trace B _ _ _ _ _ Hpick) as [l1 [Ht1 [Htips1 [Hp1 Hd1]]]].
    destruct (transfer_trace B iptg_volume iptg_source
                (PlateWell "plate_2" letter column) true false true w1)
      as [l2 [Ht2 Hliq2]].
    rewrite Htransfer in Ht2. cbn [snd] in Ht2.
    assert (Hliq : forallb is_liquid
                     (clearing_events (current_volume (self w1)) iptg_source ++ l2) = true)
      by (rewrite forallb_app, clearing_events_liquid, Hliq2; reflexivity).
    destruct (tips_after_liquid _ Hliq) as [Htips2 [Hp2 Hd2]].
    rewrite app_assoc in Ht2. rewrite <- app_assoc in Ht2.
    remember (clearing_events (current_volume (self w1)) iptg_source ++ l2) as mid.
    exists (l1 ++ mid ++ [Drop_tip]).
    cbn [trace]. split; [rewrite Ht2, Ht1, <- !app_assoc; reflexivity|].
    rewrite tips_after_app, Htips1, tips_after_app, Htips2.
    rewrite !filter_app, !length_app, Hp1, Hd1, Hp2, Hd2.
    now repeat split.
Qed.

Lemma induce_columns_ok_trace (B : Base) (iptg_volume : Q)
    (plans : list (Z * (nat * Z))) (iptg_source : Location) (w w' : World) (u : unit) :
  induce_columns B iptg_volume plans iptg_source w = (Ok u, w') ->
  exists l,
    trace w' = trace w ++ l /\ tips_after false l = Some false /\
    length (filter is_pick_up l)
    = length (filter (fun p => negb (snd (snd p) =? 0)) plans) /\
    length (filter is_drop l)
    = length (filter (fun p => negb (snd (snd p) =? 0)) plans).
Proof.
  revert w. induction plans as [|[column plan] plans IH]; intros w; cbn [induce_columns].
  - intros Hret. inversion Hret; subst. exists []. rewrite app_nil_r. now repeat split.
  - intros Hrun. apply bind_ok_inv in Hrun. destruct Hrun as [u1 [w1 [Hcol Hrest]]].
    destruct (induce_column_ok_trace B _ _ _ _ _ _ _ Hcol) as [l1 [Ht1 [Htips1 [Hp1 Hd1]]]].
    destruct (IH w1 Hrest) as [l2 [Ht2 [Htips2 [Hp2 Hd2]]]].
    exists (l1 ++ l2). split; [rewrite Ht2, Ht1, <- app_assoc; reflexivity|].
    rewrite tips_after_app, Htips1, !filter_app, !length_app, Hp1, Hd1, Hp2, Hd2.
    cbn [filter snd]. split; [exact Htips2|].
    destruct (snd plan =? 0); cbn [negb length]; split; reflexivity.
Qed.

(** X13.  An induction pass that runs through leaves no tips on the
    pipette: its calls alternate between one pick-up and one drop, liquid
    moves only in between, prompts and rack resets happen only while no tips
    are on, and there are as many pick-ups, and as many drops, as there are
    columns with a target. *)
Theorem induction_pass_returns_tips (B : Base) (iptg_volume : Q)
    (plans : list (Z * (nat * Z))) (iptg_source : Location) (w w' : World) :
  induce_columns B iptg_volume plans iptg_source w = (Ok tt, w') ->
  tips_after false (new_events w w') = Some false
  /\ length (filter is_pick_up (new_events w w'))
     = length (filter (fun p => negb (snd (snd p) =? 0)) plans)
  /\ length (filter is_drop (new_events w w'))
     = length (filter (fun p => negb (snd (snd p) =? 0)) plans).
Proof.
  intros Hrun.
  destruct (induce_columns_ok_trace B _ _ _ _ _ _ Hrun) as [l [Htrace H]].
  now rewrite (new_events_of_trace _ _ _ Htrace).
Qed.

Lemma induction_pass_returns_tips_witness :
  exists w',
    induce_columns Ot2.base (19 # 2)
      [(1, (0%nat, 0)); (2, (1%nat, 6)); (3, (2%nat, 3))] (Reservoir "A3" 5)
      (Ot2.fresh 8 [Ot2.full_rack 12 20] 20) = (Ok tt, w')
    /\ tips_after false (new_events (Ot2.fresh 8 [Ot2.full_rack 12 20] 20) w') = Some false
    /\ length (filter is_drop (new_events (Ot2.fresh 8 [Ot2.full_rack 12 20] 20) w'))
       = 2%nat.
Proof.
  eexists. split; [vm_compute; reflexivity|].
  match goal with
  | |- tips_after false (new_events _ ?w') = _ /\ _ =>
      destruct (induction_pass_returns_tips Ot2.base (19 # 2)
                  [(1, (0%nat, 0)); (2, (1%nat, 6)); (3, (2%nat, 3))] (Reservoir "A3" 5)
                  (Ot2.fresh 8 [Ot2.full_rack 12 20] 20) w' eq_refl) as [H1 [_ H3]]
  end.
  split; [exact H1 | exact H3].
Defined.

(** ** The two pipettes *)

Lemma on_spec {A : Type} (m : Mount) (act : M A) (r : Robot) :
  exists w',
    act (mkWorld (pipette_at m r) []) = (fst (on m act r), w') /\
    journal (snd (on m act r)) = journal r ++ map (pair m) (trace w') /\
    pipette_at m (snd (on m act r)) = self w' /\
    pipette_at (other_mount m) (snd (on m act r)) = pipette_at (other_mount m) r.
Proof.
  unfold on. destruct (act (mkWorld (pipette_at m r) [])) as [res w'].
  exists w'. destruct m; now repeat split.
Qed.

Lemma rbind_ok_inv {A C : Type} (m : R A) (k : A -> R C) (r r'' : Robot) (c : C) :
  rbind m k r = (Ok c, r'') ->
  exists a r', m r = (Ok a, r') /\ k a r' = (Ok c, r'').
Proof.
  unfold rbind. destruct (m r) as [[a|e] r']; [|discriminate].
  intros H. now exists a, r'.
Qed.

Lemma new_entries_of_journal (r r' : Robot) (l : list (Mount * Event)) :
  journal r' = journal r ++ l -> new_entries r r' = l.
Proof. unfold new_entries. intros ->. apply skipn_app_exact. Qed.

Lemma events_of_app (m : Mount) (l1 l2 : list (Mount * Event)) :
  events_of m (l1 ++ l2) = events_of m l1 ++ events_of m l2.
Proof. unfold events_of. now rewrite filter_app, map_app. Qed.

Lemma events_of_same (m : Mount) (l : list Event) : events_of m (map (pair m) l) = l.
Proof.
  unfold events_of. induction l as [|e l IH]; [reflexivity|].
  cbn [map filter fst]. replace (mount_eqb m m) with true by now destruct m.
  cbn [map snd]. now rewrite IH.
Qed.

Lemma events_of_other (m : Mount) (l : list Event) :
  events_of (other_mount m) (map (pair m) l) = [].
Proof.
  unfold events_of. induction l as [|e l IH]; [reflexivity|].
  cbn [map filter fst]. replace (mount_eqb m (other_mount m)) with false by now destruct m.
  exact IH.
Qed.

Lemma mount_cases (m m' : Mount) : m' = m \/ m' = other_mount m.
Proof. destruct m, m'; auto. Qed.

(** A transfer that returns: the clearing, then the whole delivery. *)
Lemma transfer_ok_trace (B : Base) (volume : Q) (source destination : Location)
    (touch_tip blow_out reverse : bool) (w w' : World) (r : Q) :
  transfer B volume source destination touch_tip blow_out reverse w = (Ok r, w') ->
  exists a,
    trace w' = trace w ++ clearing_events (current_volume (self w)) source
               ++ delivery_events a volume source destination touch_tip blow_out.
Proof.
  rewrite transfer_eq.
  destruct (clear_residual B source w) as [[[]|e] w1] eqn:Hclear; [|discriminate].
  destruct (fst (get_available_volume w1)) as [h|e]; [|discriminate].
  cbv zeta. destruct (negb (Qle_bool (guarded_aspirate_volume volume reverse h) h));
    [discriminate|].
  intros Hdeliver. exists (guarded_aspirate_volume volume reverse h).
  destruct (deliver_ok B _ _ _ _ _ _ _ _ _ Hdeliver)
    as [_ [_ [_ [_ [_ [_ [_ [Htrace _]]]]]]]].
  destruct (clear_residual_ok B source w w1 tt Hclear) as [Htrace1 _].
  now rewrite Htrace, Htrace1, <- app_assoc.
Qed.

Lemma transfer_ok_one_aspirate (B : Base) (volume : Q) (source destination : Location)
    (touch_tip blow_out reverse : bool) (w w' : World) (r : Q) :
  transfer B volume source destination touch_tip blow_out reverse w = (Ok r, w') ->
  exists l,
    trace w' = trace w ++ l /\ forallb is_liquid l = true /\
    length (filter is_aspirate l) = 1%nat.
Proof.
  intros Hok. destruct (transfer_ok_trace B _ _ _ _ _ _ _ _ _ Hok) as [a Htrace].
  eexists. split; [exact Htrace|]. split.
  - now rewrite forallb_app, clearing_events_liquid, delivery_events_liquid.
  - unfold clearing_events, delivery_events.
    now destruct (Py.truthy (current_volume (self w))), blow_out, touch_tip.
Qed.

Lemma lift_res_bind {A C : Type} (res : Res A) (k : A -> M C) (w : World) :
  bind (lift_res res) k w =
  match res with Ok a => k a w | Raise e => (Raise e, w) end.
Proof. unfold bind, lift_res. now destruct res. Qed.

(** The LB transfers that all return: liquid calls only, one aspirate each. *)
Lemma lb_transfers_ok_trace (B : Base) (positions : list Position) (w w' : World)
    (u : unit) :
  lb_transfers B positions w = (Ok u, w') ->
  exists l,
    trace w' = trace w ++ l /\ forallb is_liquid l = true /\
    length (filter is_aspirate l) = length positions.
Proof.
  revert w. induction positions as [|pos rest IH]; intros w; cbn [lb_transfers].
  - intros Hret. inversion Hret; subst. exists []. now rewrite app_nil_r.
  - rewrite lift_res_bind.
    destruct (plate_lookup "plate_2" (destination pos)) as [dest|e]; [|discriminate].
    intros Hrun. apply bind_ok_inv in Hrun. destruct Hrun as [r [w1 [Htransfer Hrest]]].
    destruct (transfer_ok_one_aspirate B _ _ _ _ _ _ _ _ _ Htransfer)
      as [l1 [Ht1 [Hliq1 Hasp1]]].
    destruct (IH w1 Hrest) as [l2 [Ht2 [Hliq2 Hasp2]]].
    exists (l1 ++ l2). split; [now rewrite Ht2, Ht1, <- app_assoc|].
    rewrite forallb_app, Hliq1, Hliq2, filter_app, length_app, Hasp1, Hasp2.
    now split.
Qed.

Lemma pick_up_tip_ok_no_aspirate (B : Base) (number : PyVal) (kwargs : Kwargs)
    (w w' : World) (u : unit) (l : list Event) :
  pick_up_tip B number kwargs w = (Ok u, w') ->
  trace w' = trace w ++ l -> filter is_aspirate l = [].
Proof.
  intros Hok Hl. destruct (pick_up_tip_trace B number kwargs w) as [l0 [Htrace Hshape]].
  rewrite Hok in Htrace. cbn [snd] in Htrace. rewrite Hl in Htrace.
  apply app_inv_head in Htrace. subst l0.
  destruct Hshape as [[-> _] | [[kw ->] | [[-> _] | [kw ->]]]]; reflexivity.
Qed.

(** The journal of a filling phase that runs through. *)
Lemma lb_phase_ok (B : Base) (positions : list Position) (r r' : Robot) (u : unit) :
  lb_phase B positions r = (Ok u, r') ->
  exists l,
    journal r' = journal r ++ map (pair Left) l /\
    p20 r' = p20 r /\
    tips_after false l = Some false /\
    length (filter is_pick_up l) = 1%nat /\
    length (filter is_drop l) = 1%nat /\
    length (filter is_aspirate l) = length positions.
Proof.
  intros Hrun. unfold lb_phase in Hrun.
  destruct (on_spec Left
              (pick_up_tip B (PyInt 1) no_kwargs ;;
               lb_transfers B positions ;; call Drop_tip (base_drop_tip B))%monad r)
    as [w' [Hact [Hjournal [_ Hother]]]].
  rewrite Hrun in Hact, Hjournal, Hother. cbn [fst snd] in *.
  apply bind_ok_inv in Hact. destruct Hact as [u1 [w1 [Hpick Hrest]]].
  apply bind_ok_inv in Hrest. destruct Hrest as [u2 [w2 [Hloop Hdrop]]].
  apply call_ok_inv in Hdrop. destruct Hdrop as [p' [_ ->]].
  destruct (pick_up_tip_ok_trace B _ _ _ _ _ Hpick) as [l1 [Ht1 [Htips1 [Hp1 Hd1]]]].
  pose proof (pick_up_tip_ok_no_aspirate B _ _ _ _ _ _ Hpick Ht1) as Ha1.
  destruct (lb_transfers_ok_trace B _ _ _ _ Hloop) as [l2 [Ht2 [Hliq2 Hasp2]]].
  destruct (tips_after_liquid _ Hliq2) as [Htips2 [Hp2 Hd2]].
  cbn [trace] in Hjournal. rewrite Ht2, Ht1 in Hjournal.
  cbn [trace app] in Hjournal. rewrite <- app_assoc in Hjournal.
  exists (l1 ++ l2 ++ [Drop_tip]).
  split; [exact Hjournal | split; [exact Hother|]].
  rewrite !filter_app, !length_app, Hp1, Hd1, Hp2, Hd2, Hasp2, Ha1.
  rewrite tips_after_app, Htips1, tips_after_app, Htips2.
  cbn. repeat split; lia.
Qed.

(** X14.  A filling phase that runs through uses the left pipette only
    and one tip for all wells: one pick-up first, one drop last, liquid
    calls only in between, with exactly one aspirate per item of
    [final_positions]; the right pipette is not touched. *)
Theorem lb_phase_one_tip (B : Base) (positions : list Position) (r r' : Robot) :
  lb_phase B positions r = (Ok tt, r') ->
  p20 r' = p20 r
  /\ events_of Right (new_entries r r') = []
  /\ tips_after false (events_of Left (new_entries r r')) = Some false
  /\ length (filter is_pick_up (events_of Left (new_entries r r'))) = 1%nat
  /\ length (filter is_drop (events_of Left (new_entries r r'))) = 1%nat
  /\ length (filter is_aspirate (events_of Left (new_entries r r'))) = length positions.
Proof.
  intros Hrun.
  destruct (lb_phase_ok B positions r r' tt Hrun) as [l [Hjournal [Hp20 H]]].
  rewrite (new_entries_of_journal _ _ _ Hjournal).
  change Right with (other_mount Left) at 1.
  rewrite (events_of_other Left), (events_of_same Left).
  split; [exact Hp20 | split; [reflexivity | exact H]].
Qed.

Lemma lb_phase_one_tip_witness :
  exists r',
    lb_phase Ot2.base
      [mkPosition "D6" "C2" (139 # 10) (1766 # 10);
       mkPosition "B3" "blank" 0 (381 # 2)]
      (mkRobot (mkPipette 1 [Ot2.full_rack 12 300] false 300 0)
               (mkPipette 8 [Ot2.full_rack 12 20] false 20 0) []) = (Ok tt, r')
    /\ length (filter is_aspirate
                 (events_of Left
                    (new_entries
                       (mkRobot (mkPipette 1 [Ot2.full_rack 12 300] false 300 0)
                                (mkPipette 8 [Ot2.full_rack 12 20] false 20 0) []) r')))
       = 2%nat.
Proof.
  eexists. split; [vm_compute; reflexivity|].
  match goal with
  | |- length (filter is_aspirate (events_of Left (new_entries ?r ?r'))) = _ =>
      exact (proj2 (proj2 (proj2 (proj2 (proj2
               (lb_phase_one_tip Ot2.base
                  [mkPosition "D6" "C2" (139 # 10) (1766 # 10);
                   mkPosition "B3" "blank" 0 (381 # 2)] r r' eq_refl))))))
  end.
Defined.

(** X15.  The filling phase has no clean-up: when the tip was picked up
    and one of the LB transfers raises (or a destination is not a well of
    the plate), the phase ends with that exception, no drop is called and
    the calls made so far leave the tip on the pipette. *)
Theorem lb_phase_failure_keeps_tip (B : Base) (positions : list Position) (r : Robot)
    (w1 w2 : World) (e : exn) :
  pick_up_tip B (PyInt 1) no_kwargs (mkWorld (p300 r) []) = (Ok tt, w1) ->
  lb_transfers B positions w1 = (Raise e, w2) ->
  lb_phase B positions r
  = (Raise e, mkRobot (self w2) (p20 r) (journal r ++ map (pair Left) (trace w2)))
  /\ filter is_drop (trace w2) = []
  /\ tips_after false (trace w2) = Some true.
Proof.
  intros Hpick Hloop. split.
  - unfold lb_phase, on. cbn [pipette_at]. unfold bind at 1. rewrite Hpick.
    unfold bind at 1. now rewrite Hloop.
  - destruct (pick_up_tip_ok_trace B _ _ _ _ _ Hpick) as [l1 [Ht1 [Htips1 [_ Hd1]]]].
    cbn [trace app] in Ht1.
    assert (Hgrow : forall ps w w' e',
              lb_transfers B ps w = (Raise e', w') ->
              exists l, trace w' = trace w ++ l /\ forallb is_liquid l = true).
    { clear. induction ps as [|pos rest IH]; intros w w' e'; cbn [lb_transfers];
        [discriminate|].
      rewrite lift_res_bind.
      destruct (plate_lookup "plate_2" (destination pos)) as [dest|e0].
      - unfold bind.
        destruct (transfer B (lb_volume pos) lb_location dest true false true w)
          as [[q|e1] w1] eqn:Htransfer.
        + intros Hrest. destruct (IH _ _ _ Hrest) as [l2 [Ht2 Hliq2]].
          destruct (transfer_ok_one_aspirate B _ _ _ _ _ _ _ _ _ Htransfer)
            as [l1 [Ht1 [Hliq1 _]]].
          exists (l1 ++ l2). split; [now rewrite Ht2, Ht1, <- app_assoc|].
          now rewrite forallb_app, Hliq1, Hliq2.
        + intros [= _ <-].
          destruct (transfer_trace B (lb_volume pos) lb_location dest true false true w)
            as [l [Htrace Hliq]].
          rewrite Htransfer in Htrace. cbn [snd] in Htrace.
          eexists. split; [exact Htrace|].
          now rewrite forallb_app, clearing_events_liquid, Hliq.
      - intros [= _ <-]. exists []. now rewrite app_nil_r. }
    destruct (Hgrow _ _ _ _ Hloop) as [l2 [Ht2 Hliq2]].
    destruct (tips_after_liquid _ Hliq2) as [Htips2 [_ Hd2]].
    rewrite Ht2, Ht1, filter_app, Hd2, tips_after_app, Htips1, Htips2.
    split; [|reflexivity]. rewrite app_nil_r.
    destruct (filter is_drop l1); [reflexivity | discriminate].
Qed.

Lemma lb_phase_failure_keeps_tip_witness :
  exists w1 w2,
    pick_up_tip Ot2.base (PyInt 1) no_kwargs
      (mkWorld (p300 (mkRobot (mkPipette 1 [Ot2.full_rack 12 300] false 300 0)
                              (mkPipette 8 [Ot2.full_rack 12 20] false 20 0) [])) [])
    = (Ok tt, w1)
    /\ lb_transfers Ot2.base
         [mkPosition "D6" "C2" (139 # 10) (1766 # 10);
          mkPosition "D13" "C3" (139 # 10) (1766 # 10)] w1 = (Raise KeyError, w2)
    /\ fst (lb_phase Ot2.base
              [mkPosition "D6" "C2" (139 # 10) (1766 # 10);
               mkPosition "D13" "C3" (139 # 10) (1766 # 10)]
              (mkRobot (mkPipette 1 [Ot2.full_rack 12 300] false 300 0)
                       (mkPipette 8 [Ot2.full_rack 12 20] false 20 0) []))
       = Raise KeyError
    /\ tips_after false (trace w2) = Some true.
Proof.
  eexists. eexists. split; [vm_compute; reflexivity|]. split; [vm_compute; reflexivity|].
  match goal with
  | |- fst (lb_phase _ ?ps ?r) = _ /\ tips_after false (trace ?w2) = _ =>
      destruct (lb_phase_failure_keeps_tip Ot2.base ps r _ w2 KeyError eq_refl eq_refl)
        as [Hrun [_ Htips]]
  end.
  split; [now rewrite Hrun | exact Htips].
Defined.

(** ** The cell phase *)

(** The calls of one culture that was transferred without an exception. *)
Lemma cell_transfer_ok_trace (B : Base) (pos : Position) (w w' : World) (u : unit) :
  cell_transfer B pos w = (Ok u, w') ->
  exists l,
    trace w' = trace w ++ l /\ tips_after false l = Some false /\
    length (filter is_pick_up l) = 1%nat /\ length (filter is_drop l) = 1%nat.
Proof.
  unfold cell_transfer. intros Hrun.
  apply bind_ok_inv in Hrun. destruct Hrun as [u1 [w1 [Hpick Hrest]]].
  rewrite lift_res_bind in Hrest.
  destruct (plate_lookup "plate_1" (source_well pos)) as [source|e]; [|discriminate].
  rewrite lift_res_bind in Hrest.
  destruct (plate_lookup "plate_2" (destination pos)) as [dest|e]; [|discriminate].
  apply bind_ok_inv in Hrest. destruct Hrest as [q [w2 [Htransfer Hdrop]]].
  apply call_ok_inv in Hdrop. destruct Hdrop as [p' [_ ->]].
  destruct (pick_up_tip_ok_trace B _ _ _ _ _ Hpick) as [l1 [Ht1 [Htips1 [Hp1 Hd1]]]].
  destruct (transfer_ok_one_aspirate B _ _ _ _ _ _ _ _ _ Htransfer)
    as [l2 [Ht2 [Hliq2 _]]].
  destruct (tips_after_liquid _ Hliq2) as [Htips2 [Hp2 Hd2]].
  exists (l1 ++ l2 ++ [Drop_tip]). cbn [trace].
  split; [now rewrite Ht2, Ht1, <- !app_assoc|].
  rewrite tips_after_app, Htips1, tips_after_app, Htips2.
  rewrite !filter_app, !length_app, Hp1, Hd1, Hp2, Hd2. now repeat split.
Qed.

Lemma cell_pipette_left (pos : Position) :
  cell_pipette pos = Left <-> (10 < cell_volume pos)%Q.
Proof.
  unfold cell_pipette. rewrite <- guard_rejects_iff.
  destruct (negb (Qle_bool (cell_volume pos) 10)); split; congruence.
Qed.

(** X16.  One round of the cell loop: a blank item calls nothing at all;
    any other item is handled by one pipette only, the left one exactly
    when the cell volume is above 10 and the right one otherwise (a volume
    of exactly 10 goes to the right one), and leaves the other pipette and
    its journal untouched. *)
Theorem cell_step_one_pipette (B : Base) (pos : Position) (r : Robot) :
  (source_well pos = "blank"%string -> cell_step B pos r = (Ok tt, r))
  /\ (cell_pipette pos = Left <-> (10 < cell_volume pos)%Q)
  /\ pipette_at (other_mount (cell_pipette pos)) (snd (cell_step B pos r))
     = pipette_at (other_mount (cell_pipette pos)) r
  /\ events_of (other_mount (cell_pipette pos)) (new_entries r (snd (cell_step B pos r)))
     = [].
Proof.
  split; [|split; [apply cell_pipette_left|]].
  - intros Hblank. unfold cell_step. now rewrite Hblank.
  - unfold cell_step. destruct (String.eqb (source_well pos) "blank").
    + cbn [snd rret]. split; [reflexivity|].
      rewrite (new_entries_of_journal r r []); [reflexivity | now rewrite app_nil_r].
    + destruct (on_spec (cell_pipette pos) (cell_transfer B pos) r)
        as [w' [_ [Hjournal [_ Hother]]]].
      split; [exact Hother|].
      rewrite (new_entries_of_journal _ _ _ Hjournal). apply events_of_other.
Qed.

Lemma cell_step_one_pipette_witness :
  source_well (mkPosition "B3" "blank" 0 (381 # 2)) = "blank"%string
  /\ cell_step Ot2.base (mkPosition "B3" "blank" 0 (381 # 2))
       (mkRobot (mkPipette 1 [Ot2.full_rack 12 300] false 300 0)
                (mkPipette 8 [Ot2.full_rack 12 20] false 20 0) [])
     = (Ok tt, mkRobot (mkPipette 1 [Ot2.full_rack 12 300] false 300 0)
                       (mkPipette 8 [Ot2.full_rack 12 20] false 20 0) [])
  /\ cell_pipette (mkPosition "F4" "D2" 10 (1744 # 10)) = Right.
Proof.
  split; [reflexivity | split; [|reflexivity]].
  exact (proj1 (cell_step_one_pipette Ot2.base (mkPosition "B3" "blank" 0 (381 # 2))
                  (mkRobot (mkPipette 1 [Ot2.full_rack 12 300] false 300 0)
                           (mkPipette 8 [Ot2.full_rack 12 20] false 20 0) []))
           eq_refl).
Defined.

Lemma map_snd_pair (m : Mount) (l : list Event) : map snd (map (pair m) l) = l.
Proof. rewrite map_map. cbn [snd]. apply map_id. Qed.

Lemma events_of_on (m m' : Mount) (l : list Event) :
  tips_after false l = Some false ->
  tips_after false (events_of m' (map (pair m) l)) = Some false.
Proof.
  intros Hl. destruct (mount_cases m m') as [-> | ->].
  - now rewrite events_of_same.
  - now rewrite events_of_other.
Qed.

Lemma cell_step_ok (B : Base) (pos : Position) (r r' : Robot) (u : unit) :
  cell_step B pos r = (Ok u, r') ->
  exists entries,
    journal r' = journal r ++ entries /\
    (forall m, tips_after false (events_of m entries) = Some false) /\
    length (filter is_pick_up (map snd entries))
    = (if String.eqb (source_well pos) "blank" then 0%nat else 1%nat) /\
    length (filter is_drop (map snd entries))
    = (if String.eqb (source_well pos) "blank" then 0%nat else 1%nat).
Proof.
  unfold cell_step. destruct (String.eqb (source_well pos) "blank").
  - intros Hret. inversion Hret; subst. exists []. rewrite app_nil_r.
    now repeat split.
  - intros Hrun.
    destruct (on_spec (cell_pipette pos) (cell_transfer B pos) r)
      as [w' [Hact [Hjournal _]]].
    rewrite Hrun in Hact, Hjournal. cbn [fst snd] in *.
    destruct (cell_transfer_ok_trace B pos _ _ _ Hact) as [l [Ht [Htips [Hp Hd]]]].
    cbn [trace app] in Ht. rewrite Ht in Hjournal.
    exists (map (pair (cell_pipette pos)) l). rewrite map_snd_pair.
    split; [exact Hjournal | split; [|now split]].
    intros m. now apply events_of_on.
Qed.

Lemma cell_phase_ok (B : Base) (positions : list Position) (r r' : Robot) (u : unit) :
  cell_phase B positions r = (Ok u, r') ->
  exists entries,
    journal r' = journal r ++ entries /\
    (forall m, tips_after false (events_of m entries) = Some false) /\
    length (filter is_pick_up (map snd entries))
    = length (filter (fun pos => negb (String.eqb (source_well pos) "blank")) positions) /\
    length (filter is_drop (map snd entries))
    = length (filter (fun pos => negb (String.eqb (source_well pos) "blank")) positions).
Proof.
  revert r. induction positions as [|pos rest IH]; intros r; cbn [cell_phase].
  - intros Hret. inversion Hret; subst. exists []. rewrite app_nil_r. now repeat split.
  - intros Hrun. apply rbind_ok_inv in Hrun. destruct Hrun as [u1 [r1 [Hstep Hrest]]].
    destruct (cell_step_ok B pos r r1 u1 Hstep) as [e1 [Hj1 [Htips1 [Hp1 Hd1]]]].
    destruct (IH r1 Hrest) as [e2 [Hj2 [Htips2 [Hp2 Hd2]]]].
    exists (e1 ++ e2). split; [now rewrite Hj2, Hj1, <- app_assoc|]. split.
    + intros m. now rewrite events_of_app, tips_after_app, Htips1, Htips2.
    + rewrite !map_app, !filter_app, !length_app, Hp1, Hd1, Hp2, Hd2. cbn [filter].
      destruct (String.eqb (source_well pos) "blank"); cbn [negb length]; now split.
Qed.

(** X17.  A cell phase that runs through gives every culture a tip of
    its own: on each pipette pick-ups and drops alternate, with the liquid
    calls in between, so that no tips are left on at the end, and there are
    as many pick-ups, and as many drops, as there are items that are not
    blank. *)
Theorem cell_phase_fresh_tips (B : Base) (positions : list Position) (r r' : Robot) :
  cell_phase B positions r = (Ok tt, r') ->
  tips_returned r r'
  /\ length (filter is_pick_up (map snd (new_entries r r')))
     = length (filter (fun pos => negb (String.eqb (source_well pos) "blank")) positions)
  /\ length (filter is_drop (map snd (new_entries r r')))
     = length (filter (fun pos => negb (String.eqb (source_well pos) "blank")) positions).
Proof.
  intros Hrun. destruct (cell_phase_ok B positions r r' tt Hrun) as [entries [Hj [Ht H]]].
  unfold tips_returned. rewrite (new_entries_of_journal _ _ _ Hj). now split.
Qed.

Lemma cell_phase_fresh_tips_witness :
  exists r',
    cell_phase Ot2.base
      [mkPosition "D6" "C2" (139 # 10) (1766 # 10);
       mkPosition "F4" "D2" 8 (1744 # 10);
       mkPosition "B3" "blank" 0 (381 # 2)]
      (mkRobot (mkPipette 1 [Ot2.full_rack 12 300] false 300 0)
               (mkPipette 8 [Ot2.full_rack 12 20] false 20 0) []) = (Ok tt, r')
    /\ tips_returned
         (mkRobot (mkPipette 1 [Ot2.full_rack 12 300] false 300 0)
                  (mkPipette 8 [Ot2.full_rack 12 20] false 20 0) []) r'
    /\ length (filter is_pick_up
                 (map snd (new_entries
                    (mkRobot (mkPipette 1 [Ot2.full_rack 12 300] false 300 0)
                             (mkPipette 8 [Ot2.full_rack 12 20] false 20 0) []) r')))
       = 2%nat.
Proof.
  eexists. split; [vm_compute; reflexivity|].
  match goal with
  | |- tips_returned ?r ?r' /\ _ =>
      destruct (cell_phase_fresh_tips Ot2.base
                  [mkPosition "D6" "C2" (139 # 10) (1766 # 10);
                   mkPosition "F4" "D2" 8 (1744 # 10);
                   mkPosition "B3" "blank" 0 (381 # 2)] r r' eq_refl) as [H1 [H2 _]]
  end.
  split; [exact H1 | exact H2].
Defined.

(** ** The whole of the pipetting *)

Lemma induction_pass_ok_trace (B : Base) (iptg_volume : Q) (locations : list string)
    (iptg_source : Location) (w w' : World) (u : unit) :
  induction_pass B iptg_volume locations iptg_source w = (Ok u, w') ->
  exists l,
    trace w' = trace w ++ l /\ tips_after false l = Some false /\
    length (filter is_pick_up l) = length (filter is_drop l).
Proof.
  unfold induction_pass.
  destruct (occupancy_table locations empty_occupancy) as [d|e]; [|discriminate].
  intros Hrun. destruct (induce_columns_ok_trace B _ _ _ _ _ _ Hrun)
    as [l [Ht [Htips [Hp Hd]]]].
  exists l. split; [exact Ht | split; [exact Htips | congruence]].
Qed.

Lemma on_induction_pass_ok (B : Base) (iptg_volume : Q) (locations : list string)
    (iptg_source : Location) (r r' : Robot) (u : unit) :
  on Right (induction_pass B iptg_volume locations iptg_source) r = (Ok u, r') ->
  exists entries,
    journal r' = journal r ++ entries /\
    (forall m, tips_after false (events_of m entries) = Some false) /\
    length (filter is_pick_up (map snd entries))
    = length (filter is_drop (map snd entries)).
Proof.
  intros Hrun.
  destruct (on_spec Right (induction_pass B iptg_volume locations iptg_source) r)
    as [w' [Hact [Hjournal _]]].
  rewrite Hrun in Hact, Hjournal. cbn [fst snd] in *.
  destruct (induction_pass_ok_trace B _ _ _ _ _ _ Hact) as [l [Ht [Htips Hcount]]].
  cbn [trace app] in Ht. rewrite Ht in Hjournal.
  exists (map (pair Right) l). rewrite map_snd_pair.
  split; [exact Hjournal | split; [|exact Hcount]].
  intros m. now apply events_of_on.
Qed.

(** X18.  A run whose pipetting goes through to the end leaves no tips
    on either pipette: over the filling, the cell phase and both induction
    passes together, each pipette's pick-ups and drops alternate, liquid
    moves only while tips are on, prompts and rack resets happen only while
    none are, and in all there are as many drops as pick-ups. *)
Theorem run_returns_all_tips (B : Base) (iptg_volume : Q) (positions : list Position)
    (induced_wells : list string) (r r' : Robot) :
  run_pipetting B iptg_volume positions induced_wells r = (Ok tt, r') ->
  tips_returned r r'
  /\ length (filter is_pick_up (map snd (new_entries r r')))
     = length (filter is_drop (map snd (new_entries r r'))).
Proof.
  unfold run_pipetting, induction_phase. cbv zeta. intros Hrun.
  apply rbind_ok_inv in Hrun. destruct Hrun as [u1 [r1 [Hlb Hrun]]].
  apply rbind_ok_inv in Hrun. destruct Hrun as [u2 [r2 [Hcells Hrun]]].
  apply rbind_ok_inv in Hrun. destruct Hrun as [u3 [r3 [Hiptg Hplain]]].
  destruct (lb_phase_ok B positions r r1 u1 Hlb) as [l1 [Hj1 [_ [Ht1 [Hp1 [Hd1 _]]]]]].
  destruct (cell_phase_ok B positions r1 r2 u2 Hcells) as [e2 [Hj2 [Ht2 [Hp2 Hd2]]]].
  destruct (on_induction_pass_ok B _ _ _ _ _ _ Hiptg) as [e3 [Hj3 [Ht3 Hc3]]].
  destruct (on_induction_pass_ok B _ _ _ _ _ _ Hplain) as [e4 [Hj4 [Ht4 Hc4]]].
  assert (Hj : journal r' = journal r ++ (map (pair Left) l1 ++ e2 ++ e3 ++ e4))
    by (rewrite Hj4, Hj3, Hj2, Hj1, <- !app_assoc; reflexivity).
  unfold tips_returned. rewrite (new_entries_of_journal _ _ _ Hj). split.
  - intros m. rewrite events_of_app, tips_after_app, (events_of_on Left m l1 Ht1).
    rewrite events_of_app, tips_after_app, Ht2.
    rewrite events_of_app, tips_after_app, Ht3. apply Ht4.
  - rewrite !map_app, !filter_app, !length_app, map_snd_pair. lia.
Qed.

Lemma run_returns_all_tips_witness :
  exists r',
    run_pipetting Ot2.base (19 # 2)
      [mkPosition "D6" "C2" (139 # 10) (1766 # 10);
       mkPosition "F4" "D2" 8 (1744 # 10);
       mkPosition "B3" "blank" 0 (381 # 2)] ["D6"; "B3"]%string
      (mkRobot (mkPipette 1 [Ot2.full_rack 12 300] false 300 0)
               (mkPipette 8 [Ot2.full_rack 12 20] false 20 0) []) = (Ok tt, r')
    /\ tips_returned
         (mkRobot (mkPipette 1 [Ot2.full_rack 12 300] false 300 0)
                  (mkPipette 8 [Ot2.full_rack 12 20] false 20 0) []) r'.
Proof.
  eexists. split; [vm_compute; reflexivity|].
  match goal with
  | |- tips_returned ?r ?r' =>
      exact (proj1 (run_returns_all_tips Ot2.base (19 # 2)
                      [mkPosition "D6" "C2" (139 # 10) (1766 # 10);
                       mkPosition "F4" "D2" 8 (1744 # 10);
                       mkPosition "B3" "blank" 0 (381 # 2)] ["D6"; "B3"]%string
                      r r' eq_refl))
  end.
Defined.

(** * The protocol generator *)

(** ** Dicts *)

Lemma dict_get_none {V : Type} (key : string) (d : list (string * V)) :
  Generate.dict_get key d = None <-> ~ In key (map fst d).
Proof.
  induction d as [|[k v] rest IH]; cbn [Generate.dict_get map fst In]; [tauto|].
  destruct (String.eqb_spec k key) as [->|Hne].
  - split; [discriminate | intros H; exfalso; apply H; now left].
  - rewrite IH. tauto.
Qed.

Lemma dict_get_in {V : Type} (key : string) (value : V) (d : list (string * V)) :
  Generate.dict_get key d = Some value -> In (key, value) d.
Proof.
  induction d as [|[k v] rest IH]; cbn [Generate.dict_get In]; [discriminate|].
  destruct (String.eqb_spec k key) as [->|Hne].
  - intros [= ->]. now left.
  - intros H. right. now apply IH.
Qed.

Lemma dict_get_of_in {V : Type} (key : string) (value : V) (d : list (string * V)) :
  NoDup (map fst d) -> In (key, value) d -> Generate.dict_get key d = Some value.
Proof.
  induction d as [|[k v] rest IH]; cbn [Generate.dict_get map fst In]; [tauto|].
  intros Hnd [Heq | Hin].
  - inversion Heq; subst. now rewrite String.eqb_refl.
  - inversion Hnd as [|? ? Hk Hrest]; subst.
    destruct (String.eqb_spec k key) as [->|Hne].
    + exfalso. apply Hk. apply (in_map fst) in Hin. exact Hin.
    + now apply IH.
Qed.

Lemma dict_set_new {V : Type} (key : string) (value : V) (d : list (string * V)) :
  ~ In key (map fst d) -> Generate.dict_set key value d = d ++ [(key, value)].
Proof.
  induction d as [|[k v] rest IH]; cbn [Generate.dict_set map fst In app]; [reflexivity|].
  intros Hnot. destruct (String.eqb_spec k key) as [->|Hne]; [tauto|].
  f_equal. apply IH. tauto.
Qed.

Lemma dict_set_same {V : Type} (key : string) (value : V) (d : list (string * V)) :
  Generate.dict_get key d = Some value -> Generate.dict_set key value d = d.
Proof.
  induction d as [|[k v] rest IH]; cbn [Generate.dict_get Generate.dict_set]; [discriminate|].
  destruct (String.eqb_spec k key) as [->|Hne].
  - now intros [= ->].
  - intros H. f_equal. now apply IH.
Qed.

Lemma dict_get_middle {V : Type} (key : string) (value : V) (pre post : list (string * V)) :
  ~ In key (map fst pre) ->
  Generate.dict_get key (pre ++ (key, value) :: post) = Some value.
Proof.
  induction pre as [|[k v] rest IH]; cbn [Generate.dict_get map fst In app].
  - now rewrite String.eqb_refl.
  - intros Hnot. destruct (String.eqb_spec k key) as [->|Hne]; [tauto|].
    apply IH. tauto.
Qed.

Lemma dict_set_middle {V : Type} (key : string) (value value' : V)
    (pre post : list (string * V)) :
  ~ In key (map fst pre) ->
  Generate.dict_set key value' (pre ++ (key, value) :: post)
  = pre ++ (key, value') :: post.
Proof.
  induction pre as [|[k v] rest IH]; cbn [Generate.dict_set map fst In app].
  - now rewrite String.eqb_refl.
  - intros Hnot. destruct (String.eqb_spec k key) as [->|Hne]; [tauto|].
    f_equal. apply IH. tauto.
Qed.

(** ** [index] and [del] *)

Lemma list_index_of_in (x : string) (l : list string) :
  In x l -> exists i, Generate.list_index x l = Some i /\ (i < length l)%nat.
Proof.
  induction l as [|y rest IH]; cbn [Generate.list_index In length]; [tauto|].
  intros Hin. destruct (String.eqb_spec y x) as [->|Hne].
  - exists 0%nat. split; [reflexivity | lia].
  - destruct Hin as [Heq | Hin]; [congruence|].
    destruct (IH Hin) as [i [Hi Hlt]]. exists (S i). rewrite Hi. split; [reflexivity | lia].
Qed.

Lemma delete_at_index (x : string) (l : list string) (i : nat) :
  Generate.list_index x l = Some i ->
  Permutation l (x :: Generate.delete_at i l)
  /\ S (length (Generate.delete_at i l)) = length l.
Proof.
  revert i. induction l as [|y rest IH]; intros i; cbn [Generate.list_index]; [discriminate|].
  destruct (String.eqb_spec y x) as [->|Hne].
  - intros [= <-]. cbn [Generate.delete_at]. split; reflexivity.
  - destruct (Generate.list_index x rest) as [j|] eqn:Hj; [|discriminate].
    cbn [option_map]. intros [= <-]. cbn [Generate.delete_at length].
    destruct (IH j eq_refl) as [Hperm Hlen]. split; [|now rewrite Hlen].
    rewrite perm_swap. now constructor.
Qed.

Lemma choice_ok_in {G : Type} (randbelow : nat -> G -> nat * G) (seq : list string)
    (g g' : G) (x : string) :
  Generate.choice randbelow seq g = (Ok x, g') -> In x seq.
Proof.
  unfold Generate.choice. destruct seq as [|y rest]; [discriminate|].
  destruct (randbelow _ g) as [i g1].
  destruct (nth_error (y :: rest) i) as [z|] eqn:Hz; [|discriminate].
  intros [= <- _]. exact (nth_error_In _ _ Hz).
Qed.

Lemma choice_nonempty {G : Type} (randbelow : nat -> G -> nat * G) (seq : list string)
    (g : G) :
  Generate.randbelow_in_range randbelow -> seq <> [] ->
  exists x, fst (Generate.choice randbelow seq g) = Ok x.
Proof.
  intros Hrange Hne. unfold Generate.choice. destruct seq as [|y rest]; [congruence|].
  specialize (Hrange (length (y :: rest)) g). 
  destruct (randbelow _ g) as [i g1]. cbn [fst] in Hrange.
  destruct (nth_error (y :: rest) i) as [z|] eqn:Hz.
  - now exists z.
  - apply nth_error_None in Hz. cbn [length] in *. lia.
Qed.

Lemma choice_empty {G : Type} (randbelow : nat -> G -> nat * G) (g : G) :
  Generate.choice randbelow [] g = (Raise IndexError, g).
Proof. reflexivity. Qed.

Lemma nodup_app_disjoint {A : Type} (l1 l2 : list A) (a : A) :
  NoDup (l1 ++ l2) -> In a l1 -> ~ In a l2.
Proof.
  induction l1 as [|x rest IH]; cbn [app In]; [tauto|].
  intros Hnd [-> | Hin] Hin2.
  - inversion Hnd as [|? ? Hx _]; subst. apply Hx. apply in_or_app. now right.
  - inversion Hnd; subst. now apply IH.
Qed.

(** ** [assign_wells] *)

Lemma valid_wells_nodup : NoDup Generate.valid_wells.
Proof.
  replace Generate.valid_wells with (nodup string_dec Generate.valid_wells)
    by (vm_compute; reflexivity).
  apply NoDup_nodup.
Qed.

Lemma valid_wells_length : length Generate.valid_wells = 60%nat.
Proof. reflexivity. Qed.

Lemma place_culture_ok {G : Type} (randbelow : nat -> G -> nat * G)
    (cell_locations : list (string * Generate.Culture)) (well : string)
    (st st' : Generate.Assignment) (g g' : G) :
  Generate.place_culture randbelow cell_locations well st g = (Ok st', g') ->
  NoDup (Generate.induced_wells st ++ Generate.uninduced_wells st
         ++ map fst (Generate.final_positions st)) ->
  exists c position,
    Generate.dict_get well cell_locations = Some c /\
    In position (if Generate.is_induced c
                 then Generate.induced_wells st else Generate.uninduced_wells st) /\
    Generate.final_positions st'
    = Generate.final_positions st ++ [(position, Generate.entry_of well c)] /\
    Permutation
      (Generate.induced_wells st ++ Generate.uninduced_wells st
       ++ map fst (Generate.final_positions st))
      (Generate.induced_wells st' ++ Generate.uninduced_wells st'
       ++ map fst (Generate.final_positions st')) /\
    incl (Generate.induced_wells st') (Generate.induced_wells st) /\
    incl (Generate.uninduced_wells st') (Generate.uninduced_wells st).
Proof.
  unfold Generate.place_culture.
  destruct (Generate.dict_get well cell_locations) as [c|]; [|discriminate].
  cbv zeta.
  destruct (Generate.choice randbelow _ g) as [[position|e] g1] eqn:Hchoice; [|discriminate].
  apply choice_ok_in in Hchoice.
  destruct (Generate.list_index position _) as [i|] eqn:Hi; [|discriminate].
  destruct (delete_at_index _ _ _ Hi) as [Hperm _].
  intros Hst Hnd. exists c, position. split; [reflexivity|]. split; [exact Hchoice|].
  assert (Hnew : ~ In position (map fst (Generate.final_positions st))).
  { intros Hin. destruct (Generate.is_induced c).
    - apply (nodup_app_disjoint _ _ position Hnd Hchoice).
      apply in_or_app. now right.
    - apply NoDup_app_remove_l in Hnd.
      exact (nodup_app_disjoint _ _ position Hnd Hchoice Hin). }
  destruct (Generate.is_induced c); inversion Hst; subst; clear Hst;
    cbn [Generate.induced_wells Generate.uninduced_wells Generate.final_positions];
    rewrite (dict_set_new _ _ _ Hnew), map_app; cbn [map fst].
  - split; [reflexivity|]. split; [|split; [|apply incl_refl]].
    + rewrite (Permutation_app_tail _ Hperm). cbn [app].
      rewrite !app_assoc. apply Permutation_cons_append.
    + intros x Hx. apply (Permutation_in _ (Permutation_sym Hperm)). now right.
  - split; [reflexivity|]. split; [|split; [apply incl_refl|]].
    + apply Permutation_app_head. rewrite (Permutation_app_tail _ Hperm). cbn [app].
      rewrite !app_assoc. apply Permutation_cons_append.
    + intros x Hx. apply (Permutation_in _ (Permutation_sym Hperm)). now right.
Qed.

Lemma place_cultures_ok {G : Type} (randbelow : nat -> G -> nat * G)
    (cell_locations : list (string * Generate.Culture)) (wells : list string) :
  forall (st st' : Generate.Assignment) (g g' : G),
  Generate.place_cultures randbelow cell_locations wells st g = (Ok st', g') ->
  NoDup (Generate.induced_wells st ++ Generate.uninduced_wells st
         ++ map fst (Generate.final_positions st)) ->
  exists placed,
    Generate.final_positions st' = Generate.final_positions st ++ placed /\
    Forall2 (fun well pv =>
               exists c,
                 Generate.dict_get well cell_locations = Some c /\
                 snd pv = Generate.entry_of well c /\
                 In (fst pv) (if Generate.is_induced c
                              then Generate.induced_wells st
                              else Generate.uninduced_wells st))
            wells placed /\
    Permutation
      (Generate.induced_wells st ++ Generate.uninduced_wells st
       ++ map fst (Generate.final_positions st))
      (Generate.induced_wells st' ++ Generate.uninduced_wells st'
       ++ map fst (Generate.final_positions st')) /\
    incl (Generate.induced_wells st') (Generate.induced_wells st) /\
    incl (Generate.uninduced_wells st') (Generate.uninduced_wells st).
Proof.
  induction wells as [|well rest IH]; intros st st' g g'; cbn [Generate.place_cultures].
  - intros [= <- <-] _. exists []. rewrite app_nil_r.
    repeat split; try constructor; try apply incl_refl. apply Permutation_refl.
  - destruct (Generate.place_culture randbelow cell_locations well st g)
      as [[st1|e] g1] eqn:Hstep; [|discriminate].
    intros Hrest Hnd.
    destruct (place_culture_ok _ _ _ _ _ _ _ Hstep Hnd)
      as [c [position [Hc [Hin [Hfp [Hperm [Hi Hu]]]]]]].
    destruct (IH _ _ _ _ Hrest (Permutation_NoDup Hperm Hnd))
      as [placed [Hfp' [Hall [Hperm' [Hi' Hu']]]]].
    exists ((position, Generate.entry_of well c) :: placed).
    split; [rewrite Hfp', Hfp, <- app_assoc; reflexivity|].
    split; [|split; [exact (Permutation_trans Hperm Hperm')|
                     split; eapply incl_tran; eassumption]].
    constructor.
    + exists c. now repeat split.
    + eapply Forall2_impl; [|exact Hall]. cbv beta.
      intros w pv [c' [Hc' [He' Hin']]]. exists c'. split; [exact Hc'|]. split; [exact He'|].
      destruct (Generate.is_induced c'); [apply Hi | apply Hu]; exact Hin'.
Qed.

Lemma existsb_eqb_in (w : string) (l : list string) :
  existsb (String.eqb w) l = true <-> In w l.
Proof.
  rewrite existsb_exists. split.
  - intros [x [Hin Heq]]. apply String.eqb_eq in Heq. now subst.
  - intros Hin. exists w. split; [exact Hin | apply String.eqb_refl].
Qed.

Lemma fill_blanks_spec (wells : list string) :
  forall d : list (string * list Generate.Item),
  NoDup wells ->
  Generate.fill_blanks wells d
  = d ++ map (fun w => (w, Generate.blank_entry))
           (filter (fun w => negb (existsb (String.eqb w) (map fst d))) wells).
Proof.
  induction wells as [|well rest IH]; intros d Hnd; cbn [Generate.fill_blanks filter map].
  - now rewrite app_nil_r.
  - inversion Hnd as [|? ? Hwell Hrest]; subst.
    destruct (Generate.dict_get well d) as [v|] eqn:Hget.
    + rewrite (dict_set_same _ _ _ Hget), (IH d Hrest).
      assert (Hin : existsb (String.eqb well) (map fst d) = true).
      { apply existsb_eqb_in. apply dict_get_in in Hget.
        apply (in_map fst) in Hget. exact Hget. }
      now rewrite Hin.
    + assert (Hnot : ~ In well (map fst d)) by now apply dict_get_none.
      rewrite (dict_set_new _ _ _ Hnot), (IH _ Hrest), <- app_assoc. cbn [app].
      assert (Hout : existsb (String.eqb well) (map fst d) = false).
      { destruct (existsb (String.eqb well) (map fst d)) eqn:He; [|reflexivity].
        apply existsb_eqb_in in He. tauto. }
      rewrite Hout. cbn [negb map]. do 3 f_equal.
      apply filter_ext_in. intros w Hw. rewrite map_app, existsb_app. cbn [map fst existsb].
      destruct (String.eqb_spec w well) as [->|Hne]; [tauto|].
      now rewrite !orb_false_r.
Qed.

Lemma wells_with_cells_sub (cell_locations sub : list (string * Generate.Culture)) :
  (forall kv, In kv sub -> Generate.dict_get (fst kv) cell_locations = Some (snd kv)) ->
  filter (fun well =>
            match Generate.dict_get well cell_locations with
            | Some c => negb (String.eqb (Generate.cds c) "blank")
            | None => false
            end) (map fst sub)
  = map fst (Generate.cultures sub).
Proof.
  induction sub as [|[k c] rest IH]; intros Hsub; [reflexivity|].
  cbn [map fst filter Generate.cultures snd].
  pose proof (Hsub (k, c) (or_introl eq_refl)) as Hk. cbn [fst snd] in Hk. rewrite Hk.
  fold (Generate.cultures rest).
  rewrite IH by (intros kv Hkv; apply Hsub; now right).
  now destruct (negb (String.eqb (Generate.cds c) "blank")).
Qed.

Lemma wells_with_cells_cultures (cell_locations : list (string * Generate.Culture)) :
  NoDup (map fst cell_locations) ->
  Generate.wells_with_cells cell_locations = map fst (Generate.cultures cell_locations).
Proof.
  intros Hnd. apply wells_with_cells_sub. intros [k c] Hin.
  now apply dict_get_of_in.
Qed.

Lemma cultures_lookup (cell_locations : list (string * Generate.Culture))
    (well : string) (c : Generate.Culture) :
  NoDup (map fst cell_locations) ->
  In (well, c) (Generate.cultures cell_locations) ->
  Generate.dict_get well cell_locations = Some c
  /\ Generate.cds c <> "blank"%string.
Proof.
  intros Hnd Hin. apply filter_In in Hin. destruct Hin as [Hin Hcds]. cbn [snd] in Hcds.
  split; [now apply dict_get_of_in|].
  intros Heq. rewrite Heq in Hcds. discriminate.
Qed.

Lemma placed_of_cultures (cell_locations cs : list (string * Generate.Culture))
    (pool_i pool_u : list string) (placed : list (string * list Generate.Item)) :
  (forall kv, In kv cs -> Generate.dict_get (fst kv) cell_locations = Some (snd kv)) ->
  Forall2 (fun well pv =>
             exists c,
               Generate.dict_get well cell_locations = Some c /\
               snd pv = Generate.entry_of well c /\
               In (fst pv) (if Generate.is_induced c then pool_i else pool_u))
          (map fst cs) placed ->
  Forall2 (fun kv pv =>
             snd pv = Generate.entry_of (fst kv) (snd kv) /\
             In (fst pv) (if Generate.is_induced (snd kv) then pool_i else pool_u))
          cs placed.
Proof.
  revert placed. induction cs as [|kv rest IH]; intros placed Hcs Hall;
    cbn [map] in Hall; inversion Hall as [|? pv ? placed' [c [Hc [He Hin]]] Hrest]; subst;
    constructor.
  - rewrite (Hcs kv (or_introl eq_refl)) in Hc. inversion Hc; subst. now split.
  - apply IH; [|exact Hrest]. intros kv' Hkv'. apply Hcs. now right.
Qed.

Lemma map_blank_entries (extra : list string) :
  map snd (map (fun w : string => (w, Generate.blank_entry)) extra)
  = repeat Generate.blank_entry (length extra)
  /\ map fst (map (fun w : string => (w, Generate.blank_entry)) extra) = extra.
Proof.
  induction extra as [|w rest [IH1 IH2]]; [now split|].
  cbn [map snd fst length repeat]. now rewrite IH1, IH2.
Qed.

Lemma assign_wells_ok {G : Type} (randbelow : nat -> G -> nat * G)
    (cell_locations : list (string * Generate.Culture)) (g g' : G)
    (a : Generate.Assignment) :
  NoDup (map fst cell_locations) ->
  Generate.assign_wells randbelow cell_locations g = (Ok a, g') ->
  exists placed extra,
    Generate.induced_wells a
    = firstn (Generate.num_induced_wells cell_locations) Generate.valid_wells /\
    Generate.uninduced_wells a
    = skipn (Generate.num_induced_wells cell_locations) Generate.valid_wells /\
    Generate.final_positions a
    = placed ++ map (fun w => (w, Generate.blank_entry)) extra /\
    Forall2 (fun kv pv =>
               snd pv = Generate.entry_of (fst kv) (snd kv) /\
               In (fst pv) (if Generate.is_induced (snd kv)
                            then Generate.induced_wells a
                            else Generate.uninduced_wells a))
            (Generate.cultures cell_locations) placed /\
    Permutation (map fst placed ++ extra) Generate.valid_wells.
Proof.
  intros Hnd. unfold Generate.assign_wells. cbv zeta.
  destruct (Generate.place_cultures _ _ _ _ g) as [[st|e] g1] eqn:Hloop; [|discriminate].
  intros Ha. apply (f_equal fst) in Ha. cbn [fst] in Ha.
  apply (f_equal (fun res => match res with Ok x => x | Raise _ => a end)) in Ha.
  cbv beta iota in Ha. rewrite <- Ha. clear Ha.
  cbn [Generate.induced_wells Generate.uninduced_wells Generate.final_positions].
  apply place_cultures_ok in Hloop;
    cbn [Generate.induced_wells Generate.uninduced_wells Generate.final_positions map]
      in Hloop |- *.
  2:{ rewrite app_nil_r, firstn_skipn. apply valid_wells_nodup. }
  destruct Hloop as [placed [Hfp [Hall [Hperm _]]]].
  cbn [app] in Hfp. rewrite app_nil_r, firstn_skipn in Hperm.
  rewrite (wells_with_cells_cultures _ Hnd) in Hall.
  apply placed_of_cultures in Hall.
  2:{ intros [k c] Hin. apply filter_In in Hin. destruct Hin as [Hin _].
      now apply dict_get_of_in. }
  exists placed,
    (filter (fun w => negb (existsb (String.eqb w) (map fst placed))) Generate.valid_wells).
  split; [reflexivity|]. split; [reflexivity|].
  split; [rewrite Hfp; apply fill_blanks_spec, valid_wells_nodup|].
  split; [exact Hall|].
  rewrite Hfp in Hperm.
  assert (HndS := Permutation_NoDup Hperm valid_wells_nodup).
  apply NoDup_Permutation.
  - apply NoDup_app.
    + now do 2 apply NoDup_app_remove_l in HndS.
    + apply NoDup_filter, valid_wells_nodup.
    + intros x Hx Hx'. apply filter_In in Hx'. destruct Hx' as [_ Hx'].
      apply existsb_eqb_in in Hx. rewrite Hx in Hx'. discriminate.
  - apply valid_wells_nodup.
  - intros x. rewrite in_app_iff, filter_In. split.
    + intros [Hx | [Hx _]]; [|exact Hx].
      apply (Permutation_in _ (Permutation_sym Hperm)).
      apply in_or_app. right. apply in_or_app. now right.
    + intros Hx. destruct (existsb (String.eqb x) (map fst placed)) eqn:He.
      * left. now apply existsb_eqb_in.
      * right. now split.
Qed.

Lemma Forall2_in_right {A B : Type} (R : A -> B -> Prop) (l1 : list A) (l2 : list B)
    (y : B) :
  Forall2 R l1 l2 -> In y l2 -> exists x, In x l1 /\ R x y.
Proof.
  induction 1 as [|x y' l1 l2 Hxy _ IH]; cbn [In]; [tauto|].
  intros [<- | Hin].
  - exists x. split; [now left | exact Hxy].
  - destruct (IH Hin) as [x' [Hx' HR]]. exists x'. split; [now right | exact HR].
Qed.

Lemma assign_wells_keys_values {G : Type}
    (randbelow : nat -> G -> nat * G)
    (cell_locations : list (string * Generate.Culture)) (g g' : G)
    (a : Generate.Assignment) :
  NoDup (map fst cell_locations) ->
  Generate.assign_wells randbelow cell_locations g = (Ok a, g') ->
  Permutation (map fst (Generate.final_positions a)) Generate.valid_wells
  /\ map snd (Generate.final_positions a)
     = map (fun kv => Generate.entry_of (fst kv) (snd kv))
           (Generate.cultures cell_locations)
       ++ repeat Generate.blank_entry
            (60 - length (Generate.cultures cell_locations)).
Proof.
  intros Hnd Ha.
  destruct (assign_wells_ok _ _ _ _ _ Hnd Ha) as [placed [extra [_ [_ [Hfp [Hall Hperm]]]]]].
  destruct (map_blank_entries extra) as [Hsnd Hfst].
  rewrite Hfp, !map_app, Hsnd, Hfst. split; [exact Hperm|].
  apply Permutation_length in Hperm.
  rewrite length_app, length_map, valid_wells_length in Hperm.
  pose proof (Forall2_length Hall) as Hlen.
  replace (length extra) with (60 - length (Generate.cultures cell_locations))%nat by lia.
  f_equal. clear - Hall. induction Hall as [|kv pv cs placed [He _] _ IH]; [reflexivity|].
  cbn [map]. now rewrite He, IH.
Qed.

(** X19.  An assignment that returns is a placement without collisions:
    the keys of [final_positions] are the 60 valid wells, each once; its
    values are the cultures of [cell_locations], each once and in the order
    of [cell_locations], followed by blanks for all the wells that are
    left. *)
Theorem assign_wells_places_each_culture_once {G : Type}
    (randbelow : nat -> G -> nat * G)
    (cell_locations : list (string * Generate.Culture)) (g g' : G)
    (a : Generate.Assignment) :
  NoDup (map fst cell_locations) ->
  Generate.assign_wells randbelow cell_locations g = (Ok a, g') ->
  Permutation (map fst (Generate.final_positions a)) Generate.valid_wells
  /\ map snd (Generate.final_positions a)
     = map (fun kv => Generate.entry_of (fst kv) (snd kv))
           (Generate.cultures cell_locations)
       ++ repeat Generate.blank_entry
            (60 - length (Generate.cultures cell_locations)).
Proof. apply assign_wells_keys_values. Qed.

Lemma assign_wells_places_each_culture_once_witness :
  exists a g',
    Generate.assign_wells Generate.counter_randbelow
      [("B2", Generate.mkCulture "blank" "blank" true);
       ("C2", Generate.mkCulture "GFP10" "R0.25" true);
       ("D2", Generate.mkCulture "GFP10" "R0.5" true);
       ("B7", Generate.mkCulture "blank" "blank" false);
       ("C7", Generate.mkCulture "GFP10" "R0.25" false)]%string 0%nat = (Ok a, g')
    /\ Permutation (map fst (Generate.final_positions a)) Generate.valid_wells
    /\ firstn 3 (map snd (Generate.final_positions a))
       = [[Generate.Str "C2"; Generate.Str "GFP10"; Generate.Str "R0.25"];
          [Generate.Str "D2"; Generate.Str "GFP10"; Generate.Str "R0.5"];
          [Generate.Str "C7"; Generate.Str "GFP10"; Generate.Str "R0.25"]]%string.
Proof.
  eexists. eexists. split; [vm_compute; reflexivity|].
  split; [|reflexivity].
  refine (proj1 (assign_wells_places_each_culture_once Generate.counter_randbelow
                   [("B2", Generate.mkCulture "blank" "blank" true);
                    ("C2", Generate.mkCulture "GFP10" "R0.25" true);
                    ("D2", Generate.mkCulture "GFP10" "R0.5" true);
                    ("B7", Generate.mkCulture "blank" "blank" false);
                    ("C7", Generate.mkCulture "GFP10" "R0.25" false)]%string
                   0%nat _ _ _ eq_refl)).
  repeat constructor; cbn [In]; intuition discriminate.
Defined.

(** X20.  The random placement stays within the treatment blocks: the two
    well lists that are returned make up [valid_wells], and a culture that
    is marked induced in [cell_locations] is placed in a well of
    [induced_wells] and in none of [uninduced_wells], a culture that is not
    the other way round. *)
Theorem assign_wells_keeps_treatment_blocks {G : Type}
    (randbelow : nat -> G -> nat * G)
    (cell_locations : list (string * Generate.Culture)) (g g' : G)
    (a : Generate.Assignment) :
  NoDup (map fst cell_locations) ->
  Generate.assign_wells randbelow cell_locations g = (Ok a, g') ->
  Generate.induced_wells a ++ Generate.uninduced_wells a = Generate.valid_wells
  /\ forall position well c,
       In (well, c) (Generate.cultures cell_locations) ->
       In (position, Generate.entry_of well c) (Generate.final_positions a) ->
       In position (if Generate.is_induced c
                    then Generate.induced_wells a else Generate.uninduced_wells a)
       /\ ~ In position (if Generate.is_induced c
                         then Generate.uninduced_wells a else Generate.induced_wells a).
Proof.
  intros Hnd Ha.
  destruct (assign_wells_ok _ _ _ _ _ Hnd Ha)
    as [placed [extra [Hi [Hu [Hfp [Hall _]]]]]].
  assert (Hsplit : Generate.induced_wells a ++ Generate.uninduced_wells a
                   = Generate.valid_wells) by (rewrite Hi, Hu; apply firstn_skipn).
  split; [exact Hsplit|].
  intros position well c Hc Hin.
  destruct (cultures_lookup _ _ _ Hnd Hc) as [Hget Hcds].
  assert (Hpool : In position (if Generate.is_induced c
                               then Generate.induced_wells a
                               else Generate.uninduced_wells a)).
  { rewrite Hfp in Hin. apply in_app_or in Hin. destruct Hin as [Hin | Hin].
    - destruct (Forall2_in_right _ _ _ _ Hall Hin) as [[well' c'] [Hc' [He Hpool]]].
      cbn [fst snd] in He, Hpool. unfold Generate.entry_of in He.
      injection He as Hw _ _. subst well'.
      destruct (cultures_lookup _ _ _ Hnd Hc') as [Hget' _].
      rewrite Hget in Hget'. injection Hget' as <-. exact Hpool.
    - apply in_map_iff in Hin. destruct Hin as [w [Heq _]].
      unfold Generate.entry_of, Generate.blank_entry in Heq.
      injection Heq as _ _ Hblank _. congruence. }
  split; [exact Hpool|].
  pose proof valid_wells_nodup as Hv. rewrite <- Hsplit in Hv.
  destruct (Generate.is_induced c).
  - exact (nodup_app_disjoint _ _ _ Hv Hpool).
  - intros Hin'. exact (nodup_app_disjoint _ _ _ Hv Hin' Hpool).
Qed.

Lemma assign_wells_keeps_treatment_blocks_witness :
  exists a g',
    Generate.assign_wells Generate.counter_randbelow
      [("B2", Generate.mkCulture "blank" "blank" true);
       ("C2", Generate.mkCulture "GFP10" "R0.25" true);
       ("D2", Generate.mkCulture "GFP10" "R0.5" true);
       ("B7", Generate.mkCulture "blank" "blank" false);
       ("C7", Generate.mkCulture "GFP10" "R0.25" false)]%string 0%nat = (Ok a, g')
    /\ Generate.induced_wells a ++ Generate.uninduced_wells a = Generate.valid_wells
    /\ Generate.induced_wells a = ["B2"; "C2"; "D2"]%string.
Proof.
  eexists. eexists. split; [vm_compute; reflexivity|].
  split; [|reflexivity].
  refine (proj1 (assign_wells_keeps_treatment_blocks Generate.counter_randbelow
                   [("B2", Generate.mkCulture "blank" "blank" true);
                    ("C2", Generate.mkCulture "GFP10" "R0.25" true);
                    ("D2", Generate.mkCulture "GFP10" "R0.5" true);
                    ("B7", Generate.mkCulture "blank" "blank" false);
                    ("C7", Generate.mkCulture "GFP10" "R0.25" false)]%string
                   0%nat _ _ _ eq_refl)).
  repeat constructor; cbn [In]; intuition discriminate.
Defined.

Lemma place_culture_step {G : Type} (randbelow : nat -> G -> nat * G)
    (cell_locations : list (string * Generate.Culture)) (well : string)
    (c : Generate.Culture) (st : Generate.Assignment) (g : G) :
  Generate.randbelow_in_range randbelow ->
  Generate.dict_get well cell_locations = Some c ->
  ((if Generate.is_induced c
    then Generate.induced_wells st else Generate.uninduced_wells st) = [] ->
   fst (Generate.place_culture randbelow cell_locations well st g) = Raise IndexError)
  /\ ((if Generate.is_induced c
       then Generate.induced_wells st else Generate.uninduced_wells st) <> [] ->
      exists st1 g1,
        Generate.place_culture randbelow cell_locations well st g = (Ok st1, g1) /\
        (if Generate.is_induced c
         then S (length (Generate.induced_wells st1)) = length (Generate.induced_wells st)
              /\ Generate.uninduced_wells st1 = Generate.uninduced_wells st
         else S (length (Generate.uninduced_wells st1))
              = length (Generate.uninduced_wells st)
              /\ Generate.induced_wells st1 = Generate.induced_wells st)).
Proof.
  intros Hrange Hget. unfold Generate.place_culture. rewrite Hget. cbv zeta. split.
  - intros Hempty. rewrite Hempty. reflexivity.
  - intros Hne. destruct (choice_nonempty randbelow _ g Hrange Hne) as [position Hpos].
    destruct (Generate.choice randbelow _ g) as [res g1] eqn:Hchoice.
    cbn [fst] in Hpos. subst res.
    destruct (list_index_of_in position _ (choice_ok_in _ _ _ _ _ Hchoice)) as [i [Hi _]].
    rewrite Hi. destruct (delete_at_index _ _ _ Hi) as [_ Hlen].
    eexists. eexists. split; [reflexivity|].
    destruct (Generate.is_induced c);
      cbn [Generate.induced_wells Generate.uninduced_wells]; now split.
Qed.

Lemma place_cultures_capacity {G : Type} (randbelow : nat -> G -> nat * G)
    (cell_locations cs : list (string * Generate.Culture)) :
  Generate.randbelow_in_range randbelow ->
  (forall kv, In kv cs -> Generate.dict_get (fst kv) cell_locations = Some (snd kv)) ->
  forall (st : Generate.Assignment) (g : G),
  ((length (filter (fun kv => Generate.is_induced (snd kv)) cs)
    <= length (Generate.induced_wells st) /\
    length (filter (fun kv => negb (Generate.is_induced (snd kv))) cs)
    <= length (Generate.uninduced_wells st))%nat ->
   exists st',
     fst (Generate.place_cultures randbelow cell_locations (map fst cs) st g) = Ok st')
  /\ (~ (length (filter (fun kv => Generate.is_induced (snd kv)) cs)
         <= length (Generate.induced_wells st) /\
         length (filter (fun kv => negb (Generate.is_induced (snd kv))) cs)
         <= length (Generate.uninduced_wells st))%nat ->
      fst (Generate.place_cultures randbelow cell_locations (map fst cs) st g)
      = Raise IndexError).
Proof.
  intros Hrange. induction cs as [|[well c] rest IH]; intros Hcs st g.
  - cbn [map filter length Generate.place_cultures fst]. split; [now exists st | lia].
  - cbn [map fst Generate.place_cultures filter snd].
    assert (Hget : Generate.dict_get well cell_locations = Some c)
      by exact (Hcs (well, c) (or_introl eq_refl)).
    assert (Hrest : forall kv, In kv rest ->
                      Generate.dict_get (fst kv) cell_locations = Some (snd kv))
      by (intros kv Hkv; apply Hcs; now right).
    destruct (place_culture_step randbelow cell_locations well c st g Hrange Hget)
      as [Hempty Hfull].
    destruct (if Generate.is_induced c
              then Generate.induced_wells st else Generate.uninduced_wells st)
      as [|x pool] eqn:Hpool.
    + specialize (Hempty eq_refl).
      destruct (Generate.place_culture randbelow cell_locations well st g) as [res g1].
      cbn [fst] in Hempty. subst res. cbn [fst].
      destruct (Generate.is_induced c); rewrite Hpool; cbn [negb length];
        (split; [lia | reflexivity]).
    + destruct Hfull as [st1 [g1 [Hstep Hlen]]]; [discriminate|].
      rewrite Hstep. specialize (IH Hrest st1 g1).
      destruct (Generate.is_induced c); cbn [negb length] in *;
        destruct Hlen as [Hlen Hother]; rewrite Hother in IH;
        destruct IH as [IHok IHfail]; (split; intros H; [apply IHok | apply IHfail]); lia.
Qed.

Lemma induced_cultures_le (cell_locations : list (string * Generate.Culture)) :
  (length (filter (fun kv => Generate.is_induced (snd kv))
             (Generate.cultures cell_locations))
   <= Generate.num_induced_wells cell_locations)%nat.
Proof.
  unfold Generate.num_induced_wells, Generate.cultures.
  induction cell_locations as [|[k c] rest IH]; [apply le_n|].
  cbn [filter map snd].
  destruct (negb (String.eqb (Generate.cds c) "blank")); cbn [filter snd];
    destruct (Generate.is_induced c); cbn [length]; lia.
Qed.

(** X21.  Whether an assignment returns is a matter of counting alone,
    whatever the random draws: it returns when the induced cultures are at
    most 60 and the cultures that are not induced fit in the valid wells
    left over by the induced entries of [cell_locations], blanks included;
    otherwise [random.choice] is called on an emptied list and the
    assignment ends with [IndexError]. *)
Theorem assign_wells_capacity {G : Type} (randbelow : nat -> G -> nat * G)
    (cell_locations : list (string * Generate.Culture)) (g : G) :
  Generate.randbelow_in_range randbelow ->
  NoDup (map fst cell_locations) ->
  ((length (filter (fun kv => Generate.is_induced (snd kv))
              (Generate.cultures cell_locations)) <= 60 /\
    length (filter (fun kv => negb (Generate.is_induced (snd kv)))
              (Generate.cultures cell_locations))
    <= 60 - Generate.num_induced_wells cell_locations)%nat ->
   exists a, fst (Generate.assign_wells randbelow cell_locations g) = Ok a)
  /\ (~ (length (filter (fun kv => Generate.is_induced (snd kv))
                   (Generate.cultures cell_locations)) <= 60 /\
         length (filter (fun kv => negb (Generate.is_induced (snd kv)))
                   (Generate.cultures cell_locations))
         <= 60 - Generate.num_induced_wells cell_locations)%nat ->
      fst (Generate.assign_wells randbelow cell_locations g) = Raise IndexError).
Proof.
  intros Hrange Hnd. unfold Generate.assign_wells. cbv zeta.
  rewrite (wells_with_cells_cultures _ Hnd).
  pose proof (induced_cultures_le cell_locations) as Hle.
  destruct (place_cultures_capacity randbelow cell_locations
              (Generate.cultures cell_locations) Hrange
              (fun kv Hkv =>
                 proj1 (cultures_lookup cell_locations (fst kv) (snd kv) Hnd
                          (eq_ind _ (fun p => In p _) Hkv _ (surjective_pairing kv))))
              (Generate.mkAssignment
                 (firstn (Generate.num_induced_wells cell_locations) Generate.valid_wells)
                 (skipn (Generate.num_induced_wells cell_locations) Generate.valid_wells)
                 []) g) as [Hok Hfail].
  cbn [Generate.induced_wells Generate.uninduced_wells] in Hok, Hfail.
  rewrite length_firstn, length_skipn, valid_wells_length in Hok, Hfail.
  split; intros H.
  - destruct Hok as [st Hst]; [lia|].
    destruct (Generate.place_cultures _ _ _ _ g) as [res g1]. cbn [fst] in Hst. subst res.
    eexists. reflexivity.
  - rewrite (surjective_pairing (Generate.place_cultures _ _ _ _ g)).
    rewrite Hfail by lia. reflexivity.
Qed.

Lemma assign_wells_capacity_witness :
  (exists a,
     fst (Generate.assign_wells Generate.counter_randbelow
            [("C2", Generate.mkCulture "GFP10" "R0.25" true);
             ("C7", Generate.mkCulture "GFP10" "R0.25" false)]%string 0%nat) = Ok a)
  /\ fst (Generate.assign_wells Generate.counter_randbelow
            (("A1", Generate.mkCulture "GFP10" "R0.25" false)
             :: map (fun k => (k, Generate.mkCulture "blank" "blank" true))
                    Generate.valid_wells)%string 0%nat) = Raise IndexError.
Proof.
  assert (Hrange : Generate.randbelow_in_range Generate.counter_randbelow).
  { intros n g Hn. cbn [Generate.counter_randbelow fst].
    apply Nat.mod_upper_bound. lia. }
  split.
  - apply (proj1 (assign_wells_capacity Generate.counter_randbelow
                    [("C2", Generate.mkCulture "GFP10" "R0.25" true);
                     ("C7", Generate.mkCulture "GFP10" "R0.25" false)]%string 0%nat
                    Hrange
                    ltac:(repeat constructor; cbn [In]; intuition discriminate))).
    vm_compute. split; repeat constructor.
  - apply (proj2 (assign_wells_capacity Generate.counter_randbelow
                    (("A1", Generate.mkCulture "GFP10" "R0.25" false)
                     :: map (fun k => (k, Generate.mkCulture "blank" "blank" true))
                            Generate.valid_wells)%string 0%nat
                    Hrange
                    ltac:(replace (map fst _) with
                            (nodup string_dec ("A1"%string :: Generate.valid_wells))
                            by (vm_compute; reflexivity); apply NoDup_nodup))).
    vm_compute. intros [_ H]. inversion H.
Defined.

(** ** [apply_values] *)

Lemma apply_values_loop_eq (cell_volumes : list (string * list Generate.Item))
    (lb_volumes : list (string * Generate.Item))
    (todo : list (string * list Generate.Item)) :
  forall done : list (string * list Generate.Item),
  NoDup (map fst (done ++ todo)) ->
  Generate.apply_values_loop cell_volumes lb_volumes (map fst todo) (done ++ todo)
  = match Generate.extend_all cell_volumes lb_volumes todo with
    | Ok todo' => Ok (done ++ todo')
    | Raise e => Raise e
    end.
Proof.
  induction todo as [|[k v] rest IH]; intros done Hnd;
    cbn [map fst Generate.apply_values_loop Generate.extend_all].
  - reflexivity.
  - assert (Hk : ~ In k (map fst done)).
    { rewrite map_app in Hnd. cbn [map fst] in Hnd. apply NoDup_remove_2 in Hnd.
      intros Hin. apply Hnd. apply in_or_app. now left. }
    unfold Generate.apply_value. rewrite (dict_get_middle _ _ _ _ Hk).
    destruct (Generate.appended cell_volumes lb_volumes v) as [items|e]; [|reflexivity].
    rewrite (dict_set_middle _ _ _ _ _ Hk).
    change (done ++ (k, v ++ items) :: rest) with (done ++ [(k, v ++ items)] ++ rest).
    rewrite app_assoc, IH.
    + destruct (Generate.extend_all cell_volumes lb_volumes rest) as [rest'|e];
        [|reflexivity].
      now rewrite <- app_assoc.
    + rewrite <- app_assoc. cbn [app]. rewrite map_app in *. exact Hnd.
Qed.

Lemma apply_values_eq (final_positions cell_volumes : list (string * list Generate.Item))
    (lb_volumes : list (string * Generate.Item)) :
  NoDup (map fst final_positions) ->
  Generate.apply_values final_positions cell_volumes lb_volumes
  = Generate.extend_all cell_volumes lb_volumes final_positions.
Proof.
  intros Hnd. unfold Generate.apply_values.
  rewrite (apply_values_loop_eq _ _ final_positions [] Hnd).
  now destruct (Generate.extend_all cell_volumes lb_volumes final_positions).
Qed.

Lemma extend_all_ok (cell_volumes : list (string * list Generate.Item))
    (lb_volumes : list (string * Generate.Item))
    (d : list (string * list Generate.Item)) :
  forall d',
  Generate.extend_all cell_volumes lb_volumes d = Ok d' ->
  Forall2 (fun kv kv' =>
             fst kv' = fst kv /\
             exists items,
               Generate.appended cell_volumes lb_volumes (snd kv) = Ok items /\
               snd kv' = snd kv ++ items) d d'.
Proof.
  induction d as [|[k v] rest IH]; intros d'; cbn [Generate.extend_all].
  - intros [= <-]. constructor.
  - destruct (Generate.appended cell_volumes lb_volumes v) as [items|e] eqn:Hitems;
      [|discriminate].
    destruct (Generate.extend_all cell_volumes lb_volumes rest) as [rest'|e];
      [|discriminate].
    intros [= <-]. constructor; [|now apply IH].
    cbn [fst snd]. split; [reflexivity|]. now exists items.
Qed.

Lemma generate_ok {G : Type} (randbelow : nat -> G -> nat * G)
    (cell_locations : list (string * Generate.Culture))
    (cell_volumes : list (string * list Generate.Item))
    (lb_volumes : list (string * Generate.Item)) (g g' : G) (a : Generate.Assignment) :
  NoDup (map fst cell_locations) ->
  Generate.generate randbelow cell_locations cell_volumes lb_volumes g = (Ok a, g') ->
  exists a0,
    Generate.assign_wells randbelow cell_locations g = (Ok a0, g') /\
    Generate.induced_wells a = Generate.induced_wells a0 /\
    Generate.uninduced_wells a = Generate.uninduced_wells a0 /\
    Generate.extend_all cell_volumes lb_volumes (Generate.final_positions a0)
    = Ok (Generate.final_positions a).
Proof.
  intros Hnd. unfold Generate.generate.
  destruct (Generate.assign_wells randbelow cell_locations g) as [[a0|e] g1] eqn:Ha0;
    [|discriminate].
  destruct (assign_wells_ok _ _ _ _ _ Hnd Ha0) as [placed [extra [_ [_ [Hfp [_ Hperm]]]]]].
  rewrite apply_values_eq.
  2:{ rewrite Hfp, map_app. rewrite (proj2 (map_blank_entries extra)).
      exact (Permutation_NoDup (Permutation_sym Hperm) valid_wells_nodup). }
  destruct (Generate.extend_all _ _ _) as [d|e] eqn:Hext; [|discriminate].
  intros Hgen. apply (f_equal snd) in Hgen as Hg. cbn [snd] in Hg. subst g1.
  apply (f_equal fst) in Hgen. cbn [fst] in Hgen.
  apply (f_equal (fun res => match res with Ok x => x | Raise _ => a end)) in Hgen.
  cbv beta iota in Hgen. subst a. exists a0.
  cbn [Generate.induced_wells Generate.uninduced_wells Generate.final_positions].
  repeat split; try reflexivity. exact Hext.
Qed.

Lemma assign_wells_shape {G : Type} (randbelow : nat -> G -> nat * G)
    (cell_locations : list (string * Generate.Culture)) (g g' : G)
    (a : Generate.Assignment) :
  NoDup (map fst cell_locations) ->
  Generate.assign_wells randbelow cell_locations g = (Ok a, g') ->
  Forall (fun kv => exists s x y, snd kv = [Generate.Str s; x; y])
         (Generate.final_positions a).
Proof.
  intros Hnd Ha.
  destruct (assign_wells_ok _ _ _ _ _ Hnd Ha) as [placed [extra [_ [_ [Hfp [Hall _]]]]]].
  rewrite Hfp. apply Forall_app. split.
  - clear - Hall. induction Hall as [|kv pv cs placed [He _] _ IH]; constructor; [|exact IH].
    rewrite He. unfold Generate.entry_of. eauto.
  - apply Forall_map. apply Forall_forall. intros w _. cbn [snd].
    unfold Generate.blank_entry. eauto.
Qed.

Lemma extended_read (cell_volumes : list (string * list Generate.Item))
    (lb_volumes : list (string * Generate.Item))
    (d d' : list (string * list Generate.Item)) :
  (forall s volumes x,
     Generate.dict_get s cell_volumes = Some volumes ->
     nth_error volumes 1 = Some x -> exists q, x = Generate.Num q) ->
  (forall s x, Generate.dict_get s lb_volumes = Some x -> exists q, x = Generate.Num q) ->
  Forall (fun kv => exists s x y, snd kv = [Generate.Str s; x; y]) d ->
  Forall2 (fun kv kv' =>
             fst kv' = fst kv /\
             exists items,
               Generate.appended cell_volumes lb_volumes (snd kv) = Ok items /\
               snd kv' = snd kv ++ items) d d' ->
  exists positions,
    read_positions d' = Some positions /\
    Forall2 (fun kv p =>
               destination p = fst kv /\
               nth_error (snd kv) 0 = Some (Generate.Str (source_well p)) /\
               if String.eqb (source_well p) "blank"
               then cell_volume p = 0%Q
                    /\ lb_volume p = (200 - Generate.iptg_volume)%Q
               else exists volumes,
                   Generate.dict_get (source_well p) cell_volumes = Some volumes /\
                   nth_error volumes 1 = Some (Generate.Num (cell_volume p)) /\
                   Generate.dict_get (source_well p) lb_volumes
                   = Some (Generate.Num (lb_volume p)))
            d positions.
Proof.
  intros Hcv Hlv Hshape Hext. induction Hext as [|[k v] [k' v'] d d' Hkv _ IH].
  - exists []. split; [reflexivity | constructor].
  - inversion Hshape as [|? ? [s [x [y Hv]]] Hshape']; subst.
    destruct (IH Hshape') as [positions [Hread Hall]].
    cbn [fst snd] in Hkv, Hv. destruct Hkv as [-> [items [Hitems ->]]]. subst v.
    unfold Generate.appended in Hitems.
    change (nth_error [Generate.Str s; x; y] 0) with (Some (Generate.Str s)) in Hitems.
    cbv beta iota in Hitems.
    destruct (String.eqb s "blank") eqn:Hblank.
    + injection Hitems as <-.
      exists (mkPosition k s 0 (200 - Generate.iptg_volume) :: positions).
      split; [cbn [read_positions]; rewrite Hread; reflexivity|].
      constructor; [|exact Hall].
      cbn [destination source_well cell_volume lb_volume fst snd nth_error].
      rewrite Hblank. now repeat split.
    + destruct (Generate.dict_get s cell_volumes) as [volumes|] eqn:Hvol; [|discriminate].
      destruct (nth_error volumes 1) as [cell|] eqn:Hcell; [|discriminate].
      destruct (Generate.dict_get s lb_volumes) as [lb|] eqn:Hlb; [|discriminate].
      injection Hitems as <-.
      destruct (Hcv _ _ _ Hvol Hcell) as [q ->]. destruct (Hlv _ _ Hlb) as [l ->].
      exists (mkPosition k s q l :: positions).
      split; [cbn [read_positions]; rewrite Hread; reflexivity|].
      constructor; [|exact Hall].
      cbn [destination source_well cell_volume lb_volume fst snd nth_error].
      rewrite Hblank. split; [reflexivity|]. split; [reflexivity|].
      exists volumes. now repeat split.
Qed.

Lemma first_items (cs : list (string * Generate.Culture)) (n : nat)
    (positions : list Position) :
  Forall2 (fun v p => nth_error v 0 = Some (Generate.Str (source_well p)))
          (map (fun kv => Generate.entry_of (fst kv) (snd kv)) cs
           ++ repeat Generate.blank_entry n) positions ->
  map source_well positions = map fst cs ++ repeat "blank"%string n.
Proof.
  revert positions. induction cs as [|kv cs IH]; intros positions; cbn [map app].
  - revert positions. induction n as [|n IHn]; intros positions Hall; cbn [repeat] in *;
      inversion Hall as [|? p ? ps Hp Hrest]; subst; [reflexivity|].
    cbn [map]. injection Hp as <-. f_equal. now apply IHn.
  - intros Hall. inversion Hall as [|? p ? ps Hp Hrest]; subst.
    cbn [map]. injection Hp as <-. f_equal. now apply IH.
Qed.

Lemma Forall2_map_left {A B C : Type} (f : A -> B) (R : B -> C -> Prop)
    (l1 : list A) (l2 : list C) :
  Forall2 (fun x y => R (f x) y) l1 l2 -> Forall2 R (map f l1) l2.
Proof. induction 1; cbn [map]; now constructor. Qed.

Lemma Forall2_right {A B : Type} (P : B -> Prop) (l1 : list A) (l2 : list B) :
  Forall2 (fun _ y => P y) l1 l2 -> Forall P l2.
Proof. induction 1; now constructor. Qed.

Lemma Forall2_fst_eq {A B C : Type} (f : A -> C) (h : B -> C)
    (l1 : list A) (l2 : list B) :
  Forall2 (fun x y => h y = f x) l1 l2 -> map h l2 = map f l1.
Proof. induction 1 as [|x y l1 l2 H _ IH]; cbn [map]; [reflexivity | now rewrite H, IH]. Qed.

Lemma generate_source_wells {G : Type} (randbelow : nat -> G -> nat * G)
    (cell_locations : list (string * Generate.Culture))
    (cell_volumes : list (string * list Generate.Item))
    (lb_volumes : list (string * Generate.Item)) (g g' : G) (a : Generate.Assignment)
    (positions : list Position) :
  NoDup (map fst cell_locations) ->
  Generate.generate randbelow cell_locations cell_volumes lb_volumes g = (Ok a, g') ->
  read_positions (Generate.final_positions a) = Some positions ->
  Permutation (map destination positions) Generate.valid_wells
  /\ map source_well positions
     = map fst (Generate.cultures cell_locations)
       ++ repeat "blank"%string (60 - length (Generate.cultures cell_locations)).
Proof.
  intros Hnd Hgen Hread.
  destruct (generate_ok _ _ _ _ _ _ _ Hnd Hgen) as [a0 [Ha0 [_ [_ Hext]]]].
  destruct (assign_wells_keys_values _ _ _ _ _ Hnd Ha0) as [Hperm Hvalues].
  pose proof (assign_wells_shape _ _ _ _ _ Hnd Ha0) as Hshape.
  apply extend_all_ok in Hext.
  assert (Hall : Forall2 (fun kv p =>
                            destination p = fst kv /\
                            nth_error (snd kv) 0 = Some (Generate.Str (source_well p)))
                         (Generate.final_positions a0) positions).
  { clear - Hext Hshape Hread. revert positions Hread.
    induction Hext as [|[k v] [k' v'] d d' Hkv _ IH]; intros positions; cbn [read_positions].
    - intros [= <-]. constructor.
    - inversion Hshape as [|? ? [s [x [y Hv]]] Hshape']; subst.
      cbn [fst snd] in Hkv, Hv. destruct Hkv as [-> [items [_ ->]]]. subst v.
      destruct (read_position (k, [Generate.Str s; x; y] ++ items)) as [p|] eqn:Hp;
        [|discriminate].
      destruct (read_positions d') as [ps|]; [|discriminate].
      intros [= <-]. constructor; [|now apply IH].
      unfold read_position in Hp.
      destruct items as [|i0 [|i1 items]]; cbn [fst snd app nth_error] in Hp;
        try discriminate.
      destruct i1 as [?|lb]; [discriminate|]. destruct i0 as [?|cell]; [discriminate|].
      injection Hp as <-. now split. }
  split.
  - replace (map destination positions) with (map fst (Generate.final_positions a0));
      [exact Hperm|].
    symmetry. apply Forall2_fst_eq. eapply Forall2_impl; [|exact Hall].
    now intros kv p [H _].
  - apply first_items. rewrite <- Hvalues.
    apply Forall2_map_left. eapply Forall2_impl; [|exact Hall]. now intros kv p [_ H].
Qed.

(** X22.  What the generator hands to [run]: when the assignment and
    [apply_values] both return and the readings are numbers, every value of
    [final_positions] holds the five items that [run] reads.  The
    destinations are the 60 valid wells, each once; the sources are the
    cultures of [cell_locations] in their order, then blanks; a blank gets
    no cells and [200 - iptg_volume] of LB, a culture the two volumes that
    are stored under its own well. *)
Theorem generate_feeds_run {G : Type} (randbelow : nat -> G -> nat * G)
    (cell_locations : list (string * Generate.Culture))
    (cell_volumes : list (string * list Generate.Item))
    (lb_volumes : list (string * Generate.Item)) (g g' : G) (a : Generate.Assignment) :
  NoDup (map fst cell_locations) ->
  (forall s volumes x,
     Generate.dict_get s cell_volumes = Some volumes ->
     nth_error volumes 1 = Some x -> exists q, x = Generate.Num q) ->
  (forall s x, Generate.dict_get s lb_volumes = Some x -> exists q, x = Generate.Num q) ->
  Generate.generate randbelow cell_locations cell_volumes lb_volumes g = (Ok a, g') ->
  exists positions,
    read_positions (Generate.final_positions a) = Some positions /\
    Permutation (map destination positions) Generate.valid_wells /\
    map source_well positions
    = map fst (Generate.cultures cell_locations)
      ++ repeat "blank"%string (60 - length (Generate.cultures cell_locations)) /\
    Forall (fun p =>
              if String.eqb (source_well p) "blank"
              then cell_volume p = 0%Q /\ lb_volume p = (200 - Generate.iptg_volume)%Q
              else exists volumes,
                  Generate.dict_get (source_well p) cell_volumes = Some volumes /\
                  nth_error volumes 1 = Some (Generate.Num (cell_volume p)) /\
                  Generate.dict_get (source_well p) lb_volumes
                  = Some (Generate.Num (lb_volume p)))
           positions.
Proof.
  intros Hnd Hcv Hlv Hgen.
  destruct (generate_ok _ _ _ _ _ _ _ Hnd Hgen) as [a0 [Ha0 [_ [_ Hext]]]].
  pose proof (assign_wells_shape _ _ _ _ _ Hnd Ha0) as Hshape.
  destruct (extended_read _ _ _ _ Hcv Hlv Hshape (extend_all_ok _ _ _ _ Hext))
    as [positions [Hread Hall]].
  exists positions. split; [exact Hread|].
  destruct (generate_source_wells _ _ _ _ _ _ _ _ Hnd Hgen Hread) as [Hperm Hsources].
  split; [exact Hperm | split; [exact Hsources|]].
  apply (Forall2_right _ (Generate.final_positions a0)).
  eapply Forall2_impl; [|exact Hall]. now intros kv p [_ [_ H]].
Qed.

Lemma generate_feeds_run_witness :
  exists a g',
    Generate.generate Generate.counter_randbelow
      [("B2", Generate.mkCulture "blank" "blank" true);
       ("C2", Generate.mkCulture "GFP10" "R0.25" true);
       ("C7", Generate.mkCulture "GFP10" "R0.25" false)]%string
      [("C2", [Generate.Str "C2"; Generate.Num (139 # 10)]);
       ("C7", [Generate.Str "C7"; Generate.Num 8])]%string
      [("C2", Generate.Num (1766 # 10)); ("C7", Generate.Num (365 # 2))]%string
      0%nat = (Ok a, g')
    /\ exists positions,
         read_positions (Generate.final_positions a) = Some positions
         /\ Permutation (map destination positions) Generate.valid_wells
         /\ firstn 3 (map source_well positions) = ["C2"; "C7"; "blank"]%string.
Proof.
  assert (Hnd : NoDup (map fst
                         [("B2", Generate.mkCulture "blank" "blank" true);
                          ("C2", Generate.mkCulture "GFP10" "R0.25" true);
                          ("C7", Generate.mkCulture "GFP10" "R0.25" false)]%string))
    by (repeat constructor; cbn [In]; intuition discriminate).
  assert (Hcv : forall s volumes x,
             Generate.dict_get s
               [("C2", [Generate.Str "C2"; Generate.Num (139 # 10)]);
                ("C7", [Generate.Str "C7"; Generate.Num 8])]%string = Some volumes ->
             nth_error volumes 1 = Some x -> exists q, x = Generate.Num q).
  { intros s volumes x. cbn [Generate.dict_get].
    destruct (String.eqb "C2" s);
      [intros [= <-]; cbn [nth_error]; intros [= <-]; eauto|].
    destruct (String.eqb "C7" s);
      [intros [= <-]; cbn [nth_error]; intros [= <-]; eauto | discriminate]. }
  assert (Hlv : forall s x,
             Generate.dict_get s
               [("C2", Generate.Num (1766 # 10)); ("C7", Generate.Num (365 # 2))]%string
             = Some x -> exists q, x = Generate.Num q).
  { intros s x. cbn [Generate.dict_get].
    destruct (String.eqb "C2" s); [intros [= <-]; eauto|].
    destruct (String.eqb "C7" s); [intros [= <-]; eauto | discriminate]. }
  eexists. eexists. split; [vm_compute; reflexivity|].
  match goal with
  | |- exists positions, read_positions (Generate.final_positions ?a) = _ /\ _ =>
      destruct (generate_feeds_run Generate.counter_randbelow _ _ _ 0%nat 2%nat a
                  Hnd Hcv Hlv eq_refl) as [positions [Hread [Hperm [Hsources _]]]]
  end.
  exists positions. split; [exact Hread | split; [exact Hperm|]].
  rewrite Hsources. reflexivity.
Defined.

Lemma filter_source_wells (positions : list Position) :
  length (filter (fun pos => negb (String.eqb (source_well pos) "blank")) positions)
  = length (filter (fun s => negb (String.eqb s "blank")) (map source_well positions)).
Proof.
  induction positions as [|p rest IH]; [reflexivity|]. cbn [map filter].
  destruct (negb (String.eqb (source_well p) "blank")); cbn [length]; now rewrite IH.
Qed.

Lemma filter_repeat_blank (n : nat) :
  filter (fun s => negb (String.eqb s "blank")) (repeat "blank"%string n) = [].
Proof. induction n as [|n IH]; [reflexivity | exact IH]. Qed.

Lemma filter_all {A : Type} (f : A -> bool) (l : list A) :
  (forall x, In x l -> f x = true) -> filter f l = l.
Proof.
  induction l as [|x rest IH]; intros H; [reflexivity|]. cbn [filter].
  rewrite (H x (or_introl eq_refl)). f_equal. apply IH. intros y Hy. apply H. now right.
Qed.

(** X23.  The tips and aspirations of a generated run follow from
    [cell_locations]: with no culture stored under the name ["blank"], the
    LB filling of [run] on the generated positions aspirates 60 times, once
    per valid well, and its cell phase picks up one tip per culture of
    [cell_locations]. *)
Theorem generated_run_tip_use {G : Type} (randbelow : nat -> G -> nat * G)
    (cell_locations : list (string * Generate.Culture))
    (cell_volumes : list (string * list Generate.Item))
    (lb_volumes : list (string * Generate.Item)) (g g' : G) (a : Generate.Assignment)
    (positions : list Position) (B : Base) :
  NoDup (map fst cell_locations) ->
  ~ In "blank"%string (map fst cell_locations) ->
  Generate.generate randbelow cell_locations cell_volumes lb_volumes g = (Ok a, g') ->
  read_positions (Generate.final_positions a) = Some positions ->
  (forall r r',
     lb_phase B positions r = (Ok tt, r') ->
     length (filter is_aspirate (events_of Left (new_entries r r'))) = 60%nat)
  /\ (forall r r',
        cell_phase B positions r = (Ok tt, r') ->
        length (filter is_pick_up (map snd (new_entries r r')))
        = length (Generate.cultures cell_locations)).
Proof.
  intros Hnd Hblank Hgen Hread.
  destruct (generate_source_wells _ _ _ _ _ _ _ _ Hnd Hgen Hread) as [Hperm Hsources].
  split; intros r r' Hrun.
  - destruct (lb_phase_ok B positions r r' tt Hrun) as [l [Hjournal [_ [_ [_ [_ Hasp]]]]]].
    rewrite (new_entries_of_journal _ _ _ Hjournal), (events_of_same Left), Hasp.
    apply Permutation_length in Hperm. rewrite length_map in Hperm. exact Hperm.
  - destruct (cell_phase_ok B positions r r' tt Hrun) as [entries [Hjournal [_ [Hpick _]]]].
    rewrite (new_entries_of_journal _ _ _ Hjournal), Hpick, filter_source_wells, Hsources.
    rewrite filter_app, filter_repeat_blank, app_nil_r, filter_all; [apply length_map|].
    intros s Hs. apply in_map_iff in Hs. destruct Hs as [[k c] [<- Hin]]. cbn [fst].
    apply filter_In in Hin. destruct Hin as [Hin _].
    destruct (String.eqb_spec k "blank") as [->|Hne]; [|reflexivity].
    exfalso. apply Hblank. apply (in_map fst) in Hin. exact Hin.
Qed.

Lemma extend_all_key_error (cell_volumes : list (string * list Generate.Item))
    (lb_volumes : list (string * Generate.Item))
    (d : list (string * list Generate.Item)) :
  Forall (fun kv =>
            (exists items, Generate.appended cell_volumes lb_volumes (snd kv) = Ok items)
            \/ Generate.appended cell_volumes lb_volumes (snd kv) = Raise KeyError) d ->
  Exists (fun kv => Generate.appended cell_volumes lb_volumes (snd kv) = Raise KeyError) d ->
  Generate.extend_all cell_volumes lb_volumes d = Raise KeyError.
Proof.
  induction d as [|[k v] rest IH]; intros Hall Hex; [inversion Hex|].
  inversion Hall as [|? ? Hhead Hrest]; subst. cbn [snd] in Hhead.
  cbn [Generate.extend_all].
  destruct Hhead as [[items Hitems] | Hkey]; [|now rewrite Hkey].
  rewrite Hitems. inversion Hex as [? ? Hhere | ? ? Hlater]; subst.
  - cbn [snd] in Hhere. congruence.
  - now rewrite (IH Hrest Hlater).
Qed.

Lemma appended_cases (cell_volumes : list (string * list Generate.Item))
    (lb_volumes : list (string * Generate.Item)) (s : string) (x y : Generate.Item) :
  (forall s volumes,
     Generate.dict_get s cell_volumes = Some volumes -> (2 <= length volumes)%nat) ->
  ((exists items,
      Generate.appended cell_volumes lb_volumes [Generate.Str s; x; y] = Ok items)
   \/ Generate.appended cell_volumes lb_volumes [Generate.Str s; x; y] = Raise KeyError)
  /\ (s <> "blank"%string ->
      Generate.dict_get s cell_volumes = None \/ Generate.dict_get s lb_volumes = None ->
      Generate.appended cell_volumes lb_volumes [Generate.Str s; x; y] = Raise KeyError).
Proof.
  intros Hlen. unfold Generate.appended.
  change (nth_error [Generate.Str s; x; y] 0) with (Some (Generate.Str s)).
  cbv beta iota.
  destruct (String.eqb_spec s "blank") as [->|Hne].
  - split; [left; eauto | congruence].
  - destruct (Generate.dict_get s cell_volumes) as [volumes|] eqn:Hvol.
    + specialize (Hlen _ _ Hvol).
      destruct (nth_error volumes 1) as [cell|] eqn:Hcell.
      * destruct (Generate.dict_get s lb_volumes) as [lb|].
        -- split; [left; eauto|]. intros _ [H | H]; discriminate.
        -- split; [now right | reflexivity].
      * apply nth_error_None in Hcell. lia.
    + split; [now right | reflexivity].
Qed.

Lemma Forall2_in_left {A B : Type} (R : A -> B -> Prop) (l1 : list A) (l2 : list B)
    (x : A) :
  Forall2 R l1 l2 -> In x l1 -> exists y, In y l2 /\ R x y.
Proof.
  induction 1 as [|x' y l1 l2 Hxy _ IH]; cbn [In]; [tauto|].
  intros [<- | Hin].
  - exists y. split; [now left | exact Hxy].
  - destruct (IH Hin) as [y' [Hy' HR]]. exists y'. split; [now right | exact HR].
Qed.

(** X24.  A culture without a reading stops the generation: when the
    assignment has returned and the well of some culture is no key of
    [cell_volumes] or of [lb_volumes] (every list in [cell_volumes] holding
    its two items), [apply_values] and with it the generation end with
    [KeyError], wherever the culture was placed. *)
Theorem generate_missing_reading {G : Type} (randbelow : nat -> G -> nat * G)
    (cell_locations : list (string * Generate.Culture))
    (cell_volumes : list (string * list Generate.Item))
    (lb_volumes : list (string * Generate.Item)) (g g' : G) (a0 : Generate.Assignment)
    (well : string) (c : Generate.Culture) :
  NoDup (map fst cell_locations) ->
  Generate.assign_wells randbelow cell_locations g = (Ok a0, g') ->
  (forall s volumes,
     Generate.dict_get s cell_volumes = Some volumes -> (2 <= length volumes)%nat) ->
  In (well, c) (Generate.cultures cell_locations) ->
  well <> "blank"%string ->
  Generate.dict_get well cell_volumes = None \/ Generate.dict_get well lb_volumes = None ->
  Generate.apply_values (Generate.final_positions a0) cell_volumes lb_volumes
  = Raise KeyError
  /\ Generate.generate randbelow cell_locations cell_volumes lb_volumes g
     = (Raise KeyError, g').
Proof.
  intros Hnd Ha0 Hlen Hc Hne Hmissing.
  destruct (assign_wells_ok _ _ _ _ _ Hnd Ha0) as [placed [extra [_ [_ [Hfp [Hall Hperm]]]]]].
  pose proof (assign_wells_shape _ _ _ _ _ Hnd Ha0) as Hshape.
  assert (Hraise : Generate.apply_values (Generate.final_positions a0)
                     cell_volumes lb_volumes = Raise KeyError).
  { rewrite apply_values_eq.
    2:{ rewrite Hfp, map_app. rewrite (proj2 (map_blank_entries extra)).
        exact (Permutation_NoDup (Permutation_sym Hperm) valid_wells_nodup). }
    apply extend_all_key_error.
    - eapply Forall_impl; [|exact Hshape]. intros kv [s [x [y ->]]].
      exact (proj1 (appended_cases _ _ s x y Hlen)).
    - destruct (Forall2_in_left _ _ _ _ Hall Hc) as [pv [Hpv [He _]]]. cbn [fst snd] in He.
      apply Exists_exists. exists pv. split; [rewrite Hfp; apply in_or_app; now left|].
      rewrite He. unfold Generate.entry_of.
      exact (proj2 (appended_cases _ _ well _ _ Hlen) Hne Hmissing). }
  split; [exact Hraise|].
  unfold Generate.generate. rewrite Ha0, Hraise. reflexivity.
Qed.

Lemma generate_missing_reading_witness :
  exists a0 g',
    Generate.assign_wells Generate.counter_randbelow
      [("B2", Generate.mkCulture "blank" "blank" true);
       ("C2", Generate.mkCulture "GFP10" "R0.25" true);
       ("C7", Generate.mkCulture "GFP10" "R0.25" false)]%string 0%nat = (Ok a0, g')
    /\ Generate.generate Generate.counter_randbelow
         [("B2", Generate.mkCulture "blank" "blank" true);
          ("C2", Generate.mkCulture "GFP10" "R0.25" true);
          ("C7", Generate.mkCulture "GFP10" "R0.25" false)]%string
         [("C2", [Generate.Str "C2"; Generate.Num (139 # 10)])]%string
         [("C2", Generate.Num (1766 # 10)); ("C7", Generate.Num (365 # 2))]%string
         0%nat = (Raise KeyError, g').
Proof.
  eexists. eexists. split; [vm_compute; reflexivity|].
  refine (proj2 (generate_missing_reading Generate.counter_randbelow
                   [("B2", Generate.mkCulture "blank" "blank" true);
                    ("C2", Generate.mkCulture "GFP10" "R0.25" true);
                    ("C7", Generate.mkCulture "GFP10" "R0.25" false)]%string
                   [("C2", [Generate.Str "C2"; Generate.Num (139 # 10)])]%string
                   [("C2", Generate.Num (1766 # 10)); ("C7", Generate.Num (365 # 2))]%string
                   0%nat _ _ "C7"%string (Generate.mkCulture "GFP10" "R0.25" false)
                   _ eq_refl _ _ _ _)).
  - repeat constructor; cbn [In]; intuition discriminate.
  - intros s volumes. cbn [Generate.dict_get].
    destruct (String.eqb "C2" s); [|discriminate].
    intros H. apply (f_equal (fun o => match o with Some l => length l | None => 2%nat end))
      in H. cbn [length] in H. rewrite <- H. apply le_n.
  - vm_compute. right. now left.
  - discriminate.
  - left. reflexivity.
Defined.

Lemma generated_run_tip_use_witness :
  exists a g' positions r',
    Generate.generate Generate.counter_randbelow
      [("B2", Generate.mkCulture "blank" "blank" true);
       ("C2", Generate.mkCulture "GFP10" "R0.25" true);
       ("C7", Generate.mkCulture "GFP10" "R0.25" false)]%string
      [("C2", [Generate.Str "C2"; Generate.Num (139 # 10)]);
       ("C7", [Generate.Str "C7"; Generate.Num 8])]%string
      [("C2", Generate.Num (1766 # 10)); ("C7", Generate.Num (365 # 2))]%string
      0%nat = (Ok a, g')
    /\ read_positions (Generate.final_positions a) = Some positions
    /\ cell_phase Ot2.base positions
         (mkRobot (mkPipette 1 [Ot2.full_rack 12 300] false 300 0)
                  (mkPipette 8 [Ot2.full_rack 12 20] false 20 0) []) = (Ok tt, r')
    /\ length (filter is_pick_up
                 (map snd (new_entries
                    (mkRobot (mkPipette 1 [Ot2.full_rack 12 300] false 300 0)
                             (mkPipette 8 [Ot2.full_rack 12 20] false 20 0) []) r')))
       = 2%nat.
Proof.
  assert (Hrun : exists a g' positions r',
             Generate.generate Generate.counter_randbelow
               [("B2", Generate.mkCulture "blank" "blank" true);
                ("C2", Generate.mkCulture "GFP10" "R0.25" true);
                ("C7", Generate.mkCulture "GFP10" "R0.25" false)]%string
               [("C2", [Generate.Str "C2"; Generate.Num (139 # 10)]);
                ("C7", [Generate.Str "C7"; Generate.Num 8])]%string
               [("C2", Generate.Num (1766 # 10)); ("C7", Generate.Num (365 # 2))]%string
               0%nat = (Ok a, g')
             /\ read_positions (Generate.final_positions a) = Some positions
             /\ cell_phase Ot2.base positions
                  (mkRobot (mkPipette 1 [Ot2.full_rack 12 300] false 300 0)
                           (mkPipette 8 [Ot2.full_rack 12 20] false 20 0) [])
                = (Ok tt, r')).
  { eexists. eexists. eexists. eexists.
    split; [vm_compute; reflexivity|]. split; vm_compute; reflexivity. }
  destruct Hrun as [a [g' [positions [r' [Hgen [Hread Hcells]]]]]].
  exists a, g', positions, r'. split; [exact Hgen|]. split; [exact Hread|].
  split; [exact Hcells|].
  refine (proj2 (generated_run_tip_use Generate.counter_randbelow _ _ _ _ _ _ _ Ot2.base
                   _ _ Hgen Hread) _ _ Hcells).
  - repeat constructor; cbn [In]; intuition discriminate.
  - cbn [map fst In]. intuition discriminate.
Defined.

Lemma valid_wells_inner :
  Forall (fun loc =>
            (exists key i,
               parse_location loc = Some (key, i) /\ 2 <= key <= 11 /\ (1 <= i <= 6)%nat)
            /\ exists l, plate_lookup "plate_2" loc = Ok l)
         Generate.valid_wells.
Proof.
  unfold Generate.valid_wells. cbn [Generate.valid_columns Generate.valid_rows flat_map map app].
  repeat (constructor;
          [split;
           [eexists; eexists; split; [vm_compute; reflexivity | split; lia]
           | eexists; vm_compute; reflexivity]|]).
  constructor.
Qed.

(** X25.  The generated targets keep off the border of the plate, and
    [run] can address every one of them: each key of [final_positions] is a
    well of rows B to G and columns 2 to 11, [plate_2[key]] is found, and
    the occupancy table of an induction pass is built without an exception
    for any selection of the keys. *)
Theorem generated_targets_inner_wells {G : Type} (randbelow : nat -> G -> nat * G)
    (cell_locations : list (string * Generate.Culture)) (g g' : G)
    (a : Generate.Assignment) :
  NoDup (map fst cell_locations) ->
  Generate.assign_wells randbelow cell_locations g = (Ok a, g') ->
  Forall (fun loc =>
            exists key i,
              parse_location loc = Some (key, i) /\ 2 <= key <= 11 /\ (1 <= i <= 6)%nat)
         (map fst (Generate.final_positions a))
  /\ Forall (fun loc => exists l, plate_lookup "plate_2" loc = Ok l)
            (map fst (Generate.final_positions a))
  /\ forall locations,
       incl locations (map fst (Generate.final_positions a)) ->
       exists d, occupancy_table locations empty_occupancy = Ok d.
Proof.
  intros Hnd Ha.
  destruct (assign_wells_keys_values _ _ _ _ _ Hnd Ha) as [Hperm _].
  pose proof valid_wells_inner as Hinner. rewrite Forall_forall in Hinner.
  assert (Hkeys : forall loc, In loc (map fst (Generate.final_positions a)) ->
                    In loc Generate.valid_wells)
    by (intros loc; apply (Permutation_in _ Hperm)).
  split; [|split].
  - apply Forall_forall. intros loc Hloc. exact (proj1 (Hinner loc (Hkeys loc Hloc))).
  - apply Forall_forall. intros loc Hloc. exact (proj2 (Hinner loc (Hkeys loc Hloc))).
  - intros locations Hincl.
    destruct (occupancy_table_ok locations empty_occupancy eq_refl empty_occupancy_lengths)
      as [d [Htable _]]; [|now exists d].
    apply Forall_forall. intros loc Hloc.
    destruct (proj1 (Hinner loc (Hkeys loc (Hincl loc Hloc)))) as [key [i [Hparse [Hkey _]]]].
    exists key, i. split; [exact Hparse | lia].
Qed.

Lemma generated_targets_inner_wells_witness :
  exists a g',
    Generate.assign_wells Generate.counter_randbelow
      [("B2", Generate.mkCulture "blank" "blank" true);
       ("C2", Generate.mkCulture "GFP10" "R0.25" true);
       ("C7", Generate.mkCulture "GFP10" "R0.25" false)]%string 0%nat = (Ok a, g')
    /\ Forall (fun loc => exists l, plate_lookup "plate_2" loc = Ok l)
              (map fst (Generate.final_positions a)).
Proof.
  eexists. eexists. split; [vm_compute; reflexivity|].
  refine (proj1 (proj2 (generated_targets_inner_wells Generate.counter_randbelow
                          [("B2", Generate.mkCulture "blank" "blank" true);
                           ("C2", Generate.mkCulture "GFP10" "R0.25" true);
                           ("C7", Generate.mkCulture "GFP10" "R0.25" false)]%string
                          0%nat _ _ _ eq_refl))).
  repeat constructor; cbn [In]; intuition discriminate.
Defined.
